(** * pyscope: the scheduling front end, the Sun condition and the CCD
    calibration routine, embedded as Rocq functions.

    Sources embedded here:
    - [pyscope/telrun/schedtel.py]      (module [Schedtel])
    - [pyscope/telrun/sun_condition.py] (module [SunCondition])
    - [pyscope/reduction/ccd_calib.py]  (module [CcdCalib])

    Python code is effectful: it raises, returns early, reads and writes
    files and calls library services.  Module [Py] gives the small run-time
    model shared by the three embeddings: exceptions, a computation monad
    with state, an event trace and early return, name resolution against
    the module namespace, and the handful of dynamically typed values the
    code manipulates.  Library services that live outside the repository
    (astroplan, astropy, astroquery, the file system, NumPy arithmetic)
    appear as fields of a [world] record: pure functions that either give
    a result or raise.

    [pyscope/telrun/__init__.py] imports the scheduling core -- Queue,
    Prioritizer, Optimizer, Scheduler, Schedule, the Blocks, Fields and
    Conditions -- from modules that are not among the sources.  Module
    [Core] models that part from the design document, section by
    section; each of its definitions says so. *)

From Stdlib Require Import ZArith QArith Qround Lia Lqa Ascii String Sorted.
From stdpp Require Import gmap strings list.

Set Warnings "-register-all,-notation-for-abbreviation".
Close Scope Q_scope.

(* ================================================================== *)
(** * Part I: definitions                                              *)
(* ================================================================== *)

Module Py.

(** Exceptions the embedded code can raise.  [LibraryError] stands for
    whatever a library call raises (OSError from [open], a parse error
    from [sch.read], a network error from the MPC service, ...). *)
Inductive exn : Type :=
| NameError (name : string)
| UnboundLocalError (name : string)
| KeyError (key : string)
| AttributeError (attr : string)
| TypeError
| IndexError
| ValueError
| ZeroDivisionError
| LibraryError (origin : string).

(** The answer of a library service. *)
Inductive result (A : Type) : Type :=
| Success (a : A)
| Failure (e : exn).
Arguments Success {A} a.
Arguments Failure {A} e.

(** How a block of statements ends: it falls through to the next
    statement with a value, executes [return r], or raises. *)
Inductive outcome (R A : Type) : Type :=
| Next (a : A)
| Returned (r : R)
| Raised (e : exn).
Arguments Next {R A} a.
Arguments Returned {R A} r.
Arguments Raised {R A} e.

Section Monad.
Context {St Ev R : Type}.

(** A computation threads a state [St] (the mutable store the code
    works on) and produces the list of events [Ev] it performed. *)
Definition M (A : Type) : Type := St -> outcome R A * St * list Ev.

Definition ret {A} (a : A) : M A := fun s => (Next a, s, []).

Definition bind {A B} (m : M A) (k : A -> M B) : M B :=
  fun s =>
    match m s with
    | (Next a, s1, t1) =>
        match k a s1 with
        | (o, s2, t2) => (o, s2, t1 ++ t2)
        end
    | (Returned r, s1, t1) => (Returned r, s1, t1)
    | (Raised e, s1, t1) => (Raised e, s1, t1)
    end.

Definition raise {A} (e : exn) : M A := fun s => (Raised e, s, []).

(** The [return] statement. *)
Definition returning {A} (r : R) : M A := fun s => (Returned r, s, []).

Definition emit (e : Ev) : M unit := fun s => (Next tt, s, [e]).

Definition get : M St := fun s => (Next s, s, []).

Definition put (s : St) : M unit := fun _ => (Next tt, s, []).

Definition lift {A} (r : result A) : M A :=
  match r with
  | Success a => ret a
  | Failure e => raise e
  end.

(** [try: body  except Exception as e: handler e].  Every exception of
    [exn] is an [Exception]; a [return] inside the body is not caught.
    Effects of the body up to the raise are kept. *)
Definition try_except {A} (body : M A) (handler : exn -> M A) : M A :=
  fun s =>
    match body s with
    | (Raised e, s1, t1) =>
        match handler e s1 with
        | (o, s2, t2) => (o, s2, t1 ++ t2)
        end
    | r => r
    end.

(** [for x in l: body x] over a list that the body does not mutate. *)
Fixpoint for_each {A} (l : list A) (body : A -> M unit) : M unit :=
  match l with
  | [] => ret tt
  | x :: l' => bind (body x) (fun _ => for_each l' body)
  end.

(** The same loop when the body updates loop-carried variables [acc]. *)
Fixpoint for_fold {A B} (l : list A) (acc : B) (body : B -> A -> M B) : M B :=
  match l with
  | [] => ret acc
  | x :: l' => bind (body acc x) (fun acc' => for_fold l' acc' body)
  end.

End Monad.

Definition outcome_of {St Ev R A} (r : outcome R A * St * list Ev) : outcome R A :=
  r.1.1.
Definition state_of {St Ev R A} (r : outcome R A * St * list Ev) : St :=
  r.1.2.
Definition trace_of {St Ev R A} (r : outcome R A * St * list Ev) : list Ev :=
  r.2.

(** Every event that [m] performs satisfies [P]. *)
Definition emits {St Ev R A} (P : Ev -> Prop) (m : @M St Ev R A) : Prop :=
  forall s, Forall P (trace_of (m s)).

(** Whatever [m] returns with a [return] statement satisfies [P]. *)
Definition exits {St Ev R A} (P : R -> Prop) (m : @M St Ev R A) : Prop :=
  forall s r, outcome_of (m s) = Returned r -> P r.

(** [m] never falls through to the statement after it: it raises or
    returns. *)
Definition stops {St Ev R A} (m : @M St Ev R A) : Prop :=
  forall s a, outcome_of (m s) <> Next a.

(** ** Name resolution

    A free name in a function body is looked up, when the statement
    runs, in the function's local variables, then in the namespace of
    the defining module, then in the builtins.  A module namespace is
    represented by the names bound at its top level. *)
Definition namespace : Type := list string.

Definition bound (ns : namespace) (x : string) : bool :=
  bool_decide (x ∈ ns).

(** The builtins the three modules rely on. *)
Definition builtins : namespace :=
  [ "len"; "range"; "type"; "str"; "int"; "float"; "list"; "tuple";
    "round"; "print"; "open"; "getattr"; "Exception"; "KeyError";
    "TypeError"; "True"; "False"; "None" ].

(** ** Values *)

(** The dynamically typed values that matter to the embedded code.
    [VObject cls fields] is an instance of class [cls]. *)
Inductive value : Type :=
| VNone
| VBool (b : bool)
| VInt (z : Z)
| VFloat (q : Q)
| VStr (s : string)
| VObject (cls : string) (fields : list (string * value)).

(** Truth value testing ([if v:], [bool(v)]); an object without
    [__bool__] or [__len__] is true. *)
Definition truthy (v : value) : bool :=
  match v with
  | VNone => false
  | VBool b => b
  | VInt z => negb (z =? 0)%Z
  | VFloat q => negb (Qeq_bool q 0)
  | VStr s => negb (String.eqb s "")
  | VObject _ _ => true
  end.

Definition Z_of_bool (b : bool) : Z := if b then 1%Z else 0%Z.

(** [a - b] for the operand types above: numbers subtract ([bool] is a
    subclass of [int]); every other combination is a [TypeError]. *)
Definition py_sub (a b : value) : result value :=
  match a, b with
  | VInt x, VInt y => Success (VInt (x - y))
  | VInt x, VBool y => Success (VInt (x - Z_of_bool y))
  | VBool x, VInt y => Success (VInt (Z_of_bool x - y))
  | VBool x, VBool y => Success (VInt (Z_of_bool x - Z_of_bool y))
  | VFloat x, VFloat y => Success (VFloat (x - y)%Q)
  | VFloat x, VInt y => Success (VFloat (x - inject_Z y))
  | VInt x, VFloat y => Success (VFloat (inject_Z x - y))
  | VFloat x, VBool y => Success (VFloat (x - inject_Z (Z_of_bool y)))
  | VBool x, VFloat y => Success (VFloat (inject_Z (Z_of_bool x) - y))
  | _, _ => Failure TypeError
  end.

(** [a + b]: numbers add, strings concatenate. *)
Definition py_add (a b : value) : result value :=
  match a, b with
  | VInt x, VInt y => Success (VInt (x + y))
  | VInt x, VBool y => Success (VInt (x + Z_of_bool y))
  | VBool x, VInt y => Success (VInt (Z_of_bool x + y))
  | VBool x, VBool y => Success (VInt (Z_of_bool x + Z_of_bool y))
  | VFloat x, VFloat y => Success (VFloat (x + y))
  | VFloat x, VInt y => Success (VFloat (x + inject_Z y))
  | VInt x, VFloat y => Success (VFloat (inject_Z x + y))
  | VFloat x, VBool y => Success (VFloat (x + inject_Z (Z_of_bool y)))
  | VBool x, VFloat y => Success (VFloat (inject_Z (Z_of_bool x) + y))
  | VStr x, VStr y => Success (VStr (x +:+ y))
  | _, _ => Failure TypeError
  end.

(** Iterating over a [str] yields its characters as one-character
    strings. *)
Fixpoint chars (s : string) : list string :=
  match s with
  | EmptyString => []
  | String c s' => String c EmptyString :: chars s'
  end.

(** [l[i]] for a non-negative index. *)
Definition index {A} (l : list A) (i : nat) : result A :=
  match l !! i with
  | Some x => Success x
  | None => Failure IndexError
  end.

(** [v.a] *)
Fixpoint assoc (a : string) (fields : list (string * value)) : option value :=
  match fields with
  | [] => None
  | (k, v) :: rest => if String.eqb k a then Some v else assoc a rest
  end.

Definition getattr (v : value) (a : string) : result value :=
  match v with
  | VObject _ fields =>
      match assoc a fields with
      | Some x => Success x
      | None => Failure (AttributeError a)
      end
  | _ => Failure (AttributeError a)
  end.

(** Reading the global name [x]: the module namespace, then the
    builtins, else [NameError].  The objects that module-level names
    denote (modules, functions) are opaque here. *)
Definition lookup_global {St Ev R} (globals : namespace) (x : string)
  : @M St Ev R value :=
  if bound globals x || bound builtins x
  then ret (VObject x [])
  else raise (NameError x).

(** [fmt % args]: the number of conversion specifiers in [fmt]
    ([%%] is a literal percent sign) must be the number of arguments. *)
Fixpoint specifiers (fmt : string) : nat :=
  match fmt with
  | String "%" (String c rest) =>
      if Ascii.eqb c "%"%char then specifiers rest else S (specifiers rest)
  | String _ rest => specifiers rest
  | EmptyString => 0
  end.

Definition percent_format (fmt : string) (nargs : nat) : result unit :=
  if (specifiers fmt =? nargs)%nat then Success tt else Failure TypeError.

(** [l.remove(x)]: delete the first element equal to [x]. *)
Fixpoint remove_first {A} `{EqDecision A} (x : A) (l : list A) : list A :=
  match l with
  | [] => []
  | y :: l' => if decide (y = x) then l' else y :: remove_first x l'
  end.

(** [m] only computes: it gives a value or raises, leaves the state as
    it is and performs no event. *)
Definition pure {St Ev R A} (m : @M St Ev R A) : Prop :=
  forall s, exists r : result A, m s = lift r s.

End Py.

Declare Scope py_scope.
Delimit Scope py_scope with py.
Notation "x <- m ;; k" := (Py.bind m (fun x => k))
  (at level 100, m at next level, right associativity) : py_scope.
Notation "m ;; k" := (Py.bind m (fun _ => k))
  (at level 100, right associativity) : py_scope.
Open Scope py_scope.

(* ------------------------------------------------------------------ *)
(** ** pyscope/telrun/sun_condition.py                                 *)
(* ------------------------------------------------------------------ *)

Module SunCondition.

(** The ephemeris service a condition could consult. *)
Record ephemeris (Time Location : Type) : Type := {
  sun_position : Time -> Location -> Py.result (Q * Q)
}.

(** Calls to the service are the only events of a condition. *)
Inductive event : Type :=
| SunLookup.

Definition M (A : Type) : Type := @Py.M unit event Py.value A.

(** [__init__(self, min_sep, max_sep, min_alt, max_alt)] has the body
    [pass]: the instance keeps none of its four arguments. *)
Inductive instance : Type :=
| Instance.

Definition init (min_sep max_sep min_alt max_alt : Q) : instance := Instance.

(** The defaults of [__init__], in degrees. *)
Definition default : instance := init 0 180 (-90) 90.

(** [from_string], [__str__], [plot]: body [pass]. *)
Definition from_string (self : instance) (s : string) : M Py.value :=
  Py.ret Py.VNone.

Definition str (self : instance) : M Py.value := Py.ret Py.VNone.

Definition plot (self : instance) : M Py.value := Py.ret Py.VNone.

(** [__repr__] returns [str(self)]; the builtin [str] raises [TypeError]
    when [__str__] gives something that is not a string. *)
Definition repr (self : instance) : M Py.value :=
  v <- str self ;;
  match v with
  | Py.VStr s => Py.ret (Py.VStr s)
  | _ => Py.raise Py.TypeError
  end.

(** [__call__(self, time=None, location=None, target=None)]: the body is
    a docstring and [pass], so the call evaluates nothing and the
    function returns [None]. *)
Definition call {Time Location Target : Type} (eph : ephemeris Time Location)
    (self : instance)
    (time : option Time) (location : option Location) (target : option Target)
  : M Py.value :=
  Py.ret Py.VNone.

(** What the contract of a condition asks of the value returned by an
    evaluation: a [ConditionResult] with a boolean [satisfied] and a
    [score] between 0 and 1. *)
Definition is_condition_result (v : Py.value) : Prop :=
  exists (satisfied : bool) (score : Q),
    v = Py.VObject "ConditionResult"
          [("satisfied", Py.VBool satisfied); ("score", Py.VFloat score)]
    /\ (0 <= score)%Q /\ (score <= 1)%Q.

End SunCondition.

(* ------------------------------------------------------------------ *)
(** ** pyscope/reduction/ccd_calib.py                                  *)
(* ------------------------------------------------------------------ *)

Module CcdCalib.

(** Values of FITS header cards. *)
Inductive hval : Type :=
| HStr (s : string)
| HNum (q : Q)
| HBool (b : bool).

(** A FITS header: keyword cards, and the COMMENT cards appended with
    [add_comment] (kept by their fixed text). *)
Record header : Type := {
  cards : gmap string hval;
  comments : list string
}.

Definition hdr_get (h : header) (k : string) : Py.result hval :=
  match cards h !! k with
  | Some v => Py.Success v
  | None => Py.Failure (Py.KeyError k)
  end.

Definition hdr_set (h : header) (k : string) (v : hval) : header :=
  {| cards := <[k := v]> (cards h); comments := comments h |}.

Definition add_comment (h : header) (c : string) : header :=
  {| cards := cards h; comments := comments h ++ [c] |}.

(** NumPy and astroscrappy.  Arrays hold float64 pixels; their
    arithmetic stays abstract.  Operations that can fail (shapes that do
    not broadcast, an index out of range) answer with a [Py.result]. *)
Record numpy (ndarray float64 : Type) : Type := {
  np_sub : ndarray -> ndarray -> Py.result ndarray;
  np_mul_scalar : ndarray -> Q -> ndarray;
  np_div : ndarray -> ndarray -> Py.result ndarray;
  np_mean : ndarray -> float64;
  np_div_scalar : ndarray -> float64 -> ndarray;
  np_floor : ndarray -> ndarray;
  np_add_scalar : ndarray -> Z -> ndarray;
  (** [a[:, j]] and [a[:, j] = c] for an integer [j] *)
  np_get_col : ndarray -> Z -> Py.result ndarray;
  np_set_col : ndarray -> Z -> ndarray -> Py.result ndarray;
  (** [(a + b) / 2] *)
  np_half_sum : ndarray -> ndarray -> ndarray;
  (** [astroscrappy.detect_cosmics(a, niter=, readnoise=)], cleaned array *)
  detect_cosmics : ndarray -> Z -> Q -> Py.result ndarray;
  (** [round(x, 3)] *)
  round3 : Q -> Q
}.
Arguments np_sub {ndarray float64} _ _ _.
Arguments np_mul_scalar {ndarray float64} _ _ _.
Arguments np_div {ndarray float64} _ _ _.
Arguments np_mean {ndarray float64} _ _.
Arguments np_div_scalar {ndarray float64} _ _ _.
Arguments np_floor {ndarray float64} _ _.
Arguments np_add_scalar {ndarray float64} _ _ _.
Arguments np_get_col {ndarray float64} _ _ _.
Arguments np_set_col {ndarray float64} _ _ _ _.
Arguments np_half_sum {ndarray float64} _ _ _.
Arguments detect_cosmics {ndarray float64} _ _ _ _.
Arguments round3 {ndarray float64} _ _.

(** [os.path.isfile], [os.path.isdir] and [glob.glob]. *)
Record filesystem : Type := {
  isfile : string -> bool;
  isdir : string -> bool;
  glob : string -> list string
}.

(** The [bad_columns] argument: the command line passes the option text
    (default [""]); a caller of the function may pass a sequence. *)
Inductive bad_cols : Type :=
| BCStr (s : string)
| BCSeq (l : list Py.value).

Definition bc_len (b : bad_cols) : nat :=
  match b with
  | BCStr s => String.length s
  | BCSeq l => length l
  end.

(** What [for badcol in bad_columns] binds [badcol] to, in order. *)
Definition bc_iter (b : bad_cols) : list Py.value :=
  match b with
  | BCStr s => Py.VStr <$> Py.chars s
  | BCSeq l => l
  end.

(** The arguments of [ccd_calib] (the callback of [ccd_calib_cli]). *)
Record args : Type := {
  fnames : list string;
  dark_frame : option string;
  flat_frame : option string;
  bias_frame : option string;
  flat_dark_frame : option string;
  camera_type : string;
  astro_scrappy : Z * Q;
  bad_columns : bad_cols;
  in_place : bool;
  verbose : bool;
  pedestal : Z
}.

(** The same call with another [fnames] argument. *)
Definition with_fnames (a : args) (names : list string) : args :=
  {| fnames := names;
     dark_frame := dark_frame a;
     flat_frame := flat_frame a;
     bias_frame := bias_frame a;
     flat_dark_frame := flat_dark_frame a;
     camera_type := camera_type a;
     astro_scrappy := astro_scrappy a;
     bad_columns := bad_columns a;
     in_place := in_place a;
     verbose := verbose a;
     pedestal := pedestal a |}.

Definition is_ccd (a : args) : bool := String.eqb (camera_type a) "ccd".
Definition is_cmos (a : args) : bool := String.eqb (camera_type a) "cmos".

Section Calib.
Context {ndarray float64 : Type}.
Variable np : numpy ndarray float64.
Variable fs : filesystem.

(** The FITS files on disk: primary HDU data and header by path. *)
Definition store : Type := gmap string (ndarray * header).

Inductive event : Type :=
| Load (path : string)
| Write (path : string).

Definition M (A : Type) : Type := @Py.M store event unit A.

Definition is_load (e : event) : Prop :=
  match e with
  | Load _ => True
  | Write _ => False
  end.

(** [fits.open(path)] / [fits.getdata(path, header=True)]. *)
Definition fits_read (path : string) : M (ndarray * header) :=
  st <- Py.get ;;
  Py.emit (Load path) ;;
  match st !! path with
  | Some f => Py.ret f
  | None => Py.raise (Py.LibraryError "fits")
  end.

(** [fits.writeto(path, data, hdr, overwrite=True)]. *)
Definition fits_write (path : string) (data : ndarray) (hdr : header) : M unit :=
  st <- Py.get ;;
  Py.emit (Write path) ;;
  Py.put (<[path := (data, hdr)]> st).

(** [try: body  except KeyError: handler]. *)
Definition except_key_error {A} (body handler : M A) : M A :=
  Py.try_except body
    (fun e => match e with
              | Py.KeyError _ => handler
              | _ => Py.raise e
              end).

(** [hdr[k1]], and [hdr[k2]] when [k1] is missing. *)
Definition hdr_get2 (h : header) (k1 k2 : string) : M hval :=
  except_key_error (Py.lift (hdr_get h k1)) (Py.lift (hdr_get h k2)).

(** [round(v, 3)] on a header value. *)
Definition py_round3 (v : hval) : M Q :=
  match v with
  | HNum q => Py.ret (round3 np q)
  | HBool b => Py.ret (inject_Z (Py.Z_of_bool b))
  | HStr _ => Py.raise Py.TypeError
  end.

Definition hdr_exptime (h : header) : M Q :=
  except_key_error
    (v <- Py.lift (hdr_get h "EXPTIME") ;; py_round3 v)
    (v <- Py.lift (hdr_get h "EXPOSURE") ;; py_round3 v).

(** [try: x = hdr[k1]  except: x = hdr[k2]] (bare [except]). *)
Definition hdr_bin (h : header) (k1 k2 : string) : M hval :=
  Py.try_except (Py.lift (hdr_get h k1)) (fun _ => Py.lift (hdr_get h k2)).

Definition hdr_filter (h : header) : M hval :=
  except_key_error (Py.lift (hdr_get h "FILTER")) (Py.ret (HStr "")).

Fixpoint remove_spaces (s : string) : string :=
  match s with
  | EmptyString => EmptyString
  | String c s' =>
      if Ascii.eqb c " "%char then remove_spaces s' else String c (remove_spaces s')
  end.

(** [v.replace(" ", "")]: only strings have the method. *)
Definition replace_spaces (v : hval) : M hval :=
  match v with
  | HStr s => Py.ret (HStr (remove_spaces s))
  | _ => Py.raise (Py.AttributeError "replace")
  end.

(** The local variables bound by loading one master frame.  The four
    loading blocks bind their variables together, so a frame's variables
    are all bound or all unbound. *)
Record calframe : Type := {
  cf_data : ndarray;
  cf_filter : hval;
  cf_readout : hval;
  cf_exptime : Q;
  cf_xbin : hval;
  cf_ybin : hval
}.

(** Lines 116-146: the bias frame. *)
Definition load_bias (path : string) : M calframe :=
  f <- fits_read path ;;
  let data := f.1 in
  let hdr := f.2 in
  readout <- hdr_get2 hdr "READOUTM" "READOUT" ;;
  exptime <- hdr_exptime hdr ;;
  xbin <- hdr_bin hdr "XBINNING" "XBIN" ;;
  ybin <- hdr_bin hdr "YBINNING" "YBIN" ;;
  Py.ret {| cf_data := data; cf_filter := HStr ""; cf_readout := readout;
            cf_exptime := exptime; cf_xbin := xbin; cf_ybin := ybin |}.

(** Lines 187-217: the dark frame reads the same cards. *)
Definition load_dark (path : string) : M calframe := load_bias path.

(** Lines 219-255: the flat frame also reads FILTER. *)
Definition load_flat (path : string) : M calframe :=
  f <- fits_read path ;;
  let data := f.1 in
  let hdr := f.2 in
  filter <- hdr_filter hdr ;;
  readout <- hdr_get2 hdr "READOUTM" "READOUT" ;;
  exptime <- hdr_exptime hdr ;;
  xbin <- hdr_bin hdr "XBINNING" "XBIN" ;;
  ybin <- hdr_bin hdr "YBINNING" "YBIN" ;;
  Py.ret {| cf_data := data; cf_filter := filter; cf_readout := readout;
            cf_exptime := exptime; cf_xbin := xbin; cf_ybin := ybin |}.

(** Lines 149-184: the flat-dark frame; its exposure time is read
    without rounding and only compared, so it is not kept as a number. *)
Definition load_flat_dark (path : string) : M calframe :=
  f <- fits_read path ;;
  let data := f.1 in
  let hdr := f.2 in
  filter <- hdr_filter hdr ;;
  readout <- hdr_get2 hdr "READOUTM" "READOUT" ;;
  _ <- hdr_get2 hdr "EXPTIME" "EXPOSURE" ;;
  xbin <- hdr_bin hdr "XBINNING" "XBIN" ;;
  ybin <- hdr_bin hdr "YBINNING" "YBIN" ;;
  Py.ret {| cf_data := data; cf_filter := filter; cf_readout := readout;
            cf_exptime := 0; cf_xbin := xbin; cf_ybin := ybin |}.

(** [if path is not None: load path] -- otherwise the variables stay
    unbound. *)
Definition load_if_given (load : string -> M calframe) (path : option string)
  : M (option calframe) :=
  match path with
  | Some p => f <- load p ;; Py.ret (Some f)
  | None => Py.ret None
  end.

(** Reading a local variable that no executed statement has bound. *)
Definition local {A} (name : string) (v : option A) : M A :=
  match v with
  | Some a => Py.ret a
  | None => Py.raise (Py.UnboundLocalError name)
  end.

(** [a / b] on exposure times. *)
Definition exptime_ratio (a b : Q) : M Q :=
  if Qeq_bool b 0 then Py.raise Py.ZeroDivisionError else Py.ret (a / b)%Q.

(** The scalar argument of [__getitem__] on the column axis. *)
Definition column (a : ndarray) (j : Py.value) : M ndarray :=
  match j with
  | Py.VInt z => Py.lift (np_get_col np a z)
  | _ => Py.raise Py.IndexError
  end.

Definition set_column (a : ndarray) (j : Py.value) (c : ndarray) : M ndarray :=
  match j with
  | Py.VInt z => Py.lift (np_set_col np a z c)
  | _ => Py.raise Py.IndexError
  end.

(** Lines 470-472, one iteration:
    [cal_image[:, badcol] = (cal_image[:, badcol - 1] + cal_image[:, badcol + 1]) / 2].
    The right-hand side is evaluated first, left operand first. *)
Definition fix_column (cal_image : ndarray) (badcol : Py.value) : M ndarray :=
  jl <- Py.lift (Py.py_sub badcol (Py.VInt 1)) ;;
  left <- column cal_image jl ;;
  jr <- Py.lift (Py.py_add badcol (Py.VInt 1)) ;;
  right <- column cal_image jr ;;
  set_column cal_image badcol (np_half_sum np left right).

(** Lines 467-472. *)
Definition fix_bad_columns (cal_image : ndarray) (bad : bad_cols)
  : M ndarray :=
  if (0 <? bc_len bad)%nat
  then Py.for_fold (bc_iter bad) cal_image fix_column
  else Py.ret cal_image.

(** [fname.split(".")[:-1][0]]: the text before the first dot;
    [IndexError] when the name has no dot. *)
Fixpoint before_first_dot (s : string) : option string :=
  match s with
  | EmptyString => None
  | String c s' =>
      if Ascii.eqb c "."%char then Some EmptyString
      else String c <$> before_first_dot s'
  end.

(** The master frames whose variables are bound when the loop starts. *)
Record frames : Type := {
  bias : option calframe;
  flat_dark : option calframe;
  dark : option calframe;
  flat : option calframe
}.

(** Lines 115-255. *)
Definition load_frames (a : args) : M frames :=
  bf <- (if is_ccd a then
           b <- load_if_given load_bias (bias_frame a) ;;
           Py.ret (b, None)
         else if is_cmos a then
           d <- load_if_given load_flat_dark (flat_dark_frame a) ;;
           Py.ret (None, d)
         else Py.ret (None, None)) ;;
  d <- load_if_given load_dark (dark_frame a) ;;
  f <- load_if_given load_flat (flat_frame a) ;;
  Py.ret {| bias := bf.1; flat_dark := bf.2; dark := d; flat := f |}.

(** Lines 259-268: [fnames] is by now the single path [fnames[0]].  A
    file stands for itself, a directory for its FITS files; otherwise
    [fnames] stays a string and the loop below walks its characters. *)
Definition targets (fnames0 : string) : list string :=
  if isfile fs fnames0 then [fnames0]
  else if isdir fs fnames0 then
    glob fs (fnames0 +:+ "/*.fts") ++ glob fs (fnames0 +:+ "/*.fits")
      ++ glob fs (fnames0 +:+ "/*.fit")
  else Py.chars fnames0.

(** [(dark - bias) * (t / dark_exptime)], the scaled dark of lines 382
    and 410. *)
Definition scaled_dark (fr : frames) (dk : calframe) (t : Q) : M ndarray :=
  b <- local "bias" (bias fr) ;;
  db <- Py.lift (np_sub np (cf_data dk) (cf_data b)) ;;
  r <- exptime_ratio t (cf_exptime dk) ;;
  Py.ret (np_mul_scalar np db r).

(** Lines 369-395: bias and dark subtraction of the image. *)
Definition subtract_bias_dark (a : args) (fr : frames) (dk : calframe)
    (image_exptime : Q) (cal_image : ndarray) : M ndarray :=
  if is_ccd a then
    c <- match bias_frame a with
         | Some _ =>
             b <- local "bias" (bias fr) ;;
             Py.lift (np_sub np cal_image (cf_data b))
         | None => Py.ret cal_image
         end ;;
    match dark_frame a with
    | Some _ =>
        sd <- scaled_dark fr dk image_exptime ;;
        Py.lift (np_sub np c sd)
    | None => Py.ret c
    end
  else if is_cmos a then
    match flat_dark_frame a with
    | Some _ => Py.lift (np_sub np cal_image (cf_data dk))
    | None => Py.ret cal_image
    end
  else Py.ret cal_image.

(** Lines 397-432: the flat is prepared in place -- the array bound to
    [flat] is the one the next image starts from -- then divides the
    image.  Gives the image and the new contents of [flat]. *)
Definition apply_flat (a : args) (fr : frames) (dk fl : calframe)
    (flat_arr : option ndarray) (cal_image : ndarray)
  : M (ndarray * option ndarray) :=
  match flat_frame a with
  | Some _ =>
      f0 <- local "flat" flat_arr ;;
      f1 <- (if is_ccd a then
               x <- match bias_frame a with
                    | Some _ =>
                        b <- local "bias" (bias fr) ;;
                        Py.lift (np_sub np f0 (cf_data b))
                    | None => Py.ret f0
                    end ;;
               match dark_frame a with
               | Some _ =>
                   sd <- scaled_dark fr dk (cf_exptime fl) ;;
                   Py.lift (np_sub np x sd)
               | None => Py.ret x
               end
             else if is_cmos a then
               match flat_dark_frame a with
               | Some _ =>
                   fd <- local "flat_dark" (flat_dark fr) ;;
                   Py.lift (np_sub np f0 (cf_data fd))
               | None => Py.ret f0
               end
             else Py.ret f0) ;;
      let flat_mean := np_mean np f1 in
      let f2 := np_div_scalar np f1 flat_mean in
      c <- Py.lift (np_div np cal_image f2) ;;
      Py.ret (c, Some f2)
  | None => Py.ret (cal_image, flat_arr)
  end.

(** Lines 358-365. *)
Definition calibration_comments : list string :=
  [ "Calibrated using pyscope"; "Calibration mode"; "Calibration dark frame";
    "Calibration flat frame"; "Calibration bias frame";
    "Calibration flat-dark frame"; "Calibration astro-scrappy";
    "Calibration bad columns" ].

(** Lines 454-465. *)
Definition remove_hot_pixels (a : args) (cal_image : ndarray) (hdr : header)
  : M (ndarray * header) :=
  if (0 <? (astro_scrappy a).1)%Z then
    c <- Py.lift (detect_cosmics np cal_image (astro_scrappy a).1 (astro_scrappy a).2) ;;
    Py.ret (c, add_comment
                 (add_comment hdr "Removed hot pixels using astroscrappy")
                 "Hot pixel removal took")
  else Py.ret (cal_image, hdr).

(** Lines 483-490. *)
Definition write_calibrated (a : args) (fname : string) (cal_image : ndarray)
    (hdr : header) : M unit :=
  if in_place a then fits_write fname cal_image hdr
  else
    match before_first_dot fname with
    | Some stem => fits_write (stem +:+ "_cal.fts") cal_image hdr
    | None => Py.raise Py.IndexError
    end.

(** Lines 270-492: the body of [for fname in fnames].  [flat_arr] is
    the array currently bound to [flat]. *)
Definition calibrate (a : args) (fr : frames) (flat_arr : option ndarray)
    (fname : string) : M (option ndarray) :=
  f <- fits_read fname ;;
  let image := f.1 in
  let hdr := f.2 in
  image_filter <- hdr_filter hdr ;;
  image_readout_mode <-
    except_key_error
      (v <- Py.lift (hdr_get hdr "READOUTM") ;; replace_spaces v)
      (v <- Py.lift (hdr_get hdr "READOUT") ;; replace_spaces v) ;;
  image_exptime <- hdr_exptime hdr ;;
  image_xbin <- hdr_bin hdr "XBINNING" "XBIN" ;;
  image_ybin <- hdr_bin hdr "YBINNING" "YBIN" ;;
  (* 311-344: the comparisons only warn, but they read the dark and the
     flat variables *)
  dk <- local "dark_readout_mode" (dark fr) ;;
  fl <- local "flat_readout_mode" (flat fr) ;;
  (* 346-356 *)
  (if is_cmos a then _ <- local "flat_dark_exptime" (flat_dark fr) ;; Py.ret tt
   else Py.ret tt) ;;
  let hdr1 := foldl add_comment hdr calibration_comments in
  cal1 <- subtract_bias_dark a fr dk image_exptime image ;;
  cf <- apply_flat a fr dk fl flat_arr cal1 ;;
  let cal3 := np_floor np cf.1 in
  let hdr2 := hdr_set hdr1 "PEDESTAL" (HNum (inject_Z (pedestal a))) in
  let cal4 := np_add_scalar np cal3 (pedestal a) in
  ch <- remove_hot_pixels a cal4 hdr2 ;;
  cal6 <- fix_bad_columns ch.1 (bad_columns a) ;;
  let hdr4 := hdr_set ch.2 "CALSTAT" (HBool true) in
  write_calibrated a fname cal6 hdr4 ;;
  Py.ret cf.2.

(** Lines 111-492: what runs once [fnames] has been rebound to the
    single path [fnames0]. *)
Definition calibrate_all (a : args) (fnames0 : string) : M unit :=
  fr <- load_frames a ;;
  _ <- Py.for_fold (targets fnames0) (cf_data <$> flat fr) (calibrate a fr) ;;
  Py.ret tt.

(** [ccd_calib(fnames, dark_frame, flat_frame, bias_frame, ...)]. *)
Definition ccd_calib (a : args) : M unit :=
  (* line 110: fnames = fnames[0] *)
  fnames0 <- Py.lift (Py.index (fnames a) 0) ;;
  calibrate_all a fnames0.

(** The bad-column repair that the option's help text describes, "comma
    separated list of bad columns to fix": each listed integer column
    becomes the mean of its two neighbours. *)
Definition fix_listed_columns (cal_image : ndarray) (cols : list Z) : M ndarray :=
  Py.for_fold (Py.VInt <$> cols) cal_image fix_column.

(** What a run [run] of the loop body on [fname], started with the
    files [st], has done.  Either it raised, having read the image and
    written nothing; or it completed, having read the image and written
    one file [out]: then the dark and the flat variables were bound, the
    bias and dark subtraction gave [cal1], the flat step gave the image
    [c] and left the array [fa] bound to [flat], and the header written
    is the one read with PEDESTAL and CALSTAT set and comments added. *)
Definition calibrated (a : args) (fr : frames) (flat_arr : option ndarray)
    (fname : string) (st : store)
    (run : Py.outcome unit (option ndarray) * store * list event) : Prop :=
  (exists e, run = (Py.Raised e, st, [Load fname]))
  \/ (exists image hdr dk fl t cal1 c data hdr' out fa,
        st !! fname = Some (image, hdr)
        /\ run = (Py.Next fa, <[out := (data, hdr')]> st, [Load fname; Write out])
        /\ dark fr = Some dk /\ flat fr = Some fl
        /\ (is_cmos a = true -> flat_dark fr <> None)
        /\ subtract_bias_dark a fr dk t image st = (Py.Next cal1, st, [])
        /\ apply_flat a fr dk fl flat_arr cal1 st = (Py.Next (c, fa), st, [])
        /\ ((in_place a = true /\ out = fname)
            \/ (in_place a = false
                /\ exists stem, before_first_dot fname = Some stem
                                /\ out = stem +:+ "_cal.fts"))
        /\ cards hdr' = <["CALSTAT" := HBool true]>
                          (<["PEDESTAL" := HNum (inject_Z (pedestal a))]> (cards hdr))
        /\ comments hdr ++ calibration_comments `prefix_of` comments hdr').

(** The frame variables that are unbound because the frame was not
    given. *)
Definition unbound_as_given (a : args) (fr : frames) : Prop :=
  (dark_frame a = None -> dark fr = None)
  /\ (flat_frame a = None -> flat fr = None)
  /\ (is_ccd a = true -> bias_frame a = None -> bias fr = None)
  /\ (is_cmos a = true -> flat_dark_frame a = None -> flat_dark fr = None).

End Calib.

(** *** Vocabulary of the properties *)

(** The name contains a dot. *)
Fixpoint has_dot (s : string) : bool :=
  match s with
  | EmptyString => false
  | String c s' => Ascii.eqb c "."%char || has_dot s'
  end.

(** A master frame that the selected camera type uses was not given. *)
Definition frame_missing (a : args) : Prop :=
  dark_frame a = None
  \/ flat_frame a = None
  \/ (is_ccd a = true /\ bias_frame a = None)
  \/ (is_cmos a = true /\ flat_dark_frame a = None).

(** Reading any file, and writing one whose name ends in [_cal.fts]. *)
Definition is_load_or_cal_write (e : event) : Prop :=
  match e with
  | Load _ => True
  | Write p => exists stem, p = stem +:+ "_cal.fts"
  end.

End CcdCalib.

(* ------------------------------------------------------------------ *)
(** ** pyscope/telrun/schedtel.py                                      *)
(* ------------------------------------------------------------------ *)

Module Schedtel.

(** *** Data *)

(** Times are seconds on the UTC scale. *)
Definition time : Type := Z.
Bind Scope Z_scope with time.

Definition day : Z := 86400.

(** A table cell or configuration entry: a quantity with a unit (it has
    a [.value]), a plain number, or text. *)
Inductive cell : Type :=
| CQuantity (q : Q)
| CNum (q : Q)
| CStr (s : string).

#[global] Instance Q_eq_dec : EqDecision Q.
Proof. solve_decision. Defined.

#[global] Instance cell_eq_dec : EqDecision cell.
Proof. solve_decision. Defined.

(** An [astroplan.ObservingBlock]: target, duration, priority and the
    configuration dictionary (observer code, filter, proper motions,
    ...).  [ob_id] is the identity of the Python object. *)
Record ob : Type := {
  ob_id : nat;
  ob_target : string;
  ob_ra : Q;
  ob_dec : Q;
  ob_duration : Z;
  ob_priority : Q;
  ob_configuration : gmap string cell
}.

#[global] Instance ob_eq_dec : EqDecision ob.
Proof. solve_decision. Defined.

(** What a catalog list may hold: observing blocks and anything else. *)
Inductive item : Type :=
| IBlock (b : ob)
| IOther (id : nat).

#[global] Instance item_eq_dec : EqDecision item.
Proof. solve_decision. Defined.

(** [type(b) is astroplan.ObservingBlock] *)
Definition is_observing_block (i : item) : bool :=
  match i with
  | IBlock _ => true
  | IOther _ => false
  end.

(** One element of [blocks]: the blocks of one .sch file or one
    sub-sequence of a catalog list, a [list] or a [tuple]. *)
Record group : Type := {
  is_tuple : bool;
  items : list item
}.

Definition list_group (l : list item) : group :=
  {| is_tuple := false; items := l |}.

Inductive catalog_entry : Type :=
| EGroup (g : group)
| EItem (i : item).

(** The [catalog] argument. *)
Inductive catalog_arg : Type :=
| CatNone
| CatPath (p : string)
| CatList (l : list catalog_entry)
| CatOther.

(** Site parameters read from the observatory. *)
Record site : Type := {
  obs_long : Q;
  obs_lat : Q;
  obs_height : Q;
  slew_rate : Q;
  instrument_reconfiguration_times : string;
  instrument_name : string
}.

(** The [observatory] argument: nothing, the path of a configuration
    file, a pyscope [Observatory], an [astroplan.Observer] (whose class
    has a location but none of [slew_rate],
    [instrument_reconfiguration_times], [instrument_name] unless the
    caller set them on the instance), or another object. *)
Inductive observatory_arg : Type :=
| ObsNone
| ObsPath (p : string)
| ObsObservatory (s : site)
| ObsObserver (lon_deg lat_deg height_m : Q) (extra : option (Q * string * string))
| ObsOther.

(** The constraints of astroplan that the file builds, with the
    arguments it passes (angles in degrees). *)
Inductive constraint : Type :=
| AltitudeConstraint (min : Q)
| AtNightConstraint (max_solar_altitude : Q)
| AirmassConstraint (max : Q) (boolean_constraint : bool)
| MoonSeparationConstraint (min : Q).

(** [astroplan.Transitioner(slew_rate, instrument_reconfiguration_times=)] *)
Record transitioner_cfg : Type := {
  tr_slew_rate : Q;
  tr_reconfiguration_times : string
}.

(** [astroplan.Schedule]: a window and the slots that partition it.  A
    slot is free, holds an observing block, or holds a transition block
    (with the names of its components). *)
Inductive content : Type :=
| Unused
| Observing (b : ob)
| Transition (components : list string).

Record slot : Type := {
  slot_start : time;
  slot_end : time;
  slot_content : content
}.

Record schedule : Type := {
  start_time : time;
  end_time : time;
  slots : list slot
}.

(** [astroplan.Schedule(t0, t1)]: one free slot over the whole window. *)
Definition new_schedule (t0 t1 : time) : schedule :=
  {| start_time := t0; end_time := t1;
     slots := [ {| slot_start := t0; slot_end := t1; slot_content := Unused |} ] |}.

(** A row of the table made by [Schedule.to_table]; its columns are
    [target], [start time (UTC)], [end time (UTC)],
    [duration (minutes)], [ra], [dec], [configuration]. *)
Record row : Type := {
  target : string;
  start_utc : time;
  end_utc : time;
  duration_minutes : Q;
  ra : cell;
  dec : cell;
  configuration : gmap string cell
}.

Definition table : Type := list row.

(** The keyword arguments given to the scheduler class. *)
Record scheduler_cfg : Type := {
  sc_constraints : list constraint;
  sc_observer : site;
  sc_transitioner : transitioner_cfg;
  sc_gap_time : Q;
  sc_time_resolution : Py.value
}.

(** A scheduler instance is called with a group of blocks and the
    schedule, which it fills in place. *)
Definition handler : Type := group -> schedule -> Py.result schedule.

(** A class loaded from a user file. *)
Record scheduler_class : Type := {
  inherits_scheduler : bool;
  instantiate : scheduler_cfg -> Py.result handler
}.

Record date : Type := {
  year : Z;
  month : Z;
  day_of_month : Z
}.

(** A position returned by [astropy.coordinates.get_body]. *)
Record position : Type := {
  pos_ra : Q;
  pos_dec : Q;
  pos_obstime : time
}.

(** *** The world outside the module *)

Record world : Type := {
  (** [os.environ.get], [os.getcwd], [os.path.isfile], [os.path.isdir] *)
  environ : string -> option string;
  getcwd : string;
  isfile : string -> bool;
  isdir : string -> bool;
  (** [os.path.isfile] / [os.path.isdir] applied to an object that is
      not a path (a list, [None]) *)
  stat_non_path : Py.result bool;
  (** [open(p).read().splitlines()] *)
  read_lines : string -> Py.result (list string);
  (** [pyscope.telrun.sch.read] and [pyscope.telrun.validate_ob] *)
  sch_read : string -> Py.result group;
  validate_ob : item -> Py.result item;
  (** the observatory configuration file, through [configparser] *)
  read_config : string -> Py.result site;
  (** [timezonefinder], [zoneinfo], [datetime], [astropy.time] *)
  timezone_at : Py.value -> Py.value -> Py.result string;
  zone_info : string -> Py.result string;
  now : date;
  strptime : string -> Py.result date;
  noon : date -> string -> time;
  isot : time -> string;
  (** astroplan: the priority scheduler; a class from a user file *)
  priority_scheduler : scheduler_cfg -> handler;
  load_class : string -> string -> Py.result scheduler_class;
  plot_schedule_airmass : schedule -> Py.result nat;
  draw_gantt : schedule -> Py.result nat;
  (** [astroquery.mpc.MPC.get_ephemeris]: a table, column by column *)
  mpc_get_ephemeris : cell -> time -> Py.result (gmap string (list cell));
  (** [astropy.coordinates.get_body] and the proper motion computed
      from two positions *)
  get_body : cell -> time -> Py.result position;
  proper_motion : position -> position -> Q * Q;
  coord_to_string : Q -> string
}.

(** *** The function's arguments, result, effects *)

Record args : Type := {
  catalog : catalog_arg;
  ignore_order : bool;
  date_arg : option string;
  observatory : observatory_arg;
  max_altitude : Q;
  elevation : Q;
  airmass : Q;
  moon_separation : Q;
  scheduler : string * string;
  gap_time : Q;
  resolution : Q;
  filename : option string;
  telrun : bool;
  plot : option Z;
  quiet : bool;
  verbose : Z
}.

(** What [schedtel_cli] returns: [None] on the early exits, the table,
    or the table with the plot axes. *)
Inductive returned : Type :=
| RNone
| RTable (t : table)
| RTablePlot (t : table) (ax : nat).

Inductive event : Type :=
| LogError (what : string)
| LogWarning (what : string)
| NewSchedule (t0 t1 : time)
| CallScheduler (g : group)
| MpcLookup (name : cell) (at_time : time)
| GetBody (name : cell) (at_time : time)
| WriteTable (path : string) (t : table).

(** The state is the schedule table, the one object the function
    updates in place after creating it. *)
Definition M (A : Type) : Type := @Py.M table event returned A.

(** *** Names *)

(** The namespace of the module: what its [import] statements and
    top-level definitions bind (lines 1-26 and 830-832). *)
Definition module_names : list string :=
  [ "configparser"; "datetime"; "json"; "logging"; "os"; "shlex";
    "astroplan"; "click"; "ccm"; "mdates"; "plt"; "pytz"; "smplotlib";
    "timezonefinder"; "coord"; "astrotime"; "u"; "mpc"; "ticker";
    "utils"; "Observatory"; "sch"; "validate_ob"; "logger";
    "schedtel_cli"; "plot_schedule_gantt_cli"; "plot_schedule_sky_cli";
    "schedtel"; "plot_schedule_gantt"; "plot_schedule_sky" ].

(** Names that [schedtel_cli] binds itself: its parameters and the
    targets of its assignments, [for] and [except] clauses. *)
Definition local_names : list string :=
  [ "catalog"; "ignore_order"; "date"; "observatory"; "max_altitude";
    "elevation"; "airmass"; "moon_separation"; "scheduler"; "gap_time";
    "resolution"; "filename"; "telrun"; "plot"; "quiet"; "verbose";
    "level"; "blocks"; "f"; "sch_files"; "e"; "block"; "b"; "obs_cfg";
    "obs_long"; "obs_lat"; "obs_height"; "slew_rate";
    "instrument_reconfiguration_times"; "instrument_name";
    "global_constraints"; "transitioner"; "tz"; "t0"; "t1"; "schedule";
    "schedule_handler"; "spec"; "module"; "schedule_handler_class"; "i";
    "schedule_table"; "row"; "ephemerides"; "e1"; "e2"; "pos_l"; "pos_m";
    "pos_h"; "first_time"; "path"; "ax" ].

(** Reading a name that the function does not bind: a global. *)
Definition global (x : string) : M Py.value :=
  Py.lookup_global module_names x.

(** *** The phases of [schedtel_cli] *)

Section Run.
Variable w : world.

(** Lines 203-211: [level] is bound on four of the branches only. *)
Definition configure_logging (a : args) : M unit :=
  if quiet a then Py.ret tt
  else if (verbose a =? 0)%Z then Py.ret tt
  else if (verbose a =? 1)%Z then Py.ret tt
  else if (2 <=? verbose a)%Z then Py.ret tt
  else Py.raise (Py.UnboundLocalError "level").

(** [os.environ.get("OBSERVATORY_HOME") + suffix]; when the variable is
    unset the sum raises, and the bare [except] takes the working
    directory (lines 234-243 and 310-319). *)
Definition home_or_cwd (under_home under_cwd : string) : string :=
  match environ w "OBSERVATORY_HOME" with
  | Some home => home +:+ under_home
  | None => getcwd w +:+ under_cwd
  end.

Definition endswith (s suffix : string) : bool :=
  String.prefix (String.rev suffix) (String.rev s).

(** Lines 250-262: one line of a .cat file. *)
Definition read_catalog_file (blocks : list group) (f : string) : M (list group) :=
  if negb (isfile w f) then
    Py.emit (LogError "file in catalog does not exist, skipping") ;;
    Py.ret blocks
  else
    Py.try_except
      (g <- Py.lift (sch_read w f) ;; Py.ret (blocks ++ [g]))
      (fun _ =>
         Py.emit (LogError "file in catalog is not a valid .sch file, skipping") ;;
         Py.ret blocks).

(** Lines 272-287: one element of a catalog list.  The inner loop over
    a sub-sequence reports what is not an observing block and then
    appends the sub-sequence as it is. *)
Definition read_catalog_entry (blocks : list group) (entry : catalog_entry)
  : M (list group) :=
  match entry with
  | EGroup g =>
      Py.for_each (items g)
        (fun b =>
           if is_observing_block b then Py.ret tt
           else Py.emit (LogError "object is not an astroplan.ObservingBlock, skipping")) ;;
      Py.ret (blocks ++ [g])
  | EItem (IBlock b) => Py.ret (blocks ++ [list_group [IBlock b]])
  | EItem (IOther _) =>
      Py.emit (LogError "object is not an astroplan.ObservingBlock, skipping") ;;
      Py.ret blocks
  end.

(** Lines 231-290. *)
Definition ingest (c : catalog_arg) : M (list group) :=
  let c1 := match c with
            | CatNone => CatPath (home_or_cwd "/schedules/schedule.cat" "/schedule.cat")
            | _ => c
            end in
  is_file <- match c1 with
             | CatPath p => Py.ret (isfile w p)
             | _ => Py.lift (stat_non_path w)
             end ;;
  if is_file then
    match c1 with
    | CatPath p =>
        if endswith p ".cat" then
          sch_files <- Py.lift (read_lines w p) ;;
          Py.for_fold sch_files [] read_catalog_file
        else if endswith p ".sch" then
          Py.try_except
            (g <- Py.lift (sch_read w p) ;; Py.ret [g])
            (fun _ =>
               Py.emit (LogError "file is not a valid .sch file") ;;
               Py.returning RNone)
        else Py.ret []
    | _ => Py.raise (Py.AttributeError "endswith")
    end
  else
    match c1 with
    | CatList l => Py.for_fold l [] read_catalog_entry
    | _ =>
        Py.emit (LogError "catalog is not a valid file or list") ;;
        Py.returning RNone
    end.

(** Lines 293-300: [for b in block] visits positions 0, 1, 2, ... of
    the list as it is at each step, while the [except] clause removes
    elements from that same list; [remove] exists on lists only.
    [fuel] bounds the number of steps. *)
Fixpoint validate_from (fuel : nat) (g : group) (i : nat) : M group :=
  match fuel with
  | O => Py.ret g
  | S fuel' =>
      match items g !! i with
      | None => Py.ret g
      | Some b =>
          match validate_ob w b with
          | Py.Success _ => validate_from fuel' g (S i)
          | Py.Failure _ =>
              Py.emit (LogError "not a valid ObservingBlock, removing from schedule") ;;
              if is_tuple g then Py.raise (Py.AttributeError "remove")
              else validate_from fuel' (list_group (Py.remove_first b (items g))) (S i)
          end
      end
  end.

Definition validate_group (g : group) : M group :=
  validate_from (length (items g)) g 0.

(** Lines 292-300. *)
Definition validate_blocks (blocks : list group) : M (list group) :=
  Py.for_fold blocks []
    (fun validated g => g' <- validate_group g ;; Py.ret (validated ++ [g'])).

(** Lines 302-306. *)
Definition flatten (blocks : list group) : list group :=
  [ list_group (concat (items <$> blocks)) ].

(** Lines 308-360. *)
Definition parse_observatory (o : observatory_arg) : M site :=
  let o1 := match o with
            | ObsNone => ObsPath (home_or_cwd "/config/observatory.cfg" "/observatory.cfg")
            | _ => o
            end in
  match o1 with
  | ObsPath p => Py.lift (read_config w p)
  | ObsObservatory s => Py.ret s
  | ObsObserver lon_deg lat_deg height_m extra =>
      match extra with
      | Some (rate, times, name) =>
          Py.ret {| obs_long := lon_deg; obs_lat := lat_deg; obs_height := height_m;
                    slew_rate := rate; instrument_reconfiguration_times := times;
                    instrument_name := name |}
      | None => Py.raise (Py.AttributeError "slew_rate")
      end
  | _ =>
      Py.emit (LogError "Observatory must be a string, Observatory or astroplan.Observer") ;;
      Py.returning RNone
  end.

(** Lines 362-369. *)
Definition global_constraints (a : args) : list constraint :=
  [ AltitudeConstraint (elevation a);
    AtNightConstraint (max_altitude a);
    AirmassConstraint (airmass a) false;
    MoonSeparationConstraint (moon_separation a) ].

(** Lines 371-375. *)
Definition transitioner (s : site) : transitioner_cfg :=
  {| tr_slew_rate := slew_rate s;
     tr_reconfiguration_times := instrument_reconfiguration_times s |}.

(** Lines 378-379.  [TimezoneFinder()] is built first (taken to
    succeed), then the arguments of [timezone_at] are evaluated left to
    right. *)
Definition timezone : M string :=
  lon <- global "lon" ;;
  lng <- Py.lift (Py.getattr lon "deg") ;;
  lat <- global "lat" ;;
  latitude <- Py.lift (Py.getattr lat "deg") ;;
  tz <- Py.lift (timezone_at w lng latitude) ;;
  zoneinfo <- global "zoneinfo" ;;
  _ <- Py.lift (Py.getattr zoneinfo "ZoneInfo") ;;
  Py.lift (zone_info w tz).

(** Lines 382-394: the window runs from local noon of the date to noon
    of the next day. *)
Definition night_window (d : option string) (tz : string) : M (time * time) :=
  date <- match d with
          | None => Py.ret (now w)
          | Some text => Py.lift (strptime w text)
          end ;;
  let t0 := noon w date tz in
  let t1 := (t0 + day)%Z in
  Py.lift (Py.percent_format "Schedule time range: %s to %s" 2) ;;
  Py.ret (t0, t1).

Definition scheduler_config (a : args) (s : site) (time_resolution : Py.value)
  : scheduler_cfg :=
  {| sc_constraints := global_constraints a;
     sc_observer := s;
     sc_transitioner := transitioner s;
     sc_gap_time := gap_time a;
     sc_time_resolution := time_resolution |}.

(** Lines 398-427. *)
Definition make_scheduler (a : args) (s : site) : M handler :=
  if String.eqb (scheduler a).1 "" then
    time_resolution <- global "time_resolution" ;;
    Py.ret (priority_scheduler w (scheduler_config a s time_resolution))
  else
    _ <- global "importlib" ;;
    cls <- Py.lift (load_class w (scheduler a).1 (scheduler a).2) ;;
    if negb (inherits_scheduler cls) then
      Py.emit (LogError "scheduler does not inherit from astroplan.Scheduler") ;;
      Py.returning RNone
    else
      time_resolution <- global "time_resolution" ;;
      Py.lift (instantiate cls (scheduler_config a s time_resolution)).

(** Lines 429-432.  The argument of [logger.debug] is the value of
    ["Block group %i of i" % (i + 1, len(blocks))], computed before the
    call whatever the logging level: one conversion for two values, so
    [%] raises and the scheduler of line 432 is not reached. *)
Definition schedule_blocks (schedule_handler : handler) (blocks : list group)
    (s : schedule) : M schedule :=
  Py.for_fold blocks s
    (fun s g =>
       Py.lift (Py.percent_format "Block group %i of i" 2) ;;
       Py.emit (CallScheduler g) ;;
       Py.lift (schedule_handler g s)).

(** [Schedule.to_table(show_transitions, show_unused)] of astroplan: one
    row per slot, in slot order.  A slot with an observing block always
    gives a row; a transition slot only with [show_transitions], a free
    slot only with [show_unused]. *)
Definition block_row (sl : slot) (b : ob) : row :=
  {| target := ob_target b;
     start_utc := slot_start sl;
     end_utc := slot_end sl;
     duration_minutes := (inject_Z (slot_end sl - slot_start sl) / 60)%Q;
     ra := CQuantity (ob_ra b);
     dec := CQuantity (ob_dec b);
     configuration := ob_configuration b |}.

Definition filler_row (sl : slot) (name : string) (cfg : gmap string cell) : row :=
  {| target := name;
     start_utc := slot_start sl;
     end_utc := slot_end sl;
     duration_minutes := (inject_Z (slot_end sl - slot_start sl) / 60)%Q;
     ra := CStr "";
     dec := CStr "";
     configuration := cfg |}.

Definition slot_row (show_transitions show_unused : bool) (sl : slot) : option row :=
  match slot_content sl with
  | Observing b => Some (block_row sl b)
  | Transition components =>
      if show_transitions then
        Some (filler_row sl "TransitionBlock"
                (list_to_map ((fun c => (c, CStr "")) <$>
                   filter (fun c => c <> "slew_time") components)))
      else None
  | Unused =>
      if show_unused then Some (filler_row sl "Unused Time" ∅) else None
  end.

Definition to_table (show_transitions show_unused : bool) (s : schedule) : table :=
  omap (slot_row show_transitions show_unused) (slots s).

(** [row[col]] *)
Definition row_get (r : row) (col : string) : Py.result cell :=
  if String.eqb col "target" then Py.Success (CStr (target r))
  else if String.eqb col "start time (UTC)" then Py.Success (CNum (inject_Z (start_utc r)))
  else if String.eqb col "end time (UTC)" then Py.Success (CNum (inject_Z (end_utc r)))
  else if String.eqb col "duration (minutes)" then Py.Success (CNum (duration_minutes r))
  else if String.eqb col "ra" then Py.Success (ra r)
  else if String.eqb col "dec" then Py.Success (dec r)
  else Py.Failure (Py.KeyError col).

Definition set_ra (v : cell) (r : row) : row :=
  {| target := target r; start_utc := start_utc r; end_utc := end_utc r;
     duration_minutes := duration_minutes r; ra := v; dec := dec r;
     configuration := configuration r |}.

Definition set_dec (v : cell) (r : row) : row :=
  {| target := target r; start_utc := start_utc r; end_utc := end_utc r;
     duration_minutes := duration_minutes r; ra := ra r; dec := v;
     configuration := configuration r |}.

Definition set_config (k : string) (v : cell) (r : row) : row :=
  {| target := target r; start_utc := start_utc r; end_utc := end_utc r;
     duration_minutes := duration_minutes r; ra := ra r; dec := dec r;
     configuration := <[k := v]> (configuration r) |}.

(** [row["configuration"][k].value] *)
Definition config_value (r : row) (k : string) : Py.result Q :=
  match configuration r !! k with
  | None => Py.Failure (Py.KeyError k)
  | Some (CQuantity q) => Py.Success q
  | Some _ => Py.Failure (Py.AttributeError "value")
  end.

(** The test of lines 439-442 on a row: a non-zero proper motion in
    either coordinate ([or] evaluates its right operand only when the
    left one is false). *)
Definition moving (r : row) : Py.result bool :=
  match config_value r "pm_ra_cosdec" with
  | Py.Failure e => Py.Failure e
  | Py.Success pm_ra =>
      if negb (Qeq_bool pm_ra 0) then Py.Success true
      else
        match config_value r "pm_dec" with
        | Py.Failure e => Py.Failure e
        | Py.Success pm_dec => Py.Success (negb (Qeq_bool pm_dec 0))
        end
  end.

(** [ephemerides[col][0]] *)
Definition first_of (eph : gmap string (list cell)) (col : string) : Py.result cell :=
  match eph !! col with
  | None => Py.Failure (Py.KeyError col)
  | Some l => Py.index l 0
  end.

(** [v * u.arcsec / u.hour] *)
Definition to_quantity (v : cell) : Py.result cell :=
  match v with
  | CQuantity q => Py.Success (CQuantity q)
  | CNum q => Py.Success (CQuantity q)
  | CStr _ => Py.Failure Py.TypeError
  end.

(** The i-th row of the schedule table, which is updated in place. *)
Definition get_row (i : nat) : M row :=
  t <- Py.get ;;
  Py.lift (Py.index t i).

Definition modify_row (i : nat) (f : row -> row) : M unit :=
  t <- Py.get ;;
  Py.put (alter f i t).

(** Lines 439-442: [pm_ra_cosdec.value != 0 or pm_dec.value != 0]. *)
Definition is_moving (r : row) : M bool :=
  Py.lift (moving r).

(** Lines 445-459: the body of the outer [try]. *)
Definition update_from_mpc (i : nat) : M unit :=
  r <- get_row i ;;
  name <- Py.lift (row_get r "name") ;;
  Py.emit (MpcLookup name (start_utc r)) ;;
  ephemerides <- Py.lift (mpc_get_ephemeris w name (start_utc r)) ;;
  v <- Py.lift (first_of ephemerides "RA") ;;
  modify_row i (set_ra v) ;;
  v <- Py.lift (first_of ephemerides "Dec") ;;
  modify_row i (set_dec v) ;;
  v <- Py.lift (first_of ephemerides "dRA cos(Dec)") ;;
  q <- Py.lift (to_quantity v) ;;
  modify_row i (set_config "pm_ra_cosdec" q) ;;
  v <- Py.lift (first_of ephemerides "dDec") ;;
  q <- Py.lift (to_quantity v) ;;
  modify_row i (set_config "pm_dec" q).

(** The text of the two warnings (lines 463 and 492) is an f-string
    over [row['name']], [line_number] and the exception. *)
Definition format_warning (r : row) : M unit :=
  _ <- Py.lift (row_get r "name") ;;
  _ <- global "line_number" ;;
  Py.ret tt.

(** Lines 461-489: the inner [try], entered when the outer one raised. *)
Definition update_from_get_body (i : nat) (e1 : Py.exn) : M unit :=
  r <- get_row i ;;
  format_warning r ;;
  Py.emit (LogWarning "trying astropy.coordinates.get_body") ;;
  name <- Py.lift (row_get r "name") ;;
  Py.emit (GetBody name (start_utc r - 600)%Z) ;;
  pos_l <- Py.lift (get_body w name (start_utc r - 600)%Z) ;;
  name <- Py.lift (row_get r "name") ;;
  _ <- global "location" ;;
  Py.emit (GetBody name (start_utc r)) ;;
  pos_m <- Py.lift (get_body w name (start_utc r)) ;;
  name <- Py.lift (row_get r "name") ;;
  Py.emit (GetBody name (start_utc r + 600)%Z) ;;
  pos_h <- Py.lift (get_body w name (start_utc r + 600)%Z) ;;
  modify_row i (set_ra (CStr (coord_to_string w (pos_ra pos_m)))) ;;
  modify_row i (set_dec (CStr (coord_to_string w (pos_dec pos_m)))) ;;
  _ <- global "np" ;;
  let pm := proper_motion w pos_l pos_h in
  modify_row i (set_config "pm_ra_cosdec" (CQuantity pm.1)) ;;
  modify_row i (set_config "pm_dec" (CQuantity pm.2)).

(** Lines 490-493: the last handler only warns. *)
Definition keep_old_ephemerides (i : nat) (e2 : Py.exn) : M unit :=
  r <- get_row i ;;
  format_warning r ;;
  Py.emit (LogWarning "keeping old ephemerides").

(** Lines 438-493, one row. *)
Definition update_row (i : nat) : M unit :=
  r <- get_row i ;;
  moving <- is_moving r ;;
  if moving then
    Py.try_except (update_from_mpc i)
      (fun e1 => Py.try_except (update_from_get_body i e1) (keep_old_ephemerides i))
  else Py.ret tt.

(** Lines 437-493. *)
Definition update_ephemerides : M unit :=
  t <- Py.get ;;
  Py.for_each (seq 0 (length t)) update_row.

(** Lines 497-501. *)
Definition output_filename (a : args) : M string :=
  match filename a, telrun a with
  | Some f, false => Py.ret f
  | _, _ =>
      t <- Py.get ;;
      first <- Py.lift (Py.index t 0) ;;
      Py.ret ("telrun_" +:+ isot w (start_utc first) +:+ ".ecsv")
  end.

(** Lines 503-530.  [os.environ.get] gives [None] for an unset
    variable and the two statements of the [try] cannot raise, so the
    [except] clauses of lines 510-522 never run. *)
Definition output_path (a : args) : M (option string) :=
  if telrun a then
    let path := environ w "TELRUN_EXECUTE" in
    is_dir <- match path with
              | Some p => Py.ret (isdir w p)
              | None => Py.lift (stat_non_path w)
              end ;;
    if negb is_dir then
      Py.emit (LogWarning "path does not exist, writing to current working directory") ;;
      Py.ret (Some (getcwd w +:+ "/"))
    else Py.ret path
  else Py.ret (Some (getcwd w +:+ "/")).

(** Lines 495-531. *)
Definition write_table (a : args) : M unit :=
  name <- output_filename a ;;
  path <- output_path a ;;
  match path with
  | Some p =>
      t <- Py.get ;;
      Py.emit (WriteTable (p +:+ name) t)
  | None => Py.raise Py.TypeError
  end.

(** [plot_schedule_gantt(schedule_table, observatory)], lines 569-732:
    its first statement reads [table.Table]. *)
Definition plot_schedule_gantt (s : schedule) : M nat :=
  tbl <- global "table" ;;
  _ <- Py.lift (Py.getattr tbl "Table") ;;
  Py.lift (draw_gantt w s).

(** [plot_schedule_sky()], lines 749-827: it takes no parameter (line
    547 calls it with two arguments) and its body starts by reading
    [schedule_table], which neither it nor the module binds. *)
Definition plot_schedule_sky (nargs : nat) : M nat :=
  if (nargs =? 0)%nat then
    t <- global "schedule_table" ;;
    _ <- Py.lift (Py.getattr t "__len__") ;;
    Py.raise (Py.UnboundLocalError "ax")
  else Py.raise Py.TypeError.

(** Lines 533-552. *)
Definition plot_and_return (a : args) (s : schedule) : M unit :=
  t <- Py.get ;;
  match plot a with
  | Some 1%Z => ax <- plot_schedule_gantt s ;; Py.returning (RTablePlot t ax)
  | Some 2%Z => ax <- Py.lift (plot_schedule_airmass w s) ;; Py.returning (RTablePlot t ax)
  | Some 3%Z => ax <- plot_schedule_sky 2 ;; Py.returning (RTablePlot t ax)
  | _ => Py.returning (RTable t)
  end.

(** Lines 202-375: everything before the time zone is computed. *)
Definition front_end (a : args) : M (list group * site) :=
  configure_logging a ;;
  blocks <- ingest (catalog a) ;;
  blocks <- validate_blocks blocks ;;
  let blocks := if ignore_order a then flatten blocks else blocks in
  obs <- parse_observatory (observatory a) ;;
  Py.ret (blocks, obs).

(** Lines 377-552: from the time zone to the return. *)
Definition back_end (a : args) (blocks : list group) (obs : site) : M unit :=
  tz <- timezone ;;
  window <- night_window (date_arg a) tz ;;
  Py.emit (NewSchedule window.1 window.2) ;;
  let schedule := new_schedule window.1 window.2 in
  schedule_handler <- make_scheduler a obs ;;
  schedule <- schedule_blocks schedule_handler blocks schedule ;;
  Py.put (to_table false false schedule) ;;
  update_ephemerides ;;
  write_table a ;;
  plot_and_return a schedule.

(** [schedtel_cli], whose callback is exported as [schedtel]. *)
Definition schedtel_cli (a : args) : M unit :=
  front <- front_end a ;;
  back_end a front.1 front.2.

End Run.

(** *** Vocabulary of the properties *)

(** Events that only report. *)
Definition is_log (e : event) : Prop :=
  match e with
  | LogError _ | LogWarning _ => True
  | _ => False
  end.

(** A run that hands no table back: it returned [None] or raised. *)
Definition no_table (o : Py.outcome returned unit) : Prop :=
  match o with
  | Py.Returned RNone => True
  | Py.Raised _ => True
  | _ => False
  end.

(** The slots cover [t0, t1] end to end: the first starts at [t0], each
    next one starts where the previous one ends, the last ends at [t1]. *)
Fixpoint tiles (t0 t1 : time) (l : list slot) : Prop :=
  match l with
  | [] => t0 = t1
  | sl :: l' => slot_start sl = t0 /\ tiles (slot_end sl) t1 l'
  end.

Definition covers_window (s : schedule) : Prop :=
  tiles (start_time s) (end_time s) (slots s).

(** What was allocated: who, from when, until when. *)
Definition allocation : Type := string * time * time.

Definition row_allocation (r : row) : allocation :=
  (target r, start_utc r, end_utc r).

(** The allocations of a schedule that hold an observing block, in
    slot order. *)
Definition observed (s : schedule) : list (slot * ob) :=
  omap (fun sl => match slot_content sl with
                  | Observing b => Some (sl, b)
                  | _ => None
                  end) (slots s).

Definition slot_span (sl : slot) : time * time :=
  (slot_start sl, slot_end sl).

Definition row_span (r : row) : time * time :=
  (start_utc r, end_utc r).

(** What one line of a .cat file stands for: the blocks of the file it
    names, when that file exists and can be read. *)
Definition catalog_line (w : world) (f : string) : option group :=
  if isfile w f then
    match sch_read w f with
    | Py.Success g => Some g
    | Py.Failure _ => None
    end
  else None.

(** The block passes [validate_ob]. *)
Definition passes (w : world) (b : item) : Prop :=
  exists b', validate_ob w b = Py.Success b'.

Definition fails (w : world) (b : item) : Prop :=
  exists e, validate_ob w b = Py.Failure e.

(** The number of blocks in a batch. *)
Definition block_count (blocks : list group) : nat :=
  sum_list (length <$> (items <$> blocks)).

(** The logging options let [schedtel_cli] pick a level. *)
Definition level_chosen (a : args) : bool :=
  quiet a || (0 <=? verbose a)%Z.

End Schedtel.

(* ------------------------------------------------------------------ *)
(** ** The scheduling core of pyscope.telrun, modelled from the design  *)
(* ------------------------------------------------------------------ *)

Module Core.

Local Open Scope Z_scope.

(** Times are seconds, as in [Schedtel]. *)
Definition time : Type := Z.

(** Modelled from the spec: the position that the ephemeris service
    answers with (section 6, [AltAz]); the service itself is not in the
    sources.  Angles are degrees. *)
Record altaz : Type := {
  alt : Q;
  az : Q
}.

(** Modelled from the spec: the two external services of section 6 that
    the core consumes, at the location of the run -- the ephemeris
    service ([position], [sun_position], [moon_position], [airmass]) and
    the transition-cost service ([cost(from_config, to_config,
    from_target, to_target)]).  They are pure functions of their
    arguments; a lookup that fails or is undefined answers [None]. *)
Record services : Type := {
  target_position : string -> time -> option altaz;
  sun_position : time -> option altaz;
  moon_position : time -> option altaz;
  airmass_at : Q -> option Q;
  angular_separation : altaz -> altaz -> Q;
  cost : string -> string -> string -> string -> Z
}.

(** Modelled from the spec: [ConditionResult] of section 4.1, what a
    Condition of the missing modules answers: whether it is satisfied,
    and a score between 0 and 1. *)
Record condition_result : Type := {
  satisfied : bool;
  score : Q
}.

(** Modelled from the spec: a Condition (sections 3 and 4.1, module
    [pyscope.telrun.boundary_condition] and its variants, which
    [__init__.py] imports and the sources do not hold) as its one
    capability, [evaluate(time, location, target)], a pure function
    given the ephemeris service; a TimeCondition also has the lower
    bound of its window, which the Queue ranks by. *)
Record condition : Type := {
  evaluate : services -> time -> string -> condition_result;
  lower_bound : option time
}.

(** Modelled from the spec: a purely boolean condition scores 0 or 1
    (section 4.1). *)
Definition boolean_result (b : bool) : condition_result :=
  {| satisfied := b; score := if b then 1%Q else 0%Q |}.

(** Modelled from the spec: TimeCondition, an absolute window
    (section 3). *)
Definition TimeCondition (lower upper : time) : condition :=
  {| evaluate := fun _ t _ => boolean_result ((lower <=? t) && (t <=? upper));
     lower_bound := Some lower |}.

(** Modelled from the spec: AirmassCondition with a maximum
    (sections 3 and 8); a lookup that fails yields [satisfied = False]
    (section 4.1). *)
Definition AirmassCondition (max : Q) : condition :=
  {| evaluate := fun svc t target =>
       match target_position svc target t with
       | Some p =>
           match airmass_at svc (alt p) with
           | Some x => boolean_result (Qle_bool x max)
           | None => boolean_result false
           end
       | None => boolean_result false
       end;
     lower_bound := None |}.

(** Modelled from the spec: a Block (sections 3 and 4.3, module
    [pyscope.telrun.schedule_block], not in the sources) -- its unique
    id, its owner, its Field kept as the target, the configuration and
    [total_duration()], its Conditions and its priority. *)
Record block : Type := {
  block_id : nat;
  owner : string;
  target : string;
  configuration : string;
  total_duration : Z;
  conditions : list condition;
  priority : Q
}.

(** Modelled from the spec: the priority of a Block is updated by the
    Prioritizer only (section 4.3). *)
Definition with_priority (b : block) (p : Q) : block :=
  {| block_id := block_id b; owner := owner b; target := target b;
     configuration := configuration b; total_duration := total_duration b;
     conditions := conditions b; priority := p |}.

(** Modelled from the spec: [Block.is_feasible(time, location)], the
    AND over the Conditions of the Block at the candidate time, against
    the target of its Field (section 4.3). *)
Definition is_feasible (svc : services) (b : block) (t : time) : bool :=
  forallb (fun c => satisfied (evaluate c svc t (target b))) (conditions b).

(** Modelled from the spec: the arithmetic mean of the Condition
    scores, the default weighting of section 4.3; a Block without
    Conditions has nothing that lowers its score. *)
Definition mean (l : list Q) : Q :=
  match l with
  | [] => 1%Q
  | _ => (foldr Qplus 0%Q l / inject_Z (Z.of_nat (length l)))%Q
  end.

(** Modelled from the spec: [Block.score(time, location)] = priority
    times the mean of the Condition scores (section 4.3). *)
Definition block_score (svc : services) (b : block) (t : time) : Q :=
  (priority b * mean ((fun c => score (evaluate c svc t (target b))) <$> conditions b))%Q.

(** Modelled from the spec: what an entry of a Schedule holds
    (section 3; modules [schedule_block], [transition_field] and
    [unallocated_block] of pyscope.telrun, not in the sources): a
    scheduled Block, a TransitionField synthesized by the scheduler
    between two Blocks (section 4.2), or an UnallocatedBlock, which
    carries only its start and end. *)
Inductive allocation : Type :=
| Scheduled (b : block)
| TransitionField (from to : block)
| UnallocatedBlock.

(** Modelled from the spec: one (Block, start, end) tuple of a
    Schedule (section 3). *)
Record entry : Type := {
  what : allocation;
  entry_start : time;
  entry_end : time
}.

(** Modelled from the spec: a Schedule, the ordered sequence of
    (Block, start, end) tuples (section 3, module
    [pyscope.telrun.schedule], not in the sources). *)
Notation schedule := (list entry) (only parsing).

(** Modelled from the spec: the context of the Prioritizer
    (section 4.5): the cursor and what each project has accrued, kept
    as the entries placed so far. *)
Record context : Type := {
  ctx_cursor : time;
  ctx_placed : schedule
}.

(** Modelled from the spec: the transition cost between the last
    placed Block and a candidate (sections 4.2 and 6); nothing is
    charged before the first placement, and a TransitionField exists
    only for a cost above zero (section 4.7, step 5). *)
Definition transition_cost (svc : services) (last : option block) (b : block) : Z :=
  match last with
  | None => 0
  | Some l => Z.max 0 (cost svc (configuration l) (configuration b) (target l) (target b))
  end.

(** Modelled from the spec: the site-wide global Conditions of
    section 4.7, step 3.  They are the four constraints that
    [schedtel] builds (lines 362-369 of schedtel.py): a minimum
    elevation of the target, a ceiling on the altitude of the Sun, a
    maximum airmass, a minimum separation from the Moon; a lookup that
    fails is treated as infeasible (section 6). *)
Definition holds (svc : services) (c : Schedtel.constraint) (tgt : string) (t : time)
  : bool :=
  match c with
  | Schedtel.AltitudeConstraint min =>
      match target_position svc tgt t with
      | Some p => Qle_bool min (alt p)
      | None => false
      end
  | Schedtel.AtNightConstraint max_solar_altitude =>
      match sun_position svc t with
      | Some p => Qle_bool (alt p) max_solar_altitude
      | None => false
      end
  | Schedtel.AirmassConstraint max _ =>
      match target_position svc tgt t with
      | Some p =>
          match airmass_at svc (alt p) with
          | Some x => Qle_bool x max
          | None => false
          end
      | None => false
      end
  | Schedtel.MoonSeparationConstraint min =>
      match target_position svc tgt t, moon_position svc t with
      | Some p, Some m => Qle_bool min (angular_separation svc p m)
      | _, _ => false
      end
  end.

(** Modelled from the spec: a candidate passes the global Conditions
    at a time when every one of them holds for its target
    (section 4.7, step 3). *)
Definition passes_global (svc : services) (global : list Schedtel.constraint)
    (b : block) (t : time) : bool :=
  forallb (fun c => holds svc c (target b) t) global.

(** *** Queue *)

Module Queue.

(** Modelled from the spec: the Queue (sections 3 and 4.4, module
    [pyscope.telrun.queue], not in the sources), an ordered-by-insertion
    mapping from Block id to Block: the Blocks in insertion order. *)
Notation t := (list block) (only parsing).

(** Modelled from the spec: the failure of [add] (section 4.4). *)
Inductive error : Type :=
| DuplicateID (id : nat).

(** Modelled from the spec: [add(block)] fails with DuplicateID if the
    id is already present (section 4.4). *)
Definition add (q : t) (b : block) : t + error :=
  if bool_decide (block_id b ∈ block_id <$> q) then inr (DuplicateID (block_id b))
  else inl (q ++ [b]).

(** Modelled from the spec: [remove(id)] is a no-op-safe delete
    (section 4.4). *)
Definition remove (q : t) (id : nat) : t :=
  filter (fun b => block_id b <> id) q.

(** Modelled from the spec: the earlier of two lower bounds, where a
    Condition that is no TimeCondition has none. *)
Definition earlier (x y : option time) : option time :=
  match x, y with
  | Some a, Some b => Some (Z.min a b)
  | Some a, None => Some a
  | None, _ => y
  end.

(** Modelled from the spec: the earliest TimeCondition lower bound of a
    Block, the first tie-break of [snapshot] (section 4.4). *)
Definition earliest (b : block) : option time :=
  foldr earlier None (lower_bound <$> conditions b).

(** Modelled from the spec: a bound is earlier than a later bound, and
    than no bound at all. *)
Definition bound_before (x y : option time) : bool :=
  match x, y with
  | Some a, Some b => a <? b
  | Some _, None => true
  | None, _ => false
  end.

(** Modelled from the spec: the order of [snapshot(ranking_fn)] before
    insertion order comes in: [ranking_fn] descending, ties broken by
    the earliest TimeCondition lower bound (section 4.4). *)
Definition ranks_before (ranking_fn : block -> Q) (a b : block) : bool :=
  match (ranking_fn a ?= ranking_fn b)%Q with
  | Gt => true
  | Lt => false
  | Eq => bound_before (earliest a) (earliest b)
  end.

(** Modelled from the spec: the place of a Block in a snapshot of the
    Blocks inserted into the Queue after it: behind those that rank
    before it, ahead of the others (section 4.4, ties broken by
    insertion order). *)
Fixpoint insert (ranking_fn : block -> Q) (x : block) (l : list block) : list block :=
  match l with
  | [] => [x]
  | y :: l' =>
      if ranks_before ranking_fn y x then y :: insert ranking_fn x l'
      else x :: y :: l'
  end.

(** Modelled from the spec: [snapshot(ranking_fn)] of section 4.4, the
    Pending Blocks sorted by [ranking_fn] descending, ties broken by
    the earliest TimeCondition lower bound, then by insertion order: a
    stable insertion sort. *)
Fixpoint snapshot (ranking_fn : block -> Q) (pending : t) : list block :=
  match pending with
  | [] => []
  | x :: rest => insert ranking_fn x (snapshot ranking_fn rest)
  end.

End Queue.

(** *** The input of a run *)

(** Modelled from the spec: what the caller supplies to a scheduling
    run (section 2): the Queue, the night window, the tick of the
    Optimizer (section 4.6) and the site-wide global Conditions
    (section 4.7). *)
Record run_input : Type := {
  queue : Queue.t;
  window_start : time;
  window_end : time;
  tick : Z;
  global_conditions : list Schedtel.constraint
}.

(** *** Optimizer *)

(** Modelled from the spec: the probe times of the Optimizer, one per
    tick from a time up to a limit (section 4.6, time-quantized
    feasibility probing). *)
Definition probe_times (from upto step : Z) : list time :=
  (fun k : nat => from + Z.of_nat k * step) <$> seq 0 (Z.to_nat ((upto - from) / step + 1)).

(** Modelled from the spec: the span that a candidate would take when
    placed at [t]: the transition from the last Block, then the Block
    (section 4.6). *)
Definition span_end (svc : services) (last : option block) (b : block) (t : time) : time :=
  t + transition_cost svc last b + total_duration b.

(** Modelled from the spec: a candidate can be placed at [t] when it is
    feasible for the entire span, probed tick by tick, and the span
    ends before the window closes (section 4.6); a Schedule spans the
    window and no more (section 3). *)
Definition eligible (svc : services) (inp : run_input) (last : option block)
    (t : time) (b : block) : bool :=
  (span_end svc last b t <=? window_end inp)
  && forallb (is_feasible svc b) (probe_times t (span_end svc last b t) (tick inp)).

Module Optimizer.

(** Modelled from the spec: the candidate that maximizes the score;
    among equal scores the first in the ranked order of the candidates
    wins (section 4.6; module [pyscope.telrun.optimizer], not in the
    sources). *)
Fixpoint best_of (score : block -> Q) (l : list block) : option block :=
  match l with
  | [] => None
  | b :: l' =>
      match best_of score l' with
      | Some b' =>
          match (score b ?= score b')%Q with
          | Lt => Some b'
          | _ => Some b
          end
      | None => Some b
      end
  end.

(** Modelled from the spec: the choice at one probe time: among the
    candidates that can be placed there, the one maximizing
    [score(cursor_time)] (section 4.6). *)
Definition select_at (svc : services) (inp : run_input) (candidates : list block)
    (last : option block) (t : time) : option block :=
  best_of (fun b => block_score svc b t)
    (filter (fun b => eligible svc inp last t b = true) candidates).

(** Modelled from the spec: the search over the probe times: the
    first of them at which there is a choice (section 4.6, "advance by
    a fixed resolution step and retry"). *)
Fixpoint first_choice (choose : time -> option block) (ts : list time)
  : option (block * time) :=
  match ts with
  | [] => None
  | t :: ts' =>
      match choose t with
      | Some b => Some (b, t)
      | None => first_choice choose ts'
      end
  end.

(** Modelled from the spec: [select_next(feasible_candidates,
    cursor_time, last_block)], priority scheduling (section 4.6): at
    the cursor, the best of the candidates that can be placed there; if
    there is none, the cursor advances by one tick and the search is
    repeated; [None] when no candidate can be placed before the window
    closes.  The answer is the Block and the time the cursor has
    reached. *)
Definition select_next (svc : services) (inp : run_input) (candidates : list block)
    (cursor_time : time) (last_block : option block) : option (block * time) :=
  first_choice (select_at svc inp candidates last_block)
    (probe_times cursor_time (window_end inp) (tick inp)).

End Optimizer.

(** *** Scheduler *)

Module Scheduler.

(** Modelled from the spec: why a run of the Scheduler (module
    [pyscope.telrun.scheduler], not in the sources) is Aborted
    (sections 4.7 and 7): an empty Queue, a window that ends at or before its start, a tick
    that cannot advance the cursor, two Blocks with one id, a Block
    without a positive duration, or the iteration budget of the caller
    (section 5). *)
Inductive diagnostic : Type :=
| EmptyQueue
| EmptyWindow
| InvalidTick
| QueueIntegrity
| InvalidBlock (id : nat)
| BudgetExceeded.

(** Modelled from the spec: the terminal states of the Scheduler
    (section 4.7): Completed yields the Schedule, Aborted the partial
    Schedule and a diagnostic. *)
Inductive result : Type :=
| Completed (s : schedule)
| Aborted (partial : schedule) (why : diagnostic).

(** Modelled from the spec: the state of the Running loop
    (section 4.7): the cursor, the previous placement, the Blocks that
    are still Pending, in insertion order, and the entries placed so
    far. *)
Record running : Type := {
  cursor : time;
  last_block : option block;
  pending : Queue.t;
  placed : schedule
}.

(** Modelled from the spec: idle time is an explicit UnallocatedBlock
    (section 3). *)
Definition gap (from to : time) : schedule :=
  if from <? to then [ {| what := UnallocatedBlock; entry_start := from; entry_end := to |} ]
  else [].

(** Modelled from the spec: the TransitionField between the previous
    placement and the chosen Block, if the transition cost is above
    zero (section 4.7, step 5). *)
Definition transition (svc : services) (last : option block) (b : block) (t : time)
  : schedule :=
  match last with
  | Some l =>
      if 0 <? transition_cost svc last b
      then [ {| what := TransitionField l b; entry_start := t;
                entry_end := t + transition_cost svc last b |} ]
      else []
  | None => []
  end.

Section Loop.
Variable svc : services.
(** Modelled from the spec: the Prioritizer (section 4.5, module
    [pyscope.telrun.prioritizer], not in the sources), a pluggable
    [score(block, context)]. *)
Variable prioritizer : context -> block -> Q.
(** Modelled from the spec: the Queue's [snapshot] and the Optimizer's
    [select_next], each behind its contract (sections 4.4 and 4.6). *)
Variable snapshot : (block -> Q) -> Queue.t -> list block.
Variable select_next :
  run_input -> list block -> time -> option block -> option (block * time).

(** Modelled from the spec: the Prioritizer is invoked once before
    each selection of the Optimizer (section 4.5). *)
Definition prioritized (st : running) : Queue.t :=
  (fun b => with_priority b
              (prioritizer {| ctx_cursor := cursor st; ctx_placed := placed st |} b))
    <$> pending st.

(** Modelled from the spec: step 2 of the loop, the priority-ranked
    snapshot of the Queue. *)
Definition ranked (st : running) : list block :=
  snapshot priority (prioritized st).

(** Modelled from the spec: step 3 of the loop, the candidates that
    pass the global Conditions at the cursor; they are what the
    Optimizer is given. *)
Definition candidates (inp : run_input) (st : running) : list block :=
  filter (fun b => passes_global svc (global_conditions inp) b (cursor st) = true)
         (ranked st).

(** Modelled from the spec: step 5 of the loop: the idle time that the
    Optimizer has skipped while searching, an explicit UnallocatedBlock
    as section 3 requires of every gap, the TransitionField if any,
    then the Block, Scheduled with its start and end; the cursor moves
    to its end. *)
Definition place (st : running) (b : block) (t : time) : running :=
  let c := transition_cost svc (last_block st) b in
  {| cursor := t + c + total_duration b;
     last_block := Some b;
     pending := Queue.remove (prioritized st) (block_id b);
     placed := placed st ++ gap (cursor st) t ++ transition svc (last_block st) b t
               ++ [ {| what := Scheduled b; entry_start := t + c;
                       entry_end := t + c + total_duration b |} ] |}.

(** Modelled from the spec: the Running loop of the missing Scheduler
    (section 4.7, steps 1-6) under an iteration budget (section 5):
    the Optimizer is given the candidates, the cursor and the previous
    placement; its choice is placed and the loop goes on, or there is
    none and the rest of the window is a final UnallocatedBlock. *)
Fixpoint iterate (inp : run_input) (budget : nat) (st : running) : result :=
  match budget with
  | O => Aborted (placed st) BudgetExceeded
  | S budget' =>
      match select_next inp (candidates inp st) (cursor st) (last_block st) with
      | Some (b, t) => iterate inp budget' (place st b t)
      | None => Completed (placed st ++ gap (cursor st) (window_end inp))
      end
  end.

(** Modelled from the spec: the structural errors that abort a run
    before it places anything (section 7). *)
Definition structural_error (inp : run_input) : option diagnostic :=
  match queue inp with
  | [] => Some EmptyQueue
  | _ =>
      if window_end inp <=? window_start inp then Some EmptyWindow
      else if tick inp <=? 0 then Some InvalidTick
      else if negb (bool_decide (NoDup (block_id <$> queue inp))) then Some QueueIntegrity
      else match list_find (fun b => total_duration b <= 0) (queue inp) with
           | Some (_, b) => Some (InvalidBlock (block_id b))
           | None => None
           end
  end.

(** Modelled from the spec: the state in which the loop starts: the
    cursor at the start of the window, no previous placement, the
    whole Queue Pending, nothing placed (section 4.7, Idle to
    Running). *)
Definition start (inp : run_input) : running :=
  {| cursor := window_start inp; last_block := None; pending := queue inp; placed := [] |}.

(** Modelled from the spec: a scheduling run of the missing Scheduler,
    Idle to Completed or Aborted (section 4.7); every placement takes
    a Block off the Queue, so one iteration per Block and one more end
    the run. *)
Definition run (inp : run_input) : result :=
  match structural_error inp with
  | Some why => Aborted [] why
  | None => iterate inp (S (length (queue inp))) (start inp)
  end.

End Loop.

(** Modelled from the spec: the scheduling run with the Queue and the
    default Optimizer of sections 4.4 and 4.6. *)
Definition schedule_run (svc : services) (prioritizer : context -> block -> Q)
    (inp : run_input) : result :=
  run svc prioritizer Queue.snapshot (Optimizer.select_next svc) inp.

End Scheduler.

(** *** Vocabulary of the properties *)

(** An entry has a positive length. *)
Definition proper (e : entry) : Prop := entry_start e < entry_end e.

(** Consecutive entries do not overlap. *)
Definition no_overlap (s : list entry) : Prop :=
  forall (i : nat) e e',
    s !! i = Some e -> s !! S i = Some e' -> entry_end e <= entry_start e'.

(** The spans of the entries are the window: every instant of
    [[w0, w1)] lies in an entry, and every instant of an entry lies in
    the window. *)
Definition covers (s : list entry) (w0 w1 : time) : Prop :=
  forall t : time,
    w0 <= t < w1 <-> exists e, e ∈ s /\ entry_start e <= t < entry_end e.

(** The entries follow one another from [a] to [b] without a hole. *)
Fixpoint chain (a b : time) (s : list entry) : Prop :=
  match s with
  | [] => a = b
  | e :: s' => entry_start e = a /\ chain (entry_end e) b s'
  end.






(** The cursor times at which an iteration of the loop can start, read
    off a schedule: the start of the window and the end of every
    scheduled Block. *)
Definition iteration_cursor (inp : run_input) (s : list entry) (c : time) : Prop :=
  c = window_start inp
  \/ exists e b, e ∈ s /\ what e = Scheduled b /\ entry_end e = c.

(** [a] was inserted into the Queue before [b]. *)
Definition inserted_before (pending : list block) (a b : block) : Prop :=
  exists i j : nat, pending !! i = Some a /\ pending !! j = Some b /\ (i < j)%nat.

(** Modelled from the spec: the order of a snapshot in full
    (section 4.4): [ranking_fn] descending, then the earliest
    TimeCondition lower bound, then insertion order. *)
Definition precedes (ranking_fn : block -> Q) (pending : list block) (a b : block) : Prop :=
  Queue.ranks_before ranking_fn a b = true
  \/ (Queue.ranks_before ranking_fn a b = false
      /\ Queue.ranks_before ranking_fn b a = false
      /\ inserted_before pending a b).

Definition is_snapshot (ranking_fn : block -> Q) (pending l : list block) : Prop :=
  l ≡ₚ pending /\ StronglySorted (precedes ranking_fn pending) l.

(** Modelled from the spec: the contract of [Queue.snapshot]
    (section 4.4): the Pending Blocks, each once, in that order. *)
Definition snapshot_contract (snapshot : (block -> Q) -> list block -> list block) : Prop :=
  forall ranking_fn pending,
    NoDup (block_id <$> pending) -> is_snapshot ranking_fn pending (snapshot ranking_fn pending).

(** [b] has the highest score of the list, and is the first to have
    it. *)
Definition best_in (score : block -> Q) (l : list block) (b : block) : Prop :=
  exists pre post,
    l = pre ++ b :: post
    /\ Forall (fun x => (score x < score b)%Q) pre
    /\ Forall (fun x => (score x <= score b)%Q) post.

(** The candidates that can be placed at [t]. *)
Definition placeable (svc : services) (inp : run_input) (candidates : list block)
    (last : option block) (t : time) : list block :=
  filter (fun b => eligible svc inp last t b = true) candidates.

(** Modelled from the spec: the contract of [Optimizer.select_next]
    (section 4.6), for a positive tick and candidates of positive
    duration: the answer is the best of the candidates that can be
    placed at the first probe time, counted in ticks from the cursor,
    at which one can be placed; it is [None] when there is no such
    time. *)
Definition optimizer_contract (svc : services)
    (select_next : run_input -> list block -> time -> option block -> option (block * time))
  : Prop :=
  forall inp candidates cursor_time last,
    0 < tick inp ->
    Forall (fun b => 0 < total_duration b) candidates ->
    match select_next inp candidates cursor_time last with
    | Some (b, t) =>
        exists k : nat,
          t = cursor_time + Z.of_nat k * tick inp
          /\ (forall j : nat, (j < k)%nat ->
                placeable svc inp candidates last (cursor_time + Z.of_nat j * tick inp) = [])
          /\ best_in (fun x => block_score svc x t) (placeable svc inp candidates last t) b
    | None =>
        forall k : nat,
          placeable svc inp candidates last (cursor_time + Z.of_nat k * tick inp) = []
    end.

(** What every state of the Running loop satisfies: the cursor is in
    the window, the entries placed so far run from the start of the
    window to the cursor, each of positive length, the Pending Blocks
    have distinct ids and positive durations, and every scheduled Block
    passed the global Conditions at the cursor of its iteration. *)
Definition invariant (svc : services) (inp : run_input) (st : Scheduler.running) : Prop :=
  window_start inp <= Scheduler.cursor st <= window_end inp
  /\ chain (window_start inp) (Scheduler.cursor st) (Scheduler.placed st)
  /\ Forall proper (Scheduler.placed st)
  /\ NoDup (block_id <$> Scheduler.pending st)
  /\ Forall (fun b => 0 < total_duration b) (Scheduler.pending st)
  /\ iteration_cursor inp (Scheduler.placed st) (Scheduler.cursor st)
  /\ forall e b,
       e ∈ Scheduler.placed st -> what e = Scheduled b ->
       exists c, iteration_cursor inp (Scheduler.placed st) c /\ c <= entry_start e
                 /\ passes_global svc (global_conditions inp) b c = true.

(** What a Completed schedule satisfies. *)
Definition well_formed (svc : services) (inp : run_input) (s : list entry) : Prop :=
  chain (window_start inp) (window_end inp) s
  /\ Forall proper s
  /\ forall e b,
       e ∈ s -> what e = Scheduled b ->
       exists c, iteration_cursor inp s c /\ c <= entry_start e
                 /\ passes_global svc (global_conditions inp) b c = true.

End Core.


(* ------------------------------------------------------------------ *)
(** ** Sample data: an exact-arithmetic array library, a small site     *)
(* ------------------------------------------------------------------ *)

Module Sample.

(** Arrays of rationals, row by row: an instance of [CcdCalib.numpy]
    used to run the calibration on small images. *)
Definition ndarray : Type := list (list Q).

Definition same_shape (a b : ndarray) : bool :=
  (length a =? length b)%nat
  && forallb (fun p => (length p.1 =? length p.2)%nat) (zip a b).

Definition map2 (f : Q -> Q -> Q) (a b : ndarray) : ndarray :=
  zip_with (zip_with f) a b.

Definition sub (a b : ndarray) : Py.result ndarray :=
  if same_shape a b then Py.Success (map2 Qminus a b)
  else Py.Failure Py.ValueError.

Definition div (a b : ndarray) : Py.result ndarray :=
  if same_shape a b then Py.Success (map2 Qdiv a b)
  else Py.Failure Py.ValueError.

Definition total (a : ndarray) : Q :=
  foldr Qplus 0%Q (concat a).

Definition mean (a : ndarray) : Q :=
  (total a / inject_Z (Z.of_nat (length (concat a))))%Q.

Definition ncols (a : ndarray) : Z :=
  match a with
  | [] => 0
  | r :: _ => Z.of_nat (length r)
  end.

(** A column index counts from the end when negative. *)
Definition column_position (a : ndarray) (j : Z) : option nat :=
  let n := ncols a in
  if ((0 <=? j) && (j <? n))%Z then Some (Z.to_nat j)
  else if ((- n <=? j) && (j <? 0))%Z then Some (Z.to_nat (j + n))
  else None.

Definition get_col (a : ndarray) (j : Z) : Py.result ndarray :=
  match column_position a j with
  | Some k => Py.Success (List.map (fun r => [nth k r 0%Q]) a)
  | None => Py.Failure Py.IndexError
  end.

Definition set_col (a : ndarray) (j : Z) (c : ndarray) : Py.result ndarray :=
  match column_position a j with
  | Some k =>
      if (length c =? length a)%nat
      then Py.Success (zip_with (fun r x => <[k := hd 0%Q x]> r) a c)
      else Py.Failure Py.ValueError
  | None => Py.Failure Py.IndexError
  end.

Definition floorQ (q : Q) : Q := inject_Z (Qfloor q).

Definition pointwise (f : Q -> Q) (a : ndarray) : ndarray :=
  List.map (List.map f) a.

Definition np : CcdCalib.numpy ndarray Q :=
  {| CcdCalib.np_sub := sub;
     CcdCalib.np_mul_scalar := fun a x => pointwise (fun p => (p * x)%Q) a;
     CcdCalib.np_div := div;
     CcdCalib.np_mean := mean;
     CcdCalib.np_div_scalar := fun a x => pointwise (fun p => (p / x)%Q) a;
     CcdCalib.np_floor := pointwise floorQ;
     CcdCalib.np_add_scalar := fun a z => pointwise (fun p => (p + inject_Z z)%Q) a;
     CcdCalib.np_get_col := get_col;
     CcdCalib.np_set_col := set_col;
     CcdCalib.np_half_sum := fun a b => map2 (fun x y => ((x + y) / 2)%Q) a b;
     CcdCalib.detect_cosmics := fun a _ _ => Py.Success a;
     CcdCalib.round3 := fun q => (floorQ (q * 1000 + (1 # 2)) / 1000)%Q |}.

(** A 2 x 4 image. *)
Definition image : ndarray :=
  [ [ 10; 20; 99; 40 ]%Q; [ 1; 3; 77; 5 ]%Q ].

Definition fits_header : CcdCalib.header :=
  {| CcdCalib.cards :=
       list_to_map [ ("READOUTM", CcdCalib.HStr "Normal");
                     ("EXPTIME", CcdCalib.HNum 10);
                     ("XBINNING", CcdCalib.HNum 1);
                     ("YBINNING", CcdCalib.HNum 1);
                     ("FILTER", CcdCalib.HStr "r") ];
     CcdCalib.comments := [] |}.

Definition ones : ndarray :=
  [ [ 1; 1; 1; 1 ]%Q; [ 1; 1; 1; 1 ]%Q ].

Definition zeros : ndarray :=
  [ [ 0; 0; 0; 0 ]%Q; [ 0; 0; 0; 0 ]%Q ].

(** A directory with two images, and the three master frames. *)
Definition disk : gmap string (ndarray * CcdCalib.header) :=
  list_to_map [ ("night/a.fts", (image, fits_header));
                ("night/b.fts", (image, fits_header));
                ("flat.fts", (ones, fits_header));
                ("dark.fts", (zeros, fits_header));
                ("bias.fts", (zeros, fits_header)) ].

Definition files : CcdCalib.filesystem :=
  {| CcdCalib.isfile := fun p => bool_decide (p ∈ [ "night/a.fts"; "night/b.fts";
                                                    "flat.fts"; "dark.fts"; "bias.fts" ]);
     CcdCalib.isdir := fun p => String.eqb p "night";
     CcdCalib.glob := fun pat =>
       if String.eqb pat "night/*.fts" then [ "night/a.fts"; "night/b.fts" ] else [] |}.

(** The frame variables that loading the three master frames binds. *)
Definition master (data : ndarray) (filter : string) : CcdCalib.calframe :=
  {| CcdCalib.cf_data := data;
     CcdCalib.cf_filter := CcdCalib.HStr filter;
     CcdCalib.cf_readout := CcdCalib.HStr "Normal";
     CcdCalib.cf_exptime := 10;
     CcdCalib.cf_xbin := CcdCalib.HNum 1;
     CcdCalib.cf_ybin := CcdCalib.HNum 1 |}.

Definition masters : CcdCalib.frames :=
  {| CcdCalib.bias := Some (master zeros "");
     CcdCalib.flat_dark := None;
     CcdCalib.dark := Some (master zeros "");
     CcdCalib.flat := Some (master ones "r") |}.

Definition calib_args (names : list string) (bad : CcdCalib.bad_cols) : CcdCalib.args :=
  {| CcdCalib.fnames := names;
     CcdCalib.dark_frame := Some "dark.fts";
     CcdCalib.flat_frame := Some "flat.fts";
     CcdCalib.bias_frame := Some "bias.fts";
     CcdCalib.flat_dark_frame := Some "";
     CcdCalib.camera_type := "ccd";
     CcdCalib.astro_scrappy := (1%Z, 3%Q);
     CcdCalib.bad_columns := bad;
     CcdCalib.in_place := false;
     CcdCalib.verbose := false;
     CcdCalib.pedestal := 1000 |}.

(** The same call without a flat frame. *)
Definition without_flat (a : CcdCalib.args) : CcdCalib.args :=
  {| CcdCalib.fnames := CcdCalib.fnames a;
     CcdCalib.dark_frame := CcdCalib.dark_frame a;
     CcdCalib.flat_frame := None;
     CcdCalib.bias_frame := CcdCalib.bias_frame a;
     CcdCalib.flat_dark_frame := CcdCalib.flat_dark_frame a;
     CcdCalib.camera_type := CcdCalib.camera_type a;
     CcdCalib.astro_scrappy := CcdCalib.astro_scrappy a;
     CcdCalib.bad_columns := CcdCalib.bad_columns a;
     CcdCalib.in_place := CcdCalib.in_place a;
     CcdCalib.verbose := CcdCalib.verbose a;
     CcdCalib.pedestal := CcdCalib.pedestal a |}.

(** Observing blocks: [vega] and [m31] are well formed; the validator
    below rejects blocks with a negative duration. *)
Definition block (id : nat) (name : string) (duration : Z) (pm : Q) : Schedtel.ob :=
  {| Schedtel.ob_id := id;
     Schedtel.ob_target := name;
     Schedtel.ob_ra := 10;
     Schedtel.ob_dec := 20;
     Schedtel.ob_duration := duration;
     Schedtel.ob_priority := 1;
     Schedtel.ob_configuration :=
       list_to_map [ ("code", Schedtel.CStr "abc");
                     ("pm_ra_cosdec", Schedtel.CQuantity pm);
                     ("pm_dec", Schedtel.CQuantity 0) ] |}.

Definition vega : Schedtel.item := Schedtel.IBlock (block 1 "vega" 600 0).
Definition m31 : Schedtel.item := Schedtel.IBlock (block 2 "m31" 900 0).
Definition broken1 : Schedtel.item := Schedtel.IBlock (block 3 "broken1" (-1) 0).
Definition broken2 : Schedtel.item := Schedtel.IBlock (block 4 "broken2" (-5) 0).

Definition valid (i : Schedtel.item) : Py.result Schedtel.item :=
  match i with
  | Schedtel.IBlock b =>
      if (0 <? Schedtel.ob_duration b)%Z then Py.Success i
      else Py.Failure Py.ValueError
  | Schedtel.IOther _ => Py.Failure Py.TypeError
  end.

Definition the_site : Schedtel.site :=
  {| Schedtel.obs_long := -91;
     Schedtel.obs_lat := 41;
     Schedtel.obs_height := 200;
     Schedtel.slew_rate := 2;
     Schedtel.instrument_reconfiguration_times := "{}";
     Schedtel.instrument_name := "main" |}.

(** A scheduler that leaves the schedule as it finds it. *)
Definition idle : Schedtel.handler := fun _ s => Py.Success s.

(** A site where [night.cat] lists three files, one of them missing,
    and where every ephemeris service is down. *)
Definition world_at (clock : Schedtel.date) : Schedtel.world :=
  {| Schedtel.environ := fun _ => None;
     Schedtel.getcwd := "/obs";
     Schedtel.isfile := fun p => bool_decide (p ∈ [ "night.cat"; "a.sch"; "b.sch" ]);
     Schedtel.isdir := fun _ => false;
     Schedtel.stat_non_path := Py.Failure Py.TypeError;
     Schedtel.read_lines := fun p =>
       if String.eqb p "night.cat" then Py.Success [ "a.sch"; "missing.sch"; "b.sch" ]
       else Py.Failure (Py.LibraryError "open");
     Schedtel.sch_read := fun p =>
       if String.eqb p "a.sch" then Py.Success (Schedtel.list_group [ vega; m31 ])
       else if String.eqb p "b.sch"
       then Py.Success (Schedtel.list_group [ broken1; broken2; vega ])
       else Py.Failure (Py.LibraryError "sch.read");
     Schedtel.validate_ob := valid;
     Schedtel.read_config := fun _ => Py.Success the_site;
     Schedtel.timezone_at := fun _ _ => Py.Success "America/Chicago";
     Schedtel.zone_info := fun tz => Py.Success tz;
     Schedtel.now := clock;
     Schedtel.strptime := fun _ =>
       Py.Success {| Schedtel.year := 2024; Schedtel.month := 3; Schedtel.day_of_month := 9 |};
     Schedtel.noon := fun d _ =>
       (Schedtel.day * (372 * Schedtel.year d + 31 * Schedtel.month d
                        + Schedtel.day_of_month d) + 64800)%Z;
     Schedtel.isot := fun _ => "2024-03-09T18:00:00.000";
     Schedtel.priority_scheduler := fun _ => idle;
     Schedtel.load_class := fun _ _ => Py.Failure (Py.LibraryError "import");
     Schedtel.plot_schedule_airmass := fun _ => Py.Success 0%nat;
     Schedtel.draw_gantt := fun _ => Py.Success 0%nat;
     Schedtel.mpc_get_ephemeris := fun _ _ => Py.Failure (Py.LibraryError "MPC");
     Schedtel.get_body := fun _ _ => Py.Failure (Py.LibraryError "get_body");
     Schedtel.proper_motion := fun _ _ => (0%Q, 0%Q);
     Schedtel.coord_to_string := fun _ => "" |}.

(** The sample site with another environment, other directories and
    another Minor Planet Center. *)
Definition site_with (env : string -> option string) (dirs : string -> bool)
    (mpc : Schedtel.cell -> Schedtel.time
           -> Py.result (gmap string (list Schedtel.cell))) : Schedtel.world :=
  {| Schedtel.environ := env;
     Schedtel.getcwd := "/obs";
     Schedtel.isfile := fun p => bool_decide (p ∈ [ "night.cat"; "a.sch"; "b.sch" ]);
     Schedtel.isdir := dirs;
     Schedtel.stat_non_path := Py.Failure Py.TypeError;
     Schedtel.read_lines := fun p =>
       if String.eqb p "night.cat" then Py.Success [ "a.sch"; "missing.sch"; "b.sch" ]
       else Py.Failure (Py.LibraryError "open");
     Schedtel.sch_read := fun p =>
       if String.eqb p "a.sch" then Py.Success (Schedtel.list_group [ vega; m31 ])
       else if String.eqb p "b.sch"
       then Py.Success (Schedtel.list_group [ broken1; broken2; vega ])
       else Py.Failure (Py.LibraryError "sch.read");
     Schedtel.validate_ob := valid;
     Schedtel.read_config := fun _ => Py.Success the_site;
     Schedtel.timezone_at := fun _ _ => Py.Success "America/Chicago";
     Schedtel.zone_info := fun tz => Py.Success tz;
     Schedtel.now :=
       {| Schedtel.year := 2024; Schedtel.month := 3; Schedtel.day_of_month := 9 |};
     Schedtel.strptime := fun _ =>
       Py.Success {| Schedtel.year := 2024; Schedtel.month := 3; Schedtel.day_of_month := 9 |};
     Schedtel.noon := fun d _ =>
       (Schedtel.day * (372 * Schedtel.year d + 31 * Schedtel.month d
                        + Schedtel.day_of_month d) + 64800)%Z;
     Schedtel.isot := fun _ => "2024-03-09T18:00:00.000";
     Schedtel.priority_scheduler := fun _ => idle;
     Schedtel.load_class := fun _ _ => Py.Failure (Py.LibraryError "import");
     Schedtel.plot_schedule_airmass := fun _ => Py.Success 0%nat;
     Schedtel.draw_gantt := fun _ => Py.Success 0%nat;
     Schedtel.mpc_get_ephemeris := mpc;
     Schedtel.get_body := fun _ _ => Py.Failure (Py.LibraryError "get_body");
     Schedtel.proper_motion := fun _ _ => (0%Q, 0%Q);
     Schedtel.coord_to_string := fun _ => "" |}.

(** One line of ephemeris, as the MPC answers for a minor planet. *)
Definition ephemeris_line : gmap string (list Schedtel.cell) :=
  list_to_map [ ("RA", [ Schedtel.CStr "10 02 00.0" ]);
                ("Dec", [ Schedtel.CStr "+20 01 00" ]);
                ("dRA cos(Dec)", [ Schedtel.CNum 4 ]);
                ("dDec", [ Schedtel.CNum 1 ]) ].

(** The site when the MPC answers. *)
Definition mpc_world : Schedtel.world :=
  site_with (fun _ => None) (fun _ => false) (fun _ _ => Py.Success ephemeris_line).

(** The site when [$TELRUN_EXECUTE] names an existing directory. *)
Definition telrun_world : Schedtel.world :=
  site_with (fun v => if String.eqb v "TELRUN_EXECUTE" then Some "/exec" else None)
            (fun p => String.eqb p "/exec")
            (fun _ _ => Py.Failure (Py.LibraryError "MPC")).

Definition march_9 : Schedtel.date :=
  {| Schedtel.year := 2024; Schedtel.month := 3; Schedtel.day_of_month := 9 |}.

Definition the_world : Schedtel.world := world_at march_9.

Local Open Scope Z_scope.

(** Two nights over the same window that differ between the two
    observations only: a transition in one, free time in the other. *)
Definition slot_of (t0 t1 : Z) (c : Schedtel.content) : Schedtel.slot :=
  {| Schedtel.slot_start := t0; Schedtel.slot_end := t1; Schedtel.slot_content := c |}.

Definition night_with_transition : Schedtel.schedule :=
  {| Schedtel.start_time := 0;
     Schedtel.end_time := Schedtel.day;
     Schedtel.slots :=
       [ slot_of 0 600 (Schedtel.Observing (block 1 "vega" 600 0));
         slot_of 600 660 (Schedtel.Transition [ "slew_time" ]);
         slot_of 660 1560 (Schedtel.Observing (block 2 "m31" 900 0));
         slot_of 1560 Schedtel.day Schedtel.Unused ] |}.

Definition night_with_gap : Schedtel.schedule :=
  {| Schedtel.start_time := 0;
     Schedtel.end_time := Schedtel.day;
     Schedtel.slots :=
       [ slot_of 0 600 (Schedtel.Observing (block 1 "vega" 600 0));
         slot_of 600 660 Schedtel.Unused;
         slot_of 660 1560 (Schedtel.Observing (block 2 "m31" 900 0));
         slot_of 1560 Schedtel.day Schedtel.Unused ] |}.

(** A table row for a minor planet: its proper motion is not zero. *)
Definition ceres : Schedtel.row :=
  {| Schedtel.target := "ceres";
     Schedtel.start_utc := 7200;
     Schedtel.end_utc := 7800;
     Schedtel.duration_minutes := 10;
     Schedtel.ra := Schedtel.CQuantity 10;
     Schedtel.dec := Schedtel.CQuantity 20;
     Schedtel.configuration :=
       list_to_map [ ("pm_ra_cosdec", Schedtel.CQuantity 3);
                     ("pm_dec", Schedtel.CQuantity 0) ] |}.

Definition sched_args (c : Schedtel.catalog_arg) (d : option string) : Schedtel.args :=
  {| Schedtel.catalog := c;
     Schedtel.ignore_order := false;
     Schedtel.date_arg := d;
     Schedtel.observatory := Schedtel.ObsObservatory the_site;
     Schedtel.max_altitude := -12;
     Schedtel.elevation := 30;
     Schedtel.airmass := 3;
     Schedtel.moon_separation := 30;
     Schedtel.scheduler := ("", "");
     Schedtel.gap_time := 60;
     Schedtel.resolution := 5;
     Schedtel.filename := None;
     Schedtel.telrun := false;
     Schedtel.plot := None;
     Schedtel.quiet := false;
     Schedtel.verbose := 0 |}.

(** A sky for the scheduling core: the Sun is down, the Moon is far,
    every target stands high except [lost], which the ephemeris
    service cannot find; the airmass and the cost of moving to another
    target are given. *)
Definition sky_with (airmass : Q) (slew : Z) : Core.services :=
  {| Core.target_position := fun tgt _ =>
       if String.eqb tgt "lost" then None else Some {| Core.alt := 60; Core.az := 180 |};
     Core.sun_position := fun _ => Some {| Core.alt := -20; Core.az := 0 |};
     Core.moon_position := fun _ => Some {| Core.alt := 10; Core.az := 90 |};
     Core.airmass_at := fun _ => Some airmass;
     Core.angular_separation := fun _ _ => 90%Q;
     Core.cost := fun _ _ from to => if String.eqb from to then 0 else slew |}.

(** The sky of the sample night: airmass 1.2, five minutes to move to
    another target. *)
Definition sky : Core.services := sky_with (12 # 10)%Q 300.

(** A request of one hour, to be observed between two times. *)
Definition request (id : nat) (tgt : string) (p : Q) (from to : Z) : Core.block :=
  {| Core.block_id := id; Core.owner := "survey"; Core.target := tgt;
     Core.configuration := "V"; Core.total_duration := 3600;
     Core.conditions := [ Core.TimeCondition from to ]; Core.priority := p |}.

(** A Prioritizer that leaves every priority as it is. *)
Definition keep_priority : Core.context -> Core.block -> Q := fun _ b => Core.priority b.

(** Four hours, three requests, the site conditions of the sample
    call of [schedtel]. *)
Definition night : Core.run_input :=
  {| Core.queue := [ request 1 "lost" 100 0 14400;
                     request 2 "vega" 10 0 7200;
                     request 3 "m31" 5 9000 14400 ];
     Core.window_start := 0; Core.window_end := 14400; Core.tick := 60;
     Core.global_conditions := Schedtel.global_constraints (sched_args Schedtel.CatNone None) |}.

(** The schedule of the sample night. *)
Definition timetable : list Core.entry :=
  [ {| Core.what := Core.Scheduled (request 2 "vega" 10 0 7200);
       Core.entry_start := 0; Core.entry_end := 3600 |};
    {| Core.what := Core.UnallocatedBlock;
       Core.entry_start := 3600; Core.entry_end := 9000 |};
    {| Core.what := Core.TransitionField (request 2 "vega" 10 0 7200)
                      (request 3 "m31" 5 9000 14400);
       Core.entry_start := 9000; Core.entry_end := 9300 |};
    {| Core.what := Core.Scheduled (request 3 "m31" 5 9000 14400);
       Core.entry_start := 9300; Core.entry_end := 12900 |};
    {| Core.what := Core.UnallocatedBlock;
       Core.entry_start := 12900; Core.entry_end := 14400 |} ].

(** The two scenarios of section 8 of the design: two requests of one
    hour in a window of four, the first with priority 10 and feasible
    for two hours, the second with priority 5 and feasible for four,
    at no transition cost; and one request whose only Condition is an
    airmass of at most 2. *)
Definition two_requests : Core.run_input :=
  {| Core.queue := [ request 1 "a" 10 0 7200; request 2 "b" 5 0 14400 ];
     Core.window_start := 0; Core.window_end := 14400; Core.tick := 60;
     Core.global_conditions := [] |}.

Definition airmass_request : Core.run_input :=
  {| Core.queue :=
       [ {| Core.block_id := 1; Core.owner := "survey"; Core.target := "a";
            Core.configuration := "V"; Core.total_duration := 3600;
            Core.conditions := [ Core.AirmassCondition 2 ]; Core.priority := 1 |} ];
     Core.window_start := 0; Core.window_end := 14400; Core.tick := 60;
     Core.global_conditions := [] |}.



End Sample.

(* ================================================================== *)
(** * Part II: properties                                              *)
(* ================================================================== *)

Module PyFacts.

Section Traces.
Context {St Ev R : Type}.
Variable P : Ev -> Prop.

Local Notation M := (@Py.M St Ev R).

Lemma emits_ret {A} (a : A) : Py.emits P (Py.ret a : M A).
Proof. intros s. constructor. Qed.

Lemma emits_raise {A} e : Py.emits P (Py.raise e : M A).
Proof. intros s. constructor. Qed.

Lemma emits_returning {A} r : Py.emits P (Py.returning r : M A).
Proof. intros s. constructor. Qed.

Lemma emits_get : Py.emits P (Py.get : M St).
Proof. intros s. constructor. Qed.

Lemma emits_put s0 : Py.emits P (Py.put s0 : M unit).
Proof. intros s. constructor. Qed.

Lemma emits_lift {A} (r : Py.result A) : Py.emits P (Py.lift r : M A).
Proof. destruct r; [apply emits_ret | apply emits_raise]. Qed.

Lemma emits_emit e : P e -> Py.emits P (Py.emit e : M unit).
Proof. intros He s. cbn. repeat constructor. exact He. Qed.

Lemma emits_bind {A B} (m : M A) (k : A -> M B) :
  Py.emits P m -> (forall a, Py.emits P (k a)) -> Py.emits P (Py.bind m k).
Proof.
  intros Hm Hk s. specialize (Hm s). unfold Py.bind, Py.trace_of in *.
  destruct (m s) as [[o s1] t1]; cbn in Hm.
  destruct o as [a | r | e]; cbn; try exact Hm.
  specialize (Hk a s1). unfold Py.trace_of in Hk.
  destruct (k a s1) as [[o2 s2] t2]; cbn in *.
  apply Forall_app; split; assumption.
Qed.

Lemma emits_try_except {A} (body : M A) (handler : Py.exn -> M A) :
  Py.emits P body -> (forall e, Py.emits P (handler e)) ->
  Py.emits P (Py.try_except body handler).
Proof.
  intros Hb Hh s. specialize (Hb s). unfold Py.try_except, Py.trace_of in *.
  destruct (body s) as [[o s1] t1]; cbn in Hb.
  destruct o as [a | r | e]; cbn; try exact Hb.
  specialize (Hh e s1). unfold Py.trace_of in Hh.
  destruct (handler e s1) as [[o2 s2] t2]; cbn in *.
  apply Forall_app; split; assumption.
Qed.

Lemma emits_for_each {A} (l : list A) (body : A -> M unit) :
  (forall x, Py.emits P (body x)) -> Py.emits P (Py.for_each l body).
Proof.
  intros Hb. induction l as [| x l IH]; cbn.
  - apply emits_ret.
  - apply emits_bind; [apply Hb | intros _; exact IH].
Qed.

Lemma emits_for_fold {A B} (l : list A) (acc : B) (body : B -> A -> M B) :
  (forall b x, Py.emits P (body b x)) -> Py.emits P (Py.for_fold l acc body).
Proof.
  intros Hb. revert acc. induction l as [| x l IH]; intros acc; cbn.
  - apply emits_ret.
  - apply emits_bind; [apply Hb | intros acc'; apply IH].
Qed.

End Traces.

Section Control.
Context {St Ev R : Type}.

Local Notation M := (@Py.M St Ev R).

Lemma stops_raise {A} e : Py.stops (Py.raise e : M A).
Proof. intros s a. discriminate. Qed.

Lemma stops_returning {A} r : Py.stops (Py.returning r : M A).
Proof. intros s a. discriminate. Qed.

Lemma stops_bind_l {A B} (m : M A) (k : A -> M B) :
  Py.stops m -> Py.stops (Py.bind m k).
Proof.
  intros Hm s b. specialize (Hm s). unfold Py.bind, Py.outcome_of in *.
  destruct (m s) as [[o s1] t1]; cbn in *.
  destruct o as [a | r | e]; cbn; try discriminate.
  exfalso. apply (Hm a). reflexivity.
Qed.

Lemma stops_bind_r {A B} (m : M A) (k : A -> M B) :
  (forall a, Py.stops (k a)) -> Py.stops (Py.bind m k).
Proof.
  intros Hk s b. unfold Py.bind, Py.outcome_of.
  destruct (m s) as [[o s1] t1]; cbn.
  destruct o as [a | r | e]; cbn; try discriminate.
  specialize (Hk a s1 b). unfold Py.outcome_of in Hk.
  destruct (k a s1) as [[o2 s2] t2]; cbn in *. exact Hk.
Qed.

(** A loop whose body never completes completes only over nothing. *)
Lemma for_fold_stops {A B} (l : list A) (acc : B) (body : B -> A -> M B) s b :
  (forall acc x, Py.stops (body acc x)) ->
  Py.outcome_of (Py.for_fold l acc body s) = Py.Next b -> l = [] /\ b = acc.
Proof.
  intros Hb H. destruct l as [| x l]; cbn in H.
  - split; [reflexivity | congruence].
  - exfalso. eapply (stops_bind_l (body acc x)); [apply Hb | exact H].
Qed.

End Control.

(** A computation that cannot complete hides what follows it. *)
Lemma emits_bind_stops {St Ev R A B} (P : Ev -> Prop) (m : @Py.M St Ev R A) (k : A -> @Py.M St Ev R B) :
  Py.emits P m -> Py.stops m -> Py.emits P (Py.bind m k).
Proof.
  intros Hm Hs s. specialize (Hm s). specialize (Hs s).
  unfold Py.bind, Py.trace_of, Py.outcome_of in *.
  destruct (m s) as [[o s1] t1]; cbn in *.
  destruct o as [a | r | e]; cbn; try exact Hm.
  exfalso. apply (Hs a). reflexivity.
Qed.


Section Returns.
Context {St Ev R : Type}.
Variable P : R -> Prop.

Local Notation M := (@Py.M St Ev R).

Lemma exits_ret {A} (a : A) : Py.exits P (Py.ret a : M A).
Proof. intros s r. discriminate. Qed.

Lemma exits_raise {A} e : Py.exits P (Py.raise e : M A).
Proof. intros s r. discriminate. Qed.

Lemma exits_returning {A} r : P r -> Py.exits P (Py.returning r : M A).
Proof. intros Hr s r' H. cbn in H. congruence. Qed.

Lemma exits_get : Py.exits P (Py.get : M St).
Proof. intros s r. discriminate. Qed.

Lemma exits_put s0 : Py.exits P (Py.put s0 : M unit).
Proof. intros s r. discriminate. Qed.

Lemma exits_emit e : Py.exits P (Py.emit e : M unit).
Proof. intros s r. discriminate. Qed.

Lemma exits_lift {A} (r : Py.result A) : Py.exits P (Py.lift r : M A).
Proof. destruct r; [apply exits_ret | apply exits_raise]. Qed.

Lemma exits_bind {A B} (m : M A) (k : A -> M B) :
  Py.exits P m -> (forall a, Py.exits P (k a)) -> Py.exits P (Py.bind m k).
Proof.
  intros Hm Hk s r. specialize (Hm s). unfold Py.bind, Py.outcome_of in *.
  destruct (m s) as [[o s1] t1]; cbn in Hm.
  destruct o as [a | r0 | e]; cbn.
  - specialize (Hk a s1 r). unfold Py.outcome_of in Hk.
    destruct (k a s1) as [[o2 s2] t2]; cbn in *. exact Hk.
  - intros H. apply Hm. congruence.
  - discriminate.
Qed.

Lemma exits_try_except {A} (body : M A) (handler : Py.exn -> M A) :
  Py.exits P body -> (forall e, Py.exits P (handler e)) ->
  Py.exits P (Py.try_except body handler).
Proof.
  intros Hb Hh s r. specialize (Hb s). unfold Py.try_except, Py.outcome_of in *.
  destruct (body s) as [[o s1] t1]; cbn in Hb.
  destruct o as [a | r0 | e]; cbn.
  - discriminate.
  - exact (Hb r).
  - specialize (Hh e s1 r). unfold Py.outcome_of in Hh.
    destruct (handler e s1) as [[o2 s2] t2]; cbn in *. exact Hh.
Qed.

Lemma exits_for_each {A} (l : list A) (body : A -> M unit) :
  (forall x, Py.exits P (body x)) -> Py.exits P (Py.for_each l body).
Proof.
  intros Hb. induction l as [| x l IH]; cbn.
  - apply exits_ret.
  - apply exits_bind; [apply Hb | intros _; exact IH].
Qed.

Lemma exits_for_fold {A B} (l : list A) (acc : B) (body : B -> A -> M B) :
  (forall b x, Py.exits P (body b x)) -> Py.exits P (Py.for_fold l acc body).
Proof.
  intros Hb. revert acc. induction l as [| x l IH]; intros acc; cbn.
  - apply exits_ret.
  - apply exits_bind; [apply Hb | intros acc'; apply IH].
Qed.

End Returns.

(** The monad laws, on runs. *)
Section Laws.
Context {St Ev R : Type}.
Local Notation M := (@Py.M St Ev R).

Lemma bind_ret_l {A B} (a : A) (k : A -> M B) s : Py.bind (Py.ret a) k s = k a s.
Proof. unfold Py.bind, Py.ret. destruct (k a s) as [[o s2] t2]. reflexivity. Qed.

Lemma bind_raise_l {A B} e (k : A -> M B) s :
  Py.bind (Py.raise e) k s = (Py.Raised e, s, []).
Proof. reflexivity. Qed.

Lemma bind_get {B} (k : St -> M B) s : Py.bind Py.get k s = k s s.
Proof. unfold Py.bind, Py.get. destruct (k s s) as [[o s2] t2]. reflexivity. Qed.

Lemma bind_assoc {A B C} (m : M A) (f : A -> M B) (g : B -> M C) s :
  Py.bind (Py.bind m f) g s = Py.bind m (fun a => Py.bind (f a) g) s.
Proof.
  unfold Py.bind. destruct (m s) as [[o s1] t1].
  destruct o as [a | r | e]; try reflexivity.
  destruct (f a s1) as [[o2 s2] t2].
  destruct o2 as [b | r | e]; try reflexivity.
  destruct (g b s2) as [[o3 s3] t3]. rewrite app_assoc. reflexivity.
Qed.

Lemma trace_bind_emit {B} e (k : unit -> M B) s :
  Py.trace_of (Py.bind (Py.emit e) k s) = e :: Py.trace_of (k tt s).
Proof. unfold Py.bind, Py.emit, Py.trace_of. destruct (k tt s) as [[o s2] t2]. reflexivity. Qed.

Lemma silent_trace {A} (m : M A) s :
  Py.emits (fun _ => False) m -> Py.trace_of (m s) = [].
Proof.
  intros H. specialize (H s). destruct (Py.trace_of (m s)) as [| e t]; [reflexivity |].
  inversion H as [| ? ? He _]. destruct He.
Qed.
Lemma bind_emit_run {B} (e : Ev) (k : unit -> M B) s o s' tr :
  Py.bind (Py.emit e) k s = (o, s', tr) ->
  exists tr', k tt s = (o, s', tr') /\ tr = e :: tr'.
Proof.
  unfold Py.bind, Py.emit. destruct (k tt s) as [[o2 s2] t2].
  intros H. inversion H; subst. eauto.
Qed.

End Laws.

(** One step of a proof that a computation built from the operations
    of [Py] only performs, or only returns, what is allowed. *)
Ltac emits_step :=
  first
    [ apply emits_ret | apply emits_raise | apply emits_returning
    | apply emits_lift | apply emits_get | apply emits_put
    | apply emits_emit; exact I
    | apply emits_bind; [| intros ?]
    | apply emits_try_except; [| intros ?]
    | apply emits_for_fold; intros ? ?
    | apply emits_for_each; intros ?
    | match goal with
      | |- Py.emits _ (match ?x with _ => _ end) => destruct x
      end ].

Ltac exits_step :=
  first
    [ apply exits_ret | apply exits_raise | apply exits_returning; exact I
    | apply exits_lift | apply exits_get | apply exits_put | apply exits_emit
    | apply exits_bind; [| intros ?]
    | apply exits_try_except; [| intros ?]
    | apply exits_for_fold; intros ? ?
    | apply exits_for_each; intros ?
    | match goal with
      | |- Py.exits _ (match ?x with _ => _ end) => destruct x
      end ].

(** *** Computations without effects, and runs through [bind] *)

Section Pure.
Context {St Ev R : Type}.
Local Notation M := (@Py.M St Ev R).

Lemma pure_ret {A} (a : A) : Py.pure (Py.ret a : M A).
Proof. intros s. exists (Py.Success a). reflexivity. Qed.

Lemma pure_raise {A} e : Py.pure (Py.raise e : M A).
Proof. intros s. exists (Py.Failure e). reflexivity. Qed.

Lemma pure_lift {A} (r : Py.result A) : Py.pure (Py.lift r : M A).
Proof. intros s. exists r. reflexivity. Qed.

Lemma pure_bind {A B} (m : M A) (k : A -> M B) :
  Py.pure m -> (forall a, Py.pure (k a)) -> Py.pure (Py.bind m k).
Proof.
  intros Hm Hk s. destruct (Hm s) as [r Hr]. unfold Py.bind. rewrite Hr.
  destruct r as [a | e]; cbn.
  - destruct (Hk a s) as [r' Hr']. rewrite Hr'. exists r'. destruct r'; reflexivity.
  - exists (Py.Failure e). reflexivity.
Qed.

Lemma pure_try_except {A} (body : M A) (handler : Py.exn -> M A) :
  Py.pure body -> (forall e, Py.pure (handler e)) ->
  Py.pure (Py.try_except body handler).
Proof.
  intros Hb Hh s. destruct (Hb s) as [r Hr]. unfold Py.try_except. rewrite Hr.
  destruct r as [a | e]; cbn.
  - exists (Py.Success a). reflexivity.
  - destruct (Hh e s) as [r' Hr']. rewrite Hr'. exists r'. destruct r'; reflexivity.
Qed.

Lemma pure_for_fold {A B} (l : list A) (acc : B) (body : B -> A -> M B) :
  (forall b x, Py.pure (body b x)) -> Py.pure (Py.for_fold l acc body).
Proof.
  intros Hb. revert acc. induction l as [| x l IH]; intros acc; cbn.
  - apply pure_ret.
  - apply pure_bind; [apply Hb | intros acc'; apply IH].
Qed.

(** Running past a computation that only computes: either it raised,
    or the run goes on from the same state with its value. *)
Lemma bind_pure {A B} (m : M A) (k : A -> M B)
    (Q : Py.outcome R B * St * list Ev -> Prop) s :
  Py.pure m ->
  (forall e, m s = (Py.Raised e, s, []) -> Q (Py.Raised e, s, [])) ->
  (forall a, m s = (Py.Next a, s, []) -> Q (k a s)) ->
  Q (Py.bind m k s).
Proof.
  intros Hm He Ha. destruct (Hm s) as [r Hr]. unfold Py.bind. rewrite Hr.
  destruct r as [a | e]; cbn.
  - specialize (Ha a). rewrite Hr in Ha. specialize (Ha eq_refl).
    destruct (k a s) as [[o s2] t2]. exact Ha.
  - apply He. rewrite Hr. reflexivity.
Qed.

Lemma pure_next {A} (m : M A) s a s' tr :
  Py.pure m -> m s = (Py.Next a, s', tr) -> s' = s /\ tr = [].
Proof.
  intros Hm H. destruct (Hm s) as [r Hr]. rewrite Hr in H.
  destruct r; cbn in H; inversion H; auto.
Qed.

(** A run that completes went through both halves of a [bind]. *)
Lemma bind_next_inv {A B} (m : M A) (k : A -> M B) s b s' tr :
  Py.bind m k s = (Py.Next b, s', tr) ->
  exists a s1 t1 t2,
    m s = (Py.Next a, s1, t1) /\ k a s1 = (Py.Next b, s', t2) /\ tr = t1 ++ t2.
Proof.
  unfold Py.bind. destruct (m s) as [[o s1] t1].
  destruct o as [a | r | e]; try discriminate.
  destruct (k a s1) as [[o2 s2] t2] eqn:Hk. intros H. inversion H; subst.
  exists a, s1, t1, t2. auto.
Qed.

Lemma bind_next {A B} (m : M A) (k : A -> M B) s a s1 t1 :
  m s = (Py.Next a, s1, t1) ->
  Py.bind m k s
  = (Py.outcome_of (k a s1), Py.state_of (k a s1), t1 ++ Py.trace_of (k a s1)).
Proof.
  intros H. unfold Py.bind. rewrite H. destruct (k a s1) as [[o s2] t2]. reflexivity.
Qed.

Lemma bind_raised {A B} (m : M A) (k : A -> M B) s e s1 t1 :
  m s = (Py.Raised e, s1, t1) -> Py.bind m k s = (Py.Raised e, s1, t1).
Proof. intros H. unfold Py.bind. rewrite H. reflexivity. Qed.

(** What follows a computation is judged on the states it can leave. *)
Lemma emits_bind_next (P : Ev -> Prop) {A B} (m : M A) (k : A -> M B) :
  Py.emits P m ->
  (forall s a s1 t1, m s = (Py.Next a, s1, t1) -> Forall P (Py.trace_of (k a s1))) ->
  Py.emits P (Py.bind m k).
Proof.
  intros Hm Hk s. specialize (Hm s). unfold Py.bind, Py.trace_of in *.
  destruct (m s) as [[o s1] t1] eqn:Hms; cbn in Hm.
  destruct o as [a | r | e]; cbn; try exact Hm.
  specialize (Hk s a s1 t1 Hms). unfold Py.trace_of in Hk.
  destruct (k a s1) as [[o2 s2] t2]; cbn in *.
  apply Forall_app; split; assumption.
Qed.

End Pure.

(** Inverting small runs, and weakening what a trace is allowed. *)
Lemma lift_next {St Ev R A} (r : Py.result A) (s : St) x s' (tr : list Ev) :
  (Py.lift r : @Py.M St Ev R A) s = (Py.Next x, s', tr) ->
  r = Py.Success x /\ s' = s /\ tr = [].
Proof. destruct r; cbn; intros H; inversion H; auto. Qed.

Lemma emits_weaken {St Ev R A} (P Q : Ev -> Prop) (m : @Py.M St Ev R A) :
  (forall e, P e -> Q e) -> Py.emits P m -> Py.emits Q m.
Proof. intros HPQ Hm s. eapply Forall_impl; [apply Hm | exact HPQ]. Qed.

Ltac pure_step :=
  first
    [ apply pure_ret | apply pure_raise | apply pure_lift
    | apply pure_bind; [| intros ?]
    | apply pure_try_except; [| intros ?]
    | apply pure_for_fold; intros ? ?
    | match goal with
      | |- Py.pure (match ?x with _ => _ end) => destruct x
      | |- Py.pure (if ?x then _ else _) => destruct x
      end ].

End PyFacts.


Module SunConditionFacts.
Import SunCondition.

Lemma none_is_no_condition_result : ~ is_condition_result Py.VNone.
Proof. intros (sat & score & H & _). discriminate H. Qed.

(** C6, counterexample: called with a time, a location and a target,
    while the ephemeris service fails on every request, [__call__]
    returns [None], which is not a [ConditionResult]. *)
Lemma sun_condition_call_yields_none :
  let eph := {| sun_position := fun (_ _ : nat) => Py.Failure (Py.LibraryError "ephemeris") |} in
  call (Target := nat) eph default (Some 0%nat) (Some 0%nat) (Some 0%nat) tt
    = (Py.Next Py.VNone, tt, [])
  /\ ~ is_condition_result Py.VNone.
Proof.
  split.
  - reflexivity.
  - exact none_is_no_condition_result.
Qed.

(** C6, as amended: for every time, location and target, whatever the
    ephemeris service would answer, [SunCondition.__call__] consults
    nothing, does not raise and returns [None]; [None] tests false and
    is no [ConditionResult] with a flag and a score. *)
Theorem sun_condition_call_total :
  forall (Time Location Target : Type) (eph : ephemeris Time Location)
         (self : instance) (t : option Time) (l : option Location)
         (tg : option Target),
    call eph self t l tg tt = (Py.Next Py.VNone, tt, [])
    /\ Py.truthy Py.VNone = false
    /\ ~ is_condition_result Py.VNone.
Proof.
  intros Time Location Target eph self t l tg.
  split; [| split].
  - unfold call, Py.ret. reflexivity.
  - reflexivity.
  - exact none_is_no_condition_result.
Qed.

(** X12: [__str__] returns [None], so [repr] of a [SunCondition]
    raises [TypeError]; [from_string] and [plot] return [None]. *)
Theorem repr_raises_type_error :
  forall (self : instance) (s : string) (st : unit),
    str self st = (Py.Next Py.VNone, st, [])
    /\ repr self st = (Py.Raised Py.TypeError, st, [])
    /\ from_string self s st = (Py.Next Py.VNone, st, [])
    /\ plot self st = (Py.Next Py.VNone, st, []).
Proof. intros self s st. repeat split. Qed.

End SunConditionFacts.

Module CcdCalibFacts.
Import CcdCalib PyFacts.

Section Facts.
Context {ndarray float64 : Type}.
Variable np : numpy ndarray float64.
Variable fs : filesystem.

Lemma emits_fits_read path : Py.emits is_load (fits_read (ndarray := ndarray) path).
Proof. unfold fits_read. repeat emits_step. Qed.

Lemma emits_hdr_get2 h k1 k2 : Py.emits is_load (hdr_get2 (ndarray := ndarray) h k1 k2).
Proof. unfold hdr_get2, except_key_error. repeat emits_step. Qed.

Lemma emits_hdr_exptime h : Py.emits is_load (hdr_exptime np h).
Proof. unfold hdr_exptime, except_key_error, py_round3. repeat emits_step. Qed.

Lemma emits_hdr_bin h k1 k2 : Py.emits is_load (hdr_bin (ndarray := ndarray) h k1 k2).
Proof. unfold hdr_bin. repeat emits_step. Qed.

Lemma emits_hdr_filter h : Py.emits is_load (hdr_filter (ndarray := ndarray) h).
Proof. unfold hdr_filter, except_key_error. repeat emits_step. Qed.

Lemma emits_local {A} name (v : option A) : Py.emits is_load (local (ndarray := ndarray) name v).
Proof. unfold local. repeat emits_step. Qed.

Lemma emits_replace_spaces v : Py.emits is_load (replace_spaces (ndarray := ndarray) v).
Proof. unfold replace_spaces. repeat emits_step. Qed.

Lemma emits_scaled_dark fr dk t : Py.emits is_load (scaled_dark np fr dk t).
Proof.
  unfold scaled_dark, exptime_ratio.
  repeat first [ apply emits_local | emits_step ].
Qed.

Lemma emits_subtract_bias_dark a fr dk t img :
  Py.emits is_load (subtract_bias_dark np a fr dk t img).
Proof.
  unfold subtract_bias_dark.
  repeat first [ apply emits_local | apply emits_scaled_dark | emits_step ].
Qed.

Lemma emits_apply_flat a fr dk fl flat_arr img :
  Py.emits is_load (apply_flat np a fr dk fl flat_arr img).
Proof.
  unfold apply_flat.
  repeat first [ apply emits_local | apply emits_scaled_dark | emits_step ].
Qed.

Lemma emits_remove_hot_pixels a img hdr :
  Py.emits is_load (remove_hot_pixels np a img hdr).
Proof. unfold remove_hot_pixels. repeat emits_step. Qed.

Lemma emits_load_bias path : Py.emits is_load (load_bias np path).
Proof.
  unfold load_bias.
  repeat first [ apply emits_fits_read | apply emits_hdr_get2 | apply emits_hdr_exptime
               | apply emits_hdr_bin | apply emits_hdr_filter | emits_step ].
Qed.

Lemma emits_load_flat path : Py.emits is_load (load_flat np path).
Proof.
  unfold load_flat.
  repeat first [ apply emits_fits_read | apply emits_hdr_get2 | apply emits_hdr_exptime
               | apply emits_hdr_bin | apply emits_hdr_filter | emits_step ].
Qed.

Lemma emits_load_flat_dark path : Py.emits is_load (load_flat_dark (ndarray := ndarray) path).
Proof.
  unfold load_flat_dark.
  repeat first [ apply emits_fits_read | apply emits_hdr_get2
               | apply emits_hdr_bin | apply emits_hdr_filter | emits_step ].
Qed.

Lemma emits_load_frames a : Py.emits is_load (load_frames np a).
Proof.
  unfold load_frames, load_if_given, load_dark.
  repeat first [ apply emits_load_bias | apply emits_load_flat
               | apply emits_load_flat_dark | emits_step ].
Qed.

(** Iterating over the option text yields its characters. *)
Lemma bc_iter_text s :
  Forall (fun v => exists c, v = Py.VStr (String c EmptyString)) (bc_iter (BCStr s))
  /\ length (bc_iter (BCStr s)) = String.length s.
Proof.
  unfold bc_iter. induction s as [| c s [IH1 IH2]]; cbn.
  - split; [constructor | reflexivity].
  - split.
    + constructor; [exists c; reflexivity | exact IH1].
    + f_equal. exact IH2.
Qed.

Lemma fix_column_text img c st :
  fix_column np img (Py.VStr c) st = (Py.Raised Py.TypeError, st, []).
Proof. reflexivity. Qed.

Lemma fix_bad_columns_text img s st :
  s <> EmptyString ->
  fix_bad_columns np img (BCStr s) st = (Py.Raised Py.TypeError, st, []).
Proof.
  intros Hs. destruct s as [| c s]; [contradiction |].
  unfold fix_bad_columns. cbn [bc_len String.length Nat.ltb Nat.leb].
  cbn [bc_iter Py.chars fmap list_fmap Py.for_fold].
  unfold Py.bind. rewrite fix_column_text. reflexivity.
Qed.

Lemma stops_fix_bad_columns_text img s :
  s <> EmptyString -> Py.stops (fix_bad_columns np img (BCStr s)).
Proof.
  intros Hs st x. rewrite fix_bad_columns_text by exact Hs. discriminate.
Qed.

Lemma emits_fix_bad_columns_text img s :
  s <> EmptyString -> Py.emits is_load (fix_bad_columns np img (BCStr s)).
Proof.
  intros Hs st. rewrite fix_bad_columns_text by exact Hs. constructor.
Qed.

Ltac to_bad_columns tac :=
  repeat lazymatch goal with
         | |- _ (Py.bind (fix_bad_columns _ _ _) _) => fail
         | |- _ (Py.bind _ _) => tac
         end.

Lemma stops_calibrate a fr flat_arr fname s :
  bad_columns a = BCStr s -> s <> EmptyString ->
  Py.stops (calibrate np a fr flat_arr fname).
Proof.
  intros Ha Hs. unfold calibrate. rewrite Ha. cbv zeta.
  to_bad_columns ltac:(apply stops_bind_r; intros ?).
  apply stops_bind_l. apply stops_fix_bad_columns_text. exact Hs.
Qed.

Lemma emits_calibrate a fr flat_arr fname s :
  bad_columns a = BCStr s -> s <> EmptyString ->
  Py.emits is_load (calibrate np a fr flat_arr fname).
Proof.
  intros Ha Hs. unfold calibrate. rewrite Ha. cbv zeta.
  to_bad_columns ltac:(apply emits_bind; [| intros ?]).
  all: try (apply emits_bind_stops;
            [ apply emits_fix_bad_columns_text; exact Hs
            | apply stops_fix_bad_columns_text; exact Hs ]).
  all: unfold except_key_error;
    repeat first [ apply emits_fits_read | apply emits_hdr_exptime | apply emits_hdr_bin
                 | apply emits_hdr_filter | apply emits_local | apply emits_replace_spaces
                 | apply emits_subtract_bias_dark | apply emits_apply_flat
                 | apply emits_remove_hot_pixels | emits_step ].
Qed.


Lemma emits_calibrate_all a f s :
  bad_columns a = BCStr s -> s <> EmptyString ->
  Py.emits is_load (calibrate_all np fs a f).
Proof.
  intros Ha Hs. unfold calibrate_all.
  apply emits_bind; [apply emits_load_frames | intros fr].
  apply emits_bind; [| intros ?; apply emits_ret].
  apply emits_for_fold. intros flat_arr fname.
  eapply emits_calibrate; eassumption.
Qed.

Lemma calibrate_all_with_fnames a names f :
  calibrate_all np fs (with_fnames a names) f = calibrate_all np fs a f.
Proof. destruct a. reflexivity. Qed.

Lemma ccd_calib_cons a f rest st :
  ccd_calib np fs (with_fnames a (f :: rest)) st = calibrate_all np fs a f st.
Proof.
  unfold ccd_calib. cbn [with_fnames fnames Py.index lookup list_lookup Py.lift].
  unfold Py.bind at 1. cbn [Py.ret].
  rewrite calibrate_all_with_fnames.
  destruct (calibrate_all np fs a f st) as [[o s1] t1]. reflexivity.
Qed.

(** C9: [ccd_calib] works on [fnames[0]] alone.  With [fnames] equal
    to [f :: rest] the run is the run on [[f]], namely the calibration
    of [f] itself when it is a file and of the [*.fts], [*.fits] and
    [*.fit] files of [f] when it is a directory; with an empty [fnames]
    the call raises [IndexError] having loaded no frame. *)
Theorem ccd_calib_first_fname_only :
  forall (a : args) (f : string) (rest : list string) (st : store),
    ccd_calib np fs (with_fnames a (f :: rest)) st
      = ccd_calib np fs (with_fnames a [f]) st
    /\ ccd_calib np fs (with_fnames a (f :: rest)) st = calibrate_all np fs a f st
    /\ (isfile fs f = true -> targets fs f = [f])
    /\ (isfile fs f = false -> isdir fs f = true ->
        targets fs f = glob fs (f +:+ "/*.fts") ++ glob fs (f +:+ "/*.fits")
                         ++ glob fs (f +:+ "/*.fit"))
    /\ ccd_calib np fs (with_fnames a []) st = (Py.Raised Py.IndexError, st, []).
Proof.
  intros a f rest st.
  split; [| split; [| split; [| split]]].
  - rewrite !ccd_calib_cons. reflexivity.
  - apply ccd_calib_cons.
  - intros Hf. unfold targets. rewrite Hf. reflexivity.
  - intros Hf Hd. unfold targets. rewrite Hf, Hd. reflexivity.
  - reflexivity.
Qed.

(** C10: when [bad_columns] is a non-empty text, the loop variable
    runs over its characters, one-character strings, as many as the
    text is long (separators included); the correction raises
    [TypeError] at the first of them, with the image untouched, and no
    run of [ccd_calib] with such an argument writes a calibrated image. *)
Theorem bad_columns_text_raises :
  forall (img : ndarray) (s : string) (st : store),
    s <> EmptyString ->
    Forall (fun v => exists c, v = Py.VStr (String c EmptyString)) (bc_iter (BCStr s))
    /\ length (bc_iter (BCStr s)) = String.length s
    /\ fix_bad_columns np img (BCStr s) st = (Py.Raised Py.TypeError, st, [])
    /\ (forall a, bad_columns a = BCStr s -> Py.emits is_load (ccd_calib np fs a)).
Proof.
  intros img s st Hs.
  destruct (bc_iter_text s) as [Hchars Hlen].
  split; [exact Hchars | split; [exact Hlen | split]].
  - apply fix_bad_columns_text. exact Hs.
  - intros a Ha. unfold ccd_calib.
    apply emits_bind; [apply emits_lift | intros f].
    eapply emits_calibrate_all; eassumption.
Qed.

End Facts.

(** C10, witness: the option text ["3,5"] on the sample image. *)
Lemma bad_columns_text_raises_witness :
  "3,5" <> EmptyString
  /\ fix_bad_columns Sample.np Sample.image (BCStr "3,5") Sample.disk
       = (Py.Raised Py.TypeError, Sample.disk, []).
Proof.
  assert (H : "3,5" <> EmptyString) by discriminate.
  split; [exact H |].
  exact (proj1 (proj2 (proj2
           (bad_columns_text_raises Sample.np Sample.files Sample.image "3,5"
              Sample.disk H)))).
Defined.

(** A sequence of integers is what the loop was written for: column 2
    of the sample image becomes the mean of columns 1 and 3. *)
Example bad_columns_integers :
  Py.outcome_of (fix_bad_columns Sample.np Sample.image (BCSeq [Py.VInt 2]) Sample.disk)
  = Py.Next [ [ 10; 20; 60 # 2; 40 ]%Q; [ 1; 3; 8 # 2; 5 ]%Q ].
Proof. vm_compute. reflexivity. Qed.

(** Only the second of ["night"; "zzz"] is ignored: the two images of
    the directory are calibrated and written. *)
Example ccd_calib_directory :
  Py.trace_of (ccd_calib Sample.np Sample.files
                 (Sample.calib_args [ "night"; "zzz" ] (BCStr "")) Sample.disk)
  = [ Load "bias.fts"; Load "dark.fts"; Load "flat.fts";
      Load "night/a.fts"; Write "night/a_cal.fts";
      Load "night/b.fts"; Write "night/b_cal.fts" ].
Proof. vm_compute. reflexivity. Qed.

(** *** Runs of the calibration *)

Section Runs.
Context {ndarray float64 : Type}.
Variable np : numpy ndarray float64.
Variable fs : filesystem.

Lemma pure_except_key_error {A} (body handler : M (ndarray := ndarray) A) :
  Py.pure body -> Py.pure handler -> Py.pure (except_key_error body handler).
Proof.
  intros Hb Hh. unfold except_key_error. apply pure_try_except; [exact Hb |].
  intros e. destruct e; first [exact Hh | apply pure_raise].
Qed.

Lemma pure_hdr_get2 h k1 k2 : Py.pure (hdr_get2 (ndarray := ndarray) h k1 k2).
Proof. unfold hdr_get2. apply pure_except_key_error; apply pure_lift. Qed.

Lemma pure_py_round3 v : Py.pure (py_round3 np v).
Proof. unfold py_round3. repeat pure_step. Qed.

Lemma pure_hdr_exptime h : Py.pure (hdr_exptime np h).
Proof.
  unfold hdr_exptime.
  apply pure_except_key_error; (apply pure_bind; [apply pure_lift | intros v; apply pure_py_round3]).
Qed.

Lemma pure_hdr_bin h k1 k2 : Py.pure (hdr_bin (ndarray := ndarray) h k1 k2).
Proof. unfold hdr_bin. repeat pure_step. Qed.

Lemma pure_hdr_filter h : Py.pure (hdr_filter (ndarray := ndarray) h).
Proof. unfold hdr_filter. apply pure_except_key_error; [apply pure_lift | apply pure_ret]. Qed.

Lemma pure_local {A} name (v : option A) : Py.pure (local (ndarray := ndarray) name v).
Proof. unfold local. repeat pure_step. Qed.

Lemma pure_replace_spaces v : Py.pure (replace_spaces (ndarray := ndarray) v).
Proof. unfold replace_spaces. repeat pure_step. Qed.

Lemma pure_exptime_ratio x y : Py.pure (exptime_ratio (ndarray := ndarray) x y).
Proof. unfold exptime_ratio. repeat pure_step. Qed.

Lemma pure_scaled_dark fr dk t : Py.pure (scaled_dark np fr dk t).
Proof.
  unfold scaled_dark.
  repeat first [ apply pure_local | apply pure_exptime_ratio | pure_step ].
Qed.

Lemma pure_subtract_bias_dark a fr dk t img : Py.pure (subtract_bias_dark np a fr dk t img).
Proof.
  unfold subtract_bias_dark.
  repeat first [ apply pure_local | apply pure_scaled_dark | pure_step ].
Qed.

Lemma pure_apply_flat a fr dk fl flat_arr img :
  Py.pure (apply_flat np a fr dk fl flat_arr img).
Proof.
  unfold apply_flat.
  repeat first [ apply pure_local | apply pure_scaled_dark | pure_step ].
Qed.

Lemma pure_remove_hot_pixels a img hdr : Py.pure (remove_hot_pixels np a img hdr).
Proof. unfold remove_hot_pixels. repeat pure_step. Qed.

Lemma pure_column img j : Py.pure (column np img j).
Proof. unfold column. repeat pure_step. Qed.

Lemma pure_set_column img j c : Py.pure (set_column np img j c).
Proof. unfold set_column. repeat pure_step. Qed.

Lemma pure_fix_column img j : Py.pure (fix_column np img j).
Proof.
  unfold fix_column. repeat first [ apply pure_column | apply pure_set_column | pure_step ].
Qed.

Lemma pure_fix_bad_columns img bad : Py.pure (fix_bad_columns np img bad).
Proof.
  unfold fix_bad_columns. destruct (0 <? bc_len bad)%nat; [| apply pure_ret].
  apply pure_for_fold. intros b x. apply pure_fix_column.
Qed.

Lemma fits_read_run path (st : store (ndarray := ndarray)) :
  fits_read path st
  = (match st !! path with
     | Some f => Py.Next f
     | None => Py.Raised (Py.LibraryError "fits")
     end, st, [Load path]).
Proof.
  unfold fits_read. rewrite bind_get. unfold Py.bind, Py.emit.
  destruct (st !! path); reflexivity.
Qed.

Lemma fits_write_run path (d : ndarray) h (st : store) :
  fits_write path d h st = (Py.Next tt, <[path := (d, h)]> st, [Write path]).
Proof. unfold fits_write. rewrite bind_get. reflexivity. Qed.


Lemma cards_foldl_add_comment h l : cards (foldl add_comment h l) = cards h.
Proof. revert h. induction l as [| c l IH]; intros h; cbn; [reflexivity | rewrite IH; reflexivity]. Qed.

Lemma comments_foldl_add_comment h l : comments (foldl add_comment h l) = comments h ++ l.
Proof.
  revert h. induction l as [| c l IH]; intros h; cbn.
  - rewrite app_nil_r. reflexivity.
  - rewrite IH. cbn. rewrite <- app_assoc. reflexivity.
Qed.

Lemma remove_hot_pixels_next a img hdr st ch st' tr :
  remove_hot_pixels np a img hdr st = (Py.Next ch, st', tr) ->
  cards ch.2 = cards hdr /\ comments hdr `prefix_of` comments ch.2.
Proof.
  unfold remove_hot_pixels. destruct (0 <? (astro_scrappy a).1)%Z.
  - intros H. apply bind_next_inv in H. destruct H as (c & s1 & t1 & t2 & _ & H & _).
    inversion H; subst. cbn. split; [reflexivity |].
    rewrite <- app_assoc. apply prefix_app_r. reflexivity.
  - intros H. inversion H; subst. split; reflexivity.
Qed.

Lemma local_next {A} name (v : option A) (st : store (ndarray := ndarray)) x st' tr :
  local name v st = (Py.Next x, st', tr) -> v = Some x.
Proof. destruct v; cbn; intros H; inversion H; subst; reflexivity. Qed.

Lemma calibrate_run a fr flat_arr fname st :
  calibrated np a fr flat_arr fname st (calibrate np a fr flat_arr fname st).
Proof.
  unfold calibrate.
  pose proof (fits_read_run fname st) as Hread.
  destruct (st !! fname) as [[image hdr] |] eqn:Hf.
  2:{ left. eexists. apply bind_raised. exact Hread. }
  rewrite (bind_next _ _ _ _ _ _ Hread). cbn [fst snd].
  set (Q := fun run : Py.outcome unit (option ndarray) * store * list event =>
              calibrated np a fr flat_arr fname st
                (Py.outcome_of run, Py.state_of run, [Load fname] ++ Py.trace_of run)).
  match goal with |- calibrated _ _ _ _ _ _ (Py.outcome_of ?r, _, _) => change (Q r) end.
  assert (Hfail : forall e, Q (Py.Raised e, st, [])).
  { intros e. left. exists e. reflexivity. }
  apply bind_pure; [apply pure_hdr_filter | intros e _; apply Hfail | intros image_filter _].
  apply bind_pure; [| intros e _; apply Hfail | intros image_readout_mode _].
  { apply pure_except_key_error;
      (apply pure_bind; [apply pure_lift | intros v; apply pure_replace_spaces]). }
  apply bind_pure; [apply pure_hdr_exptime | intros e _; apply Hfail | intros image_exptime _].
  apply bind_pure; [apply pure_hdr_bin | intros e _; apply Hfail | intros image_xbin _].
  apply bind_pure; [apply pure_hdr_bin | intros e _; apply Hfail | intros image_ybin _].
  apply bind_pure; [apply pure_local | intros e _; apply Hfail | intros dk Hdk].
  apply bind_pure; [apply pure_local | intros e _; apply Hfail | intros fl Hfl].
  apply bind_pure; [| intros e _; apply Hfail | intros [] Hcmos].
  { destruct (is_cmos a); [| apply pure_ret].
    apply pure_bind; [apply pure_local | intros ?; apply pure_ret]. }
  apply bind_pure; [apply pure_subtract_bias_dark | intros e _; apply Hfail | intros cal1 Hcal1].
  apply bind_pure; [apply pure_apply_flat | intros e _; apply Hfail | intros [c fa] Hcf].
  apply bind_pure; [apply pure_remove_hot_pixels | intros e _; apply Hfail | intros ch Hch].
  apply bind_pure; [apply pure_fix_bad_columns | intros e _; apply Hfail | intros cal6 _].
  apply local_next in Hdk, Hfl.
  apply remove_hot_pixels_next in Hch. destruct Hch as [Hcards Hcomments].
  cbn [fst snd] in *.
  assert (Hwritten : forall out,
            (in_place a = true /\ out = fname
             \/ in_place a = false
                /\ exists stem, before_first_dot fname = Some stem
                                /\ out = stem +:+ "_cal.fts") ->
            calibrated np a fr flat_arr fname st
              (Py.Next fa, <[out := (cal6, hdr_set ch.2 "CALSTAT" (HBool true))]> st,
               [Load fname; Write out])).
  { intros out Hout. right.
    exists image, hdr, dk, fl, image_exptime, cal1, c, cal6,
      (hdr_set ch.2 "CALSTAT" (HBool true)), out, fa.
    split; [exact Hf |]. split; [reflexivity |].
    split; [exact Hdk |]. split; [exact Hfl |].
    split.
    { intros Hc. rewrite Hc in Hcmos. intros Hnone. rewrite Hnone in Hcmos.
      discriminate Hcmos. }
    split; [exact Hcal1 |]. split; [exact Hcf |]. split; [exact Hout |].
    split.
    - cbn [hdr_set cards]. rewrite Hcards. cbn [hdr_set cards].
      rewrite cards_foldl_add_comment. reflexivity.
    - cbn [hdr_set comments]. etransitivity; [| exact Hcomments].
      cbn [hdr_set comments]. rewrite comments_foldl_add_comment. reflexivity. }
  unfold Q, write_calibrated.
  destruct (in_place a) eqn:Hin.
  - rewrite (bind_next _ _ _ _ _ _ (fits_write_run _ _ _ _)). cbn.
    apply Hwritten. left. auto.
  - destruct (before_first_dot fname) as [stem |] eqn:Hstem.
    + rewrite (bind_next _ _ _ _ _ _ (fits_write_run _ _ _ _)). cbn.
      apply Hwritten. right. split; [reflexivity |]. exists stem. auto.
    + left. eexists. reflexivity.
Qed.


(** *** Master frames *)

Lemma load_frames_next a st fr st' tr :
  load_frames np a st = (Py.Next fr, st', tr) -> unbound_as_given a fr.
Proof.
  unfold load_frames. intros H.
  apply bind_next_inv in H. destruct H as (bf & s1 & t1 & t2 & Hbf & H & _).
  apply bind_next_inv in H. destruct H as (d & s2 & t3 & t4 & Hd & H & _).
  apply bind_next_inv in H. destruct H as (f & s3 & t5 & t6 & Hfl & H & _).
  inversion H; subst fr. clear H.
  unfold unbound_as_given. cbn [dark flat bias flat_dark].
  split; [| split; [| split]].
  - intros Hn. rewrite Hn in Hd. inversion Hd. reflexivity.
  - intros Hn. rewrite Hn in Hfl. inversion Hfl. reflexivity.
  - intros Hc Hn. rewrite Hc, Hn in Hbf. cbn in Hbf. inversion Hbf. reflexivity.
  - intros Hc Hn. destruct (is_ccd a) eqn:Hccd.
    + exfalso. unfold is_ccd in Hccd. unfold is_cmos in Hc.
      apply String.eqb_eq in Hccd. rewrite Hccd in Hc. discriminate Hc.
    + rewrite Hc, Hn in Hbf. cbn in Hbf. inversion Hbf. reflexivity.
Qed.

(** With a frame missing, no pass of the loop body completes. *)
Lemma calibrate_missing a fr flat_arr fname st :
  frame_missing a -> unbound_as_given a fr ->
  exists e, calibrate np a fr flat_arr fname st = (Py.Raised e, st, [Load fname]).
Proof.
  intros Hmiss (Hd & Hf & Hb & Hfd).
  destruct (calibrate_run a fr flat_arr fname st) as [Hfail | Hok]; [exact Hfail |].
  exfalso.
  destruct Hok as (image & hdr & dk & fl & t & cal1 & c & data & hdr' & out & fa
                   & _ & _ & Hdk & Hfl & Hcmos & Hsub & _).
  destruct Hmiss as [Hm | [Hm | [[Hc Hm] | [Hc Hm]]]].
  - rewrite (Hd Hm) in Hdk. discriminate.
  - rewrite (Hf Hm) in Hfl. discriminate.
  - destruct (dark_frame a) as [pd |] eqn:Hpd.
    + unfold subtract_bias_dark in Hsub. rewrite Hc, Hm, Hpd in Hsub.
      unfold scaled_dark in Hsub. rewrite (Hb Hc Hm) in Hsub. discriminate Hsub.
    + rewrite (Hd eq_refl) in Hdk. discriminate.
  - apply (Hcmos Hc). apply Hfd; assumption.
Qed.

(** X1: the master frames are not optional.  When the dark or the flat
    frame is not given, or the bias frame for a CCD, or the flat-dark
    frame for a CMOS camera, [ccd_calib] only reads files and never
    writes one; and when there is at least one image to calibrate the
    call does not complete. *)
Theorem ccd_calib_needs_every_frame :
  forall (a : args),
    frame_missing a ->
    Py.emits is_load (ccd_calib np fs a)
    /\ (forall f rest, fnames a = f :: rest -> targets fs f <> [] ->
        Py.stops (ccd_calib np fs a)).
Proof.
  intros a Hmiss. split.
  - unfold ccd_calib. apply emits_bind; [apply emits_lift | intros f].
    unfold calibrate_all.
    apply emits_bind_next; [apply emits_load_frames |].
    intros s fr s1 t1 Hfr. apply load_frames_next in Hfr.
    apply emits_bind; [| intros ?; apply emits_ret].
    apply emits_for_fold. intros flat_arr fname s'.
    destruct (calibrate_missing a fr flat_arr fname s' Hmiss Hfr) as [e ->].
    repeat constructor.
  - intros f rest Hf Hne st x Hrun.
    unfold ccd_calib in Hrun. rewrite Hf in Hrun.
    cbn [Py.index lookup list_lookup Py.lift] in Hrun.
    rewrite bind_ret_l in Hrun. unfold calibrate_all in Hrun.
    destruct (load_frames np a st) as [[o s1] t1] eqn:Hfr.
    destruct o as [fr | r | e].
    + rewrite (bind_next _ _ _ _ _ _ Hfr) in Hrun. cbn in Hrun.
      apply load_frames_next in Hfr.
      destruct (targets fs f) as [| fname l]; [contradiction |].
      cbn [Py.for_fold] in Hrun.
      destruct (calibrate_missing a fr (cf_data <$> flat fr) fname s1 Hmiss Hfr) as [e He].
      rewrite (bind_assoc _ _ _ s1) in Hrun.
      rewrite (bind_raised _ _ _ _ _ _ He) in Hrun. discriminate Hrun.
    + unfold Py.bind in Hrun. rewrite Hfr in Hrun. discriminate Hrun.
    + unfold Py.bind in Hrun. rewrite Hfr in Hrun. discriminate Hrun.
Qed.


(** *** One pass of the loop *)

(** X2: one pass of the loop is all or nothing.  Either it raises,
    having read the image once and left every file as it was; or it
    completes, having read the image once and written exactly one file:
    the image itself with [in_place], otherwise the file named by the
    text before the first dot of the image path followed by
    [_cal.fts]. *)
Theorem calibrate_all_or_nothing :
  forall (a : args) (fr : frames) (flat_arr : option ndarray) (fname : string)
         (st : store),
    (exists e, calibrate np a fr flat_arr fname st = (Py.Raised e, st, [Load fname]))
    \/ (exists fa out data hdr,
          calibrate np a fr flat_arr fname st
            = (Py.Next fa, <[out := (data, hdr)]> st, [Load fname; Write out])
          /\ (if in_place a then out = fname
              else exists stem, before_first_dot fname = Some stem
                                /\ out = stem +:+ "_cal.fts")).
Proof.
  intros a fr flat_arr fname st.
  destruct (calibrate_run a fr flat_arr fname st) as [Hfail | Hok]; [left; exact Hfail |].
  right.
  destruct Hok as (image & hdr & dk & fl & t & cal1 & c & data & hdr' & out & fa
                   & _ & Hrun & _ & _ & _ & _ & _ & Hout & _).
  exists fa, out, data, hdr'. split; [exact Hrun |].
  destruct Hout as [[-> ->] | [-> Hstem]]; [reflexivity | exact Hstem].
Qed.

(** X3: the header written with a calibrated image.  When a pass
    completes, the file it wrote holds the cards of the header it read
    with [CALSTAT] set to [True] and [PEDESTAL] set to the [pedestal]
    argument, every other card unchanged, and its comments start with
    the comments read followed by the eight calibration comments. *)
Theorem calibrated_header :
  forall (a : args) (fr : frames) (flat_arr : option ndarray) (fname : string)
         (st st' : store) (fa : option ndarray) (tr : list event),
    calibrate np a fr flat_arr fname st = (Py.Next fa, st', tr) ->
    exists image hdr out data hdr',
      st !! fname = Some (image, hdr)
      /\ tr = [Load fname; Write out]
      /\ st' !! out = Some (data, hdr')
      /\ hdr_get hdr' "CALSTAT" = Py.Success (HBool true)
      /\ hdr_get hdr' "PEDESTAL" = Py.Success (HNum (inject_Z (pedestal a)))
      /\ (forall k, k <> "CALSTAT" -> k <> "PEDESTAL" -> hdr_get hdr' k = hdr_get hdr k)
      /\ comments hdr ++ calibration_comments `prefix_of` comments hdr'.
Proof.
  intros a fr flat_arr fname st st' fa tr Hrun.
  destruct (calibrate_run a fr flat_arr fname st) as [[e Hfail] | Hok].
  { rewrite Hfail in Hrun. discriminate Hrun. }
  destruct Hok as (image & hdr & dk & fl & t & cal1 & c & data & hdr' & out & fa'
                   & Himg & Hrun' & _ & _ & _ & _ & _ & _ & Hcards & Hcomments).
  rewrite Hrun' in Hrun. inversion Hrun; subst.
  exists image, hdr, out, data, hdr'.
  split; [exact Himg |]. split; [reflexivity |].
  split; [apply (lookup_insert_eq (M := gmap string)) |].
  unfold hdr_get. rewrite Hcards.
  split; [rewrite lookup_insert_eq; reflexivity |].
  split.
  { rewrite lookup_insert_ne by discriminate. rewrite lookup_insert_eq. reflexivity. }
  split; [| exact Hcomments].
  intros k Hk1 Hk2. rewrite !lookup_insert_ne by congruence. reflexivity.
Qed.

(** *** The name of the output file *)

Lemma before_first_dot_some s : forall stem,
  before_first_dot s = Some stem ->
  has_dot stem = false /\ exists rest, s = stem +:+ "." +:+ rest.
Proof.
  induction s as [| c s IH]; intros stem H; cbn in H; [discriminate |].
  destruct (Ascii.eqb c ".") eqn:Hc.
  - inversion H; subst. apply Ascii.eqb_eq in Hc. subst c.
    split; [reflexivity | exists s; reflexivity].
  - destruct (before_first_dot s) as [stem' |]; [| discriminate].
    inversion H; subst. destruct (IH stem' eq_refl) as [Hd [rest Hr]].
    split.
    + cbn. rewrite Hc, Hd. reflexivity.
    + exists rest. cbn. rewrite Hr. reflexivity.
Qed.

Lemma before_first_dot_none s : before_first_dot s = None -> has_dot s = false.
Proof.
  induction s as [| c s IH]; cbn; [reflexivity |].
  destruct (Ascii.eqb c "."); [discriminate |].
  destruct (before_first_dot s); [discriminate |].
  intros _. apply IH. reflexivity.
Qed.

Lemma before_first_dot_app stem rest :
  has_dot stem = false -> before_first_dot (stem +:+ "." +:+ rest) = Some stem.
Proof.
  induction stem as [| c stem IH]; [reflexivity |].
  cbn [String.append before_first_dot has_dot].
  intros H. apply orb_false_iff in H. destruct H as [Hc Hd].
  change (String c stem +:+ "." +:+ rest) with (String c (stem +:+ "." +:+ rest)).
  cbn [before_first_dot]. rewrite Hc. rewrite (IH Hd). reflexivity.
Qed.

Lemma cal_name_is_new stem rest : stem +:+ "_cal.fts" <> stem +:+ "." +:+ rest.
Proof.
  induction stem as [| c stem IH]; cbn.
  - discriminate.
  - intros H. inversion H. contradiction.
Qed.

(** X4: [fname.split(".")[:-1][0]] is the text before the first dot
    of [fname]: that text has no dot and [fname] is it, a dot and a
    remainder; on a name without a dot there is no such text (the
    subscript raises [IndexError]). *)
Theorem before_first_dot_spec :
  forall (s : string),
    match before_first_dot s with
    | Some stem => has_dot stem = false /\ exists rest, s = stem +:+ "." +:+ rest
    | None => has_dot s = false
    end.
Proof.
  intros s. destruct (before_first_dot s) as [stem |] eqn:H.
  - apply before_first_dot_some. exact H.
  - apply before_first_dot_none. exact H.
Qed.

(** X5: without [in_place], a pass of the loop never changes the file
    it calibrates, whether it completes or raises. *)
Theorem image_file_is_kept :
  forall (a : args) (fr : frames) (flat_arr : option ndarray) (fname : string)
         (st st' : store) (o : Py.outcome unit (option ndarray)) (tr : list event),
    in_place a = false ->
    calibrate np a fr flat_arr fname st = (o, st', tr) ->
    st' !! fname = st !! fname.
Proof.
  intros a fr flat_arr fname st st' o tr Hin Hrun.
  destruct (calibrate_run a fr flat_arr fname st) as [[e Hfail] | Hok].
  { rewrite Hfail in Hrun. inversion Hrun; subst. reflexivity. }
  destruct Hok as (image & hdr & dk & fl & t & cal1 & c & data & hdr' & out & fa'
                   & _ & Hrun' & _ & _ & _ & _ & _ & Hout & _).
  rewrite Hrun' in Hrun. inversion Hrun; subst.
  destruct Hout as [[Ht _] | [_ (stem & Hstem & ->)]].
  { rewrite Hin in Ht. discriminate Ht. }
  apply before_first_dot_some in Hstem. destruct Hstem as [_ [rest ->]].
  apply (lookup_insert_ne (M := gmap string)). apply cal_name_is_new.
Qed.

(** X6: without [in_place], two images whose paths agree up to their
    first dot are written to the same file, and the second output
    replaces the first. *)
Theorem same_stem_same_output :
  forall (a : args) (stem rest1 rest2 : string) (d1 d2 : ndarray) (h1 h2 : header)
         (st : store),
    in_place a = false ->
    has_dot stem = false ->
    (write_calibrated a (stem +:+ "." +:+ rest1) d1 h1 ;;
     write_calibrated a (stem +:+ "." +:+ rest2) d2 h2) st
    = (Py.Next tt, <[stem +:+ "_cal.fts" := (d2, h2)]> st,
       [Write (stem +:+ "_cal.fts"); Write (stem +:+ "_cal.fts")]).
Proof.
  intros a stem rest1 rest2 d1 d2 h1 h2 st Hin Hstem.
  unfold write_calibrated. rewrite Hin, !before_first_dot_app by exact Hstem.
  unfold Py.bind. rewrite fits_write_run. cbv beta iota.
  rewrite fits_write_run. cbv beta iota.
  unfold store. rewrite insert_insert_eq. reflexivity.
Qed.

(** X7: without [in_place], every file that a run of [ccd_calib]
    writes has a name ending in [_cal.fts]. *)
Theorem writes_only_cal_files :
  forall (a : args),
    in_place a = false ->
    Py.emits is_load_or_cal_write (ccd_calib np fs a).
Proof.
  intros a Hin. unfold ccd_calib. apply emits_bind; [apply emits_lift | intros f].
  unfold calibrate_all.
  apply emits_bind; [| intros fr].
  { eapply emits_weaken; [| apply emits_load_frames]. intros [p | p] H; [exact I | destruct H]. }
  apply emits_bind; [| intros ?; apply emits_ret].
  apply emits_for_fold. intros flat_arr fname st.
  destruct (calibrate_run a fr flat_arr fname st) as [[e ->] | Hok].
  { repeat constructor. }
  destruct Hok as (image & hdr & dk & fl & t & cal1 & c & data & hdr' & out & fa'
                   & _ & -> & _ & _ & _ & _ & _ & Hout & _).
  destruct Hout as [[Ht _] | [_ (stem & _ & ->)]].
  { rewrite Hin in Ht. discriminate Ht. }
  repeat constructor. exists stem. reflexivity.
Qed.

(** *** Paths that are neither a file nor a directory *)

(** X8: when [fnames[0]] is neither a file nor a directory, the error
    is only logged and [fnames] stays a string: the loop runs over the
    characters of the path, and right after the master frames the run
    tries to read the file named by the first character. *)
Theorem not_a_path_walks_characters :
  forall (a : args) (c : ascii) (rest : string) (more : list string)
         (st st1 : store) (fr : frames) (t1 : list event),
    fnames a = String c rest :: more ->
    isfile fs (String c rest) = false ->
    isdir fs (String c rest) = false ->
    load_frames np a st = (Py.Next fr, st1, t1) ->
    targets fs (String c rest) = Py.chars (String c rest)
    /\ exists tr, Py.trace_of (ccd_calib np fs a st)
                  = t1 ++ Load (String c EmptyString) :: tr.
Proof.
  intros a c rest more st st1 fr t1 Hf Hfile Hdir Hfr.
  assert (Ht : targets fs (String c rest) = Py.chars (String c rest)).
  { unfold targets. rewrite Hfile, Hdir. reflexivity. }
  split; [exact Ht |].
  unfold ccd_calib. rewrite Hf.
  cbn [Py.index lookup list_lookup Py.lift]. rewrite bind_ret_l.
  unfold calibrate_all. rewrite (bind_next _ _ _ _ _ _ Hfr). cbn [Py.trace_of snd].
  rewrite Ht. cbn [Py.chars Py.for_fold].
  rewrite (bind_assoc _ _ _ st1).
  destruct (calibrate_run a fr (cf_data <$> flat fr) (String c EmptyString) st1)
    as [[e He] | Hok].
  - rewrite (bind_raised _ _ _ _ _ _ He). cbn. exists []. reflexivity.
  - destruct Hok as (image & hdr & dk & fl & t & cal1 & c0 & data & hdr' & out & fa'
                     & _ & Hrun & _).
    rewrite (bind_next _ _ _ _ _ _ Hrun). cbn [Py.trace_of snd].
    eexists. rewrite <- app_comm_cons. reflexivity.
Qed.


(** *** The flat frame across passes *)

Lemma apply_flat_ccd a fr dk fl f0 img st c fa st' tr pb pd pf :
  is_ccd a = true -> bias_frame a = Some pb -> dark_frame a = Some pd ->
  flat_frame a = Some pf ->
  apply_flat np a fr dk fl (Some f0) img st = (Py.Next (c, fa), st', tr) ->
  exists b x sd f1,
    bias fr = Some b
    /\ np_sub np f0 (cf_data b) = Py.Success x
    /\ scaled_dark np fr dk (cf_exptime fl) st = (Py.Next sd, st, [])
    /\ np_sub np x sd = Py.Success f1
    /\ fa = Some (np_div_scalar np f1 (np_mean np f1))
    /\ np_div np img (np_div_scalar np f1 (np_mean np f1)) = Py.Success c.
Proof.
  intros Hccd Hb Hd Hf H. unfold apply_flat in H. rewrite Hccd, Hb, Hd, Hf in H.
  cbn [local] in H. rewrite bind_ret_l in H.
  apply bind_next_inv in H. destruct H as (f1 & s1 & t1 & t2 & H1 & H2 & _).
  apply bind_next_inv in H1. destruct H1 as (x & s2 & t3 & t4 & Hx & Hsd & _).
  apply bind_next_inv in Hx. destruct Hx as (b & s3 & t5 & t6 & Hbias & Hsub & _).
  pose proof (pure_next _ _ _ _ _ (pure_local _ _) Hbias) as [-> _].
  apply local_next in Hbias.
  apply lift_next in Hsub. destruct Hsub as (Hsub & -> & _).
  apply bind_next_inv in Hsd. destruct Hsd as (sd & s4 & t7 & t8 & Hsd & Hsub2 & _).
  pose proof (pure_next _ _ _ _ _ (pure_scaled_dark _ _ _) Hsd) as [-> ->].
  apply lift_next in Hsub2. destruct Hsub2 as (Hsub2 & -> & _).
  apply bind_next_inv in H2. destruct H2 as (c' & s5 & t9 & t10 & Hdiv & Hret & _).
  apply lift_next in Hdiv. destruct Hdiv as (Hdiv & _ & _).
  inversion Hret; subst.
  exists b, x, sd, f1. auto 10.
Qed.

(** X9: the flat is prepared again on every pass.  For a CCD with the
    three master frames, a pass that starts with the array [f0] bound
    to [flat] and completes leaves bound to [flat], for the next image,
    the array [f1 / mean(f1)] where [f1] is [f0] minus the bias minus
    the dark scaled by the flat's exposure time. *)
Theorem flat_is_prepared_on_every_pass :
  forall (a : args) (fr : frames) (f0 : ndarray) (fname : string) (st st' : store)
         (fa : option ndarray) (tr : list event) (pb pd pf : string),
    is_ccd a = true ->
    bias_frame a = Some pb -> dark_frame a = Some pd -> flat_frame a = Some pf ->
    calibrate np a fr (Some f0) fname st = (Py.Next fa, st', tr) ->
    exists b dk fl x sd f1,
      bias fr = Some b /\ dark fr = Some dk /\ flat fr = Some fl
      /\ np_sub np f0 (cf_data b) = Py.Success x
      /\ scaled_dark np fr dk (cf_exptime fl) st = (Py.Next sd, st, [])
      /\ np_sub np x sd = Py.Success f1
      /\ fa = Some (np_div_scalar np f1 (np_mean np f1)).
Proof.
  intros a fr f0 fname st st' fa tr pb pd pf Hccd Hb Hd Hf Hrun.
  destruct (calibrate_run a fr (Some f0) fname st) as [[e Hfail] | Hok].
  { rewrite Hfail in Hrun. discriminate Hrun. }
  destruct Hok as (image & hdr & dk & fl & t & cal1 & c & data & hdr' & out & fa'
                   & _ & Hrun' & Hdk & Hfl & _ & _ & Hcf & _).
  rewrite Hrun' in Hrun. inversion Hrun; subst.
  destruct (apply_flat_ccd _ _ _ _ _ _ _ _ _ _ _ _ _ _ Hccd Hb Hd Hf Hcf)
    as (b & x & sd & f1 & H1 & H2 & H3 & H4 & H5 & _).
  exists b, dk, fl, x, sd, f1. auto 10.
Qed.

(** *** Header cards *)

(** X10: the exposure time of a header is [round(EXPTIME, 3)]; the
    card [EXPOSURE] is read only when [EXPTIME] is missing; an
    [EXPTIME] that is text raises [TypeError] whatever [EXPOSURE]
    holds; with both cards missing the lookup raises [KeyError] for
    [EXPOSURE]. *)
Theorem exposure_time_lookup :
  forall (h : header) (st : store),
    hdr_exptime np h st =
    (match cards h !! "EXPTIME" with
     | Some (HNum q) => Py.Next (round3 np q)
     | Some (HBool b) => Py.Next (inject_Z (Py.Z_of_bool b))
     | Some (HStr _) => Py.Raised Py.TypeError
     | None =>
         match cards h !! "EXPOSURE" with
         | Some (HNum q) => Py.Next (round3 np q)
         | Some (HBool b) => Py.Next (inject_Z (Py.Z_of_bool b))
         | Some (HStr _) => Py.Raised Py.TypeError
         | None => Py.Raised (Py.KeyError "EXPOSURE")
         end
     end, st, []).
Proof.
  intros h st. unfold hdr_exptime, except_key_error, Py.try_except, Py.bind, hdr_get.
  destruct (cards h !! "EXPTIME") as [[s | q | b] |]; try reflexivity.
  cbn. destruct (cards h !! "EXPOSURE") as [[s | q | b] |]; reflexivity.
Qed.


(** *** A whole run *)

Lemma after_fits_read {A} path (k : ndarray * header -> M A) (st : store) x st' tr :
  (forall f, Py.pure (k f)) ->
  Py.bind (fits_read path) k st = (Py.Next x, st', tr) ->
  st' = st /\ tr = [Load path].
Proof.
  intros Hk H. apply bind_next_inv in H. destruct H as (f & s1 & t1 & t2 & Hread & Hrest & ->).
  rewrite fits_read_run in Hread. inversion Hread; subst.
  destruct (pure_next _ _ _ _ _ (Hk f) Hrest) as [-> ->]. auto.
Qed.

Lemma load_bias_next p (st : store) cf st' tr :
  load_bias np p st = (Py.Next cf, st', tr) -> st' = st /\ tr = [Load p].
Proof.
  unfold load_bias. apply after_fits_read. intros f.
  repeat first [ apply pure_hdr_get2 | apply pure_hdr_exptime | apply pure_hdr_bin
               | apply pure_hdr_filter | pure_step ].
Qed.

Lemma load_flat_next p (st : store) cf st' tr :
  load_flat np p st = (Py.Next cf, st', tr) -> st' = st /\ tr = [Load p].
Proof.
  unfold load_flat. apply after_fits_read. intros f.
  repeat first [ apply pure_hdr_get2 | apply pure_hdr_exptime | apply pure_hdr_bin
               | apply pure_hdr_filter | pure_step ].
Qed.

Lemma load_given_next (load : string -> M (ndarray := ndarray) calframe) p
    (st : store) r st' tr :
  (forall cf s s' t, load p s = (Py.Next cf, s', t) -> s' = s /\ t = [Load p]) ->
  load_if_given load (Some p) st = (Py.Next r, st', tr) ->
  st' = st /\ tr = [Load p].
Proof.
  intros Hload H. cbn [load_if_given] in H.
  apply bind_next_inv in H. destruct H as (cf & s1 & t1 & t2 & Hl & Hret & ->).
  inversion Hret; subst. apply Hload in Hl. destruct Hl as [-> ->]. auto.
Qed.

(** X11: a completed run on one image file, for a CCD with the three
    master frames, has read the bias, the dark, the flat and the image,
    in this order and once each, and then written one file; the store
    differs from the initial one in that file only. *)
Theorem ccd_run_on_one_file :
  forall (a : args) (f : string) (rest : list string) (pb pd pf : string)
         (st st' : store) (tr : list event),
    fnames a = f :: rest ->
    isfile fs f = true ->
    is_ccd a = true ->
    bias_frame a = Some pb -> dark_frame a = Some pd -> flat_frame a = Some pf ->
    ccd_calib np fs a st = (Py.Next tt, st', tr) ->
    exists out data hdr,
      tr = [Load pb; Load pd; Load pf; Load f; Write out]
      /\ st' = <[out := (data, hdr)]> st.
Proof.
  intros a f rest pb pd pf st st' tr Hf Hfile Hccd Hb Hd Hfl Hrun.
  unfold ccd_calib in Hrun. rewrite Hf in Hrun.
  cbn [Py.index lookup list_lookup Py.lift] in Hrun. rewrite bind_ret_l in Hrun.
  unfold calibrate_all, targets in Hrun. rewrite Hfile in Hrun.
  apply bind_next_inv in Hrun. destruct Hrun as (fr & s1 & t1 & t2 & Hfr & Hloop & ->).
  unfold load_frames in Hfr. rewrite Hccd, Hb, Hd, Hfl in Hfr.
  apply bind_next_inv in Hfr. destruct Hfr as (bf & s2 & t3 & t4 & Hbias & Hfr & ->).
  apply bind_next_inv in Hbias. destruct Hbias as (b & s3 & t5 & t6 & Hbias & Hret & ->).
  inversion Hret; subst. clear Hret.
  apply (load_given_next _ _ _ _ _ _ (fun cf s s' t => load_bias_next pb s cf s' t)) in Hbias.
  destruct Hbias as [-> ->].
  apply bind_next_inv in Hfr. destruct Hfr as (d & s4 & t7 & t8 & Hdark & Hfr & ->).
  apply (load_given_next _ _ _ _ _ _ (fun cf s s' t => load_bias_next pd s cf s' t)) in Hdark.
  destruct Hdark as [-> ->].
  apply bind_next_inv in Hfr. destruct Hfr as (fl & s5 & t9 & t10 & Hflat & Hret & ->).
  apply (load_given_next _ _ _ _ _ _ (fun cf s s' t => load_flat_next pf s cf s' t)) in Hflat.
  destruct Hflat as [-> ->].
  inversion Hret; subst. clear Hret.
  apply bind_next_inv in Hloop. destruct Hloop as (fa & s6 & t11 & t12 & Hloop & Hret & ->).
  inversion Hret; subst. clear Hret.
  cbn [Py.for_fold] in Hloop.
  apply bind_next_inv in Hloop. destruct Hloop as (fa' & s7 & t13 & t14 & Hcal & Hret & ->).
  inversion Hret; subst. clear Hret.
  match type of Hcal with
  | calibrate _ _ ?fr ?fl _ ?s = _ =>
      destruct (calibrate_run a fr fl f s) as [[e Hfail] | Hok]
  end.
  { rewrite Hfail in Hcal. discriminate Hcal. }
  destruct Hok as (image & hdr & dk & fl' & t & cal1 & c & data & hdr' & out & fa''
                   & _ & Hrun' & _).
  rewrite Hrun' in Hcal. inversion Hcal; subst.
  exists out, data, hdr'. split; reflexivity.
Qed.

End Runs.

(** X1, witness: the sample call without a flat frame. *)
Lemma ccd_calib_needs_every_frame_witness :
  frame_missing (Sample.without_flat (Sample.calib_args [ "night" ] (BCStr "")))
  /\ Py.emits is_load
       (ccd_calib Sample.np Sample.files
          (Sample.without_flat (Sample.calib_args [ "night" ] (BCStr "")))).
Proof.
  assert (H : frame_missing (Sample.without_flat (Sample.calib_args [ "night" ] (BCStr ""))))
    by (right; left; reflexivity).
  split; [exact H |].
  exact (proj1 (ccd_calib_needs_every_frame Sample.np Sample.files _ H)).
Defined.

(** X3, witness: the first image of the sample directory. *)
Lemma calibrated_header_witness :
  exists fa st' tr,
    calibrate Sample.np (Sample.calib_args [ "night" ] (BCStr "")) Sample.masters
      (Some Sample.ones) "night/a.fts" Sample.disk = (Py.Next fa, st', tr)
    /\ exists out data hdr',
         tr = [ Load "night/a.fts"; Write out ]
         /\ st' !! out = Some (data, hdr')
         /\ hdr_get hdr' "CALSTAT" = Py.Success (HBool true)
         /\ hdr_get hdr' "PEDESTAL" = Py.Success (HNum 1000).
Proof.
  destruct (calibrate Sample.np (Sample.calib_args [ "night" ] (BCStr "")) Sample.masters
              (Some Sample.ones) "night/a.fts" Sample.disk) as [[o st'] tr] eqn:H.
  assert (Ho : exists fa, o = Py.Next fa).
  { apply (f_equal Py.outcome_of) in H. cbn [Py.outcome_of fst] in H. rewrite <- H.
    vm_compute. eexists. reflexivity. }
  destruct Ho as [fa ->].
  exists fa, st', tr. split; [reflexivity |].
  destruct (calibrated_header Sample.np _ _ _ _ _ _ _ _ H)
    as (image & hdr & out & data & hdr' & _ & Htr & Hout & Hcal & Hped & _).
  exists out, data, hdr'. auto.
Defined.

(** X5, witness: the first image of the sample directory. *)
Lemma image_file_is_kept_witness :
  in_place (Sample.calib_args [ "night" ] (BCStr "")) = false
  /\ exists o st' tr,
       calibrate Sample.np (Sample.calib_args [ "night" ] (BCStr "")) Sample.masters
         (Some Sample.ones) "night/a.fts" Sample.disk = (o, st', tr)
       /\ st' !! "night/a.fts" = Sample.disk !! "night/a.fts".
Proof.
  assert (Hin : in_place (Sample.calib_args [ "night" ] (BCStr "")) = false) by reflexivity.
  split; [exact Hin |].
  destruct (calibrate Sample.np (Sample.calib_args [ "night" ] (BCStr "")) Sample.masters
              (Some Sample.ones) "night/a.fts" Sample.disk) as [[o st'] tr] eqn:H.
  exists o, st', tr. split; [reflexivity |].
  exact (image_file_is_kept Sample.np _ _ _ _ _ _ _ _ Hin H).
Defined.

(** X6, witness: [night/a.fts] and [night/a.fits]. *)
Lemma same_stem_same_output_witness :
  in_place (Sample.calib_args [ "night" ] (BCStr "")) = false
  /\ has_dot "night/a" = false
  /\ (write_calibrated (Sample.calib_args [ "night" ] (BCStr "")) "night/a.fts"
        Sample.image Sample.fits_header ;;
      write_calibrated (Sample.calib_args [ "night" ] (BCStr "")) "night/a.fits"
        Sample.ones Sample.fits_header) Sample.disk
     = (Py.Next tt, <["night/a_cal.fts" := (Sample.ones, Sample.fits_header)]> Sample.disk,
        [ Write "night/a_cal.fts"; Write "night/a_cal.fts" ]).
Proof.
  assert (Hin : in_place (Sample.calib_args [ "night" ] (BCStr "")) = false) by reflexivity.
  assert (Hd : has_dot "night/a" = false) by reflexivity.
  split; [exact Hin |]. split; [exact Hd |].
  exact (same_stem_same_output _ "night/a" "fts" "fits" Sample.image Sample.ones
           Sample.fits_header Sample.fits_header Sample.disk Hin Hd).
Defined.

(** X7, witness: the sample call. *)
Lemma writes_only_cal_files_witness :
  in_place (Sample.calib_args [ "night" ] (BCStr "")) = false
  /\ Py.emits is_load_or_cal_write
       (ccd_calib Sample.np Sample.files (Sample.calib_args [ "night" ] (BCStr ""))).
Proof.
  assert (Hin : in_place (Sample.calib_args [ "night" ] (BCStr "")) = false) by reflexivity.
  split; [exact Hin |].
  exact (writes_only_cal_files Sample.np Sample.files _ Hin).
Defined.

(** X8, witness: the path [zzz], which names nothing. *)
Lemma not_a_path_walks_characters_witness :
  CcdCalib.isfile Sample.files "zzz" = false
  /\ CcdCalib.isdir Sample.files "zzz" = false
  /\ exists t1 tr,
       Py.trace_of (load_frames Sample.np (Sample.calib_args [ "zzz" ] (BCStr "")) Sample.disk)
         = t1
       /\ Py.trace_of (ccd_calib Sample.np Sample.files
                         (Sample.calib_args [ "zzz" ] (BCStr "")) Sample.disk)
          = t1 ++ Load "z" :: tr.
Proof.
  assert (Hf : CcdCalib.isfile Sample.files "zzz" = false) by reflexivity.
  assert (Hd : CcdCalib.isdir Sample.files "zzz" = false) by reflexivity.
  split; [exact Hf |]. split; [exact Hd |].
  destruct (load_frames Sample.np (Sample.calib_args [ "zzz" ] (BCStr "")) Sample.disk)
    as [[o st1] t1] eqn:H.
  assert (Ho : exists fr, o = Py.Next fr).
  { apply (f_equal Py.outcome_of) in H. cbn [Py.outcome_of fst] in H. rewrite <- H.
    vm_compute. eexists. reflexivity. }
  destruct Ho as [fr ->].
  destruct (proj2 (not_a_path_walks_characters Sample.np Sample.files
                     (Sample.calib_args [ "zzz" ] (BCStr "")) "z" "zz" [] Sample.disk
                     st1 fr t1 eq_refl Hf Hd H)) as [tr Htr].
  exists t1, tr. split; [reflexivity | exact Htr].
Defined.

(** X9, witness: the first image of the sample directory. *)
Lemma flat_is_prepared_on_every_pass_witness :
  is_ccd (Sample.calib_args [ "night" ] (BCStr "")) = true
  /\ exists fa st' tr,
       calibrate Sample.np (Sample.calib_args [ "night" ] (BCStr "")) Sample.masters
         (Some Sample.ones) "night/a.fts" Sample.disk = (Py.Next fa, st', tr)
       /\ exists f1, fa = Some (np_div_scalar Sample.np f1 (np_mean Sample.np f1)).
Proof.
  assert (Hc : is_ccd (Sample.calib_args [ "night" ] (BCStr "")) = true) by reflexivity.
  split; [exact Hc |].
  destruct (calibrate Sample.np (Sample.calib_args [ "night" ] (BCStr "")) Sample.masters
              (Some Sample.ones) "night/a.fts" Sample.disk) as [[o st'] tr] eqn:H.
  assert (Ho : exists fa, o = Py.Next fa).
  { apply (f_equal Py.outcome_of) in H. cbn [Py.outcome_of fst] in H. rewrite <- H.
    vm_compute. eexists. reflexivity. }
  destruct Ho as [fa ->].
  exists fa, st', tr. split; [reflexivity |].
  destruct (flat_is_prepared_on_every_pass Sample.np _ _ _ _ _ _ _ _
              "bias.fts" "dark.fts" "flat.fts" Hc eq_refl eq_refl eq_refl H)
    as (b & dk & fl & x & sd & f1 & _ & _ & _ & _ & _ & _ & Hfa).
  exists f1. exact Hfa.
Defined.


(** X11, witness: the sample call on [night/a.fts]. *)
Lemma ccd_run_on_one_file_witness :
  CcdCalib.isfile Sample.files "night/a.fts" = true
  /\ exists st' tr,
       ccd_calib Sample.np Sample.files (Sample.calib_args [ "night/a.fts" ] (BCStr ""))
         Sample.disk = (Py.Next tt, st', tr)
       /\ exists out, tr = [ Load "bias.fts"; Load "dark.fts"; Load "flat.fts";
                             Load "night/a.fts"; Write out ].
Proof.
  assert (Hf : CcdCalib.isfile Sample.files "night/a.fts" = true) by reflexivity.
  split; [exact Hf |].
  destruct (ccd_calib Sample.np Sample.files (Sample.calib_args [ "night/a.fts" ] (BCStr ""))
              Sample.disk) as [[o st'] tr] eqn:H.
  assert (Ho : o = Py.Next tt).
  { apply (f_equal Py.outcome_of) in H. cbn [Py.outcome_of fst] in H. rewrite <- H.
    vm_compute. reflexivity. }
  subst o. exists st', tr. split; [reflexivity |].
  destruct (ccd_run_on_one_file Sample.np Sample.files
              (Sample.calib_args [ "night/a.fts" ] (BCStr "")) "night/a.fts" []
              "bias.fts" "dark.fts" "flat.fts" Sample.disk st' tr
              eq_refl Hf eq_refl eq_refl eq_refl eq_refl H)
    as (out & data & hdr & Htr & _).
  exists out. exact Htr.
Defined.


End CcdCalibFacts.

Module SchedtelFacts.
Import Schedtel PyFacts.

Section FrontEnd.
Variable w : world.

Lemma emits_validate_from fuel g i : Py.emits is_log (validate_from w fuel g i).
Proof.
  revert g i. induction fuel as [| fuel IH]; intros g i; cbn [validate_from].
  - apply emits_ret.
  - destruct (items g !! i) as [b |]; [| apply emits_ret].
    destruct (validate_ob w b); [apply IH |].
    apply emits_bind; [apply emits_emit; exact I | intros _].
    destruct (is_tuple g); [apply emits_raise | apply IH].
Qed.

Lemma exits_validate_from P fuel g i : Py.exits P (validate_from w fuel g i).
Proof.
  revert g i. induction fuel as [| fuel IH]; intros g i; cbn [validate_from].
  - apply exits_ret.
  - destruct (items g !! i) as [b |]; [| apply exits_ret].
    destruct (validate_ob w b); [apply IH |].
    apply exits_bind; [apply exits_emit | intros _].
    destruct (is_tuple g); [apply exits_raise | apply IH].
Qed.

Lemma emits_front_end a : Py.emits is_log (front_end w a).
Proof.
  unfold front_end, configure_logging, ingest, read_catalog_file, read_catalog_entry,
    validate_blocks, validate_group, parse_observatory.
  repeat first [ apply emits_validate_from | emits_step ].
Qed.

Lemma exits_front_end a : Py.exits (fun r => r = RNone) (front_end w a).
Proof.
  unfold front_end, configure_logging, ingest, read_catalog_file, read_catalog_entry,
    validate_blocks, validate_group, parse_observatory.
  repeat first [ apply exits_validate_from | apply exits_returning; reflexivity | exits_step ].
Qed.

Lemma timezone_raises st :
  timezone w st = (Py.Raised (Py.NameError "lon"), st, []).
Proof. reflexivity. Qed.

Lemma back_end_raises a blocks obs st :
  back_end w a blocks obs st = (Py.Raised (Py.NameError "lon"), st, []).
Proof. reflexivity. Qed.

Lemma make_scheduler_default a obs st :
  (scheduler a).1 = "" ->
  make_scheduler w a obs st = (Py.Raised (Py.NameError "time_resolution"), st, []).
Proof. intros H. unfold make_scheduler. rewrite H. reflexivity. Qed.

Lemma make_scheduler_custom a obs st :
  (scheduler a).1 <> "" ->
  make_scheduler w a obs st = (Py.Raised (Py.NameError "importlib"), st, []).
Proof.
  intros H. unfold make_scheduler.
  destruct (String.eqb _ _) eqn:E; [| reflexivity].
  apply String.eqb_eq in E. contradiction.
Qed.

Lemma schedtel_cli_no_table a st :
  Forall is_log (Py.trace_of (schedtel_cli w a st))
  /\ no_table (Py.outcome_of (schedtel_cli w a st)).
Proof.
  pose proof (emits_front_end a st) as Ht.
  pose proof (exits_front_end a st) as Hr.
  unfold schedtel_cli, Py.bind, Py.trace_of, Py.outcome_of in *.
  destruct (front_end w a st) as [[o s1] t1]; cbn in *.
  destruct o as [front | r | e]; cbn.
  - rewrite back_end_raises. cbn. rewrite app_nil_r. split; [exact Ht | exact I].
  - split; [exact Ht |]. rewrite (Hr r eq_refl). exact I.
  - split; [exact Ht | exact I].
Qed.

(** C8: whenever the catalog and the observatory have been read, so
    that the run reaches the time zone, [schedtel_cli] raises
    [NameError] for [lon], having done nothing but log.  [lon], [lat],
    [zoneinfo] and [time_resolution] are bound neither by the function,
    nor by the module, nor as builtins, while the parameter is called
    [resolution]; the default scheduler branch raises [NameError] for
    [time_resolution].  No run creates a schedule, calls a scheduler,
    writes a table or returns one. *)
Theorem schedtel_raises_name_error :
  forall (a : args) (st : table) (blocks : list group) (obs : site)
         (st1 : table) (t1 : list event),
    front_end w a st = (Py.Next (blocks, obs), st1, t1) ->
    schedtel_cli w a st = (Py.Raised (Py.NameError "lon"), st1, t1)
    /\ Forall (fun x => Py.bound (local_names ++ module_names ++ Py.builtins) x = false)
         [ "lon"; "lat"; "zoneinfo"; "time_resolution" ]
    /\ Py.bound local_names "resolution" = true
    /\ ((scheduler a).1 = "" ->
        forall st', make_scheduler w a obs st'
                    = (Py.Raised (Py.NameError "time_resolution"), st', []))
    /\ (forall a' st',
          Forall is_log (Py.trace_of (schedtel_cli w a' st'))
          /\ no_table (Py.outcome_of (schedtel_cli w a' st'))).
Proof.
  intros a st blocks obs st1 t1 Hfront.
  split; [| split; [| split; [| split]]].
  - unfold schedtel_cli, Py.bind. rewrite Hfront. cbn [fst snd].
    rewrite back_end_raises. rewrite app_nil_r. reflexivity.
  - repeat constructor.
  - reflexivity.
  - intros Hs st'. apply make_scheduler_default. exact Hs.
  - intros a' st'. apply schedtel_cli_no_table.
Qed.

End FrontEnd.

(** C8, witness: the sample catalog at the sample site. *)
Lemma schedtel_raises_name_error_witness :
  front_end Sample.the_world (Sample.sched_args (CatPath "night.cat") None) []
  = (Py.Next ([ list_group [ Sample.vega; Sample.m31 ];
                list_group [ Sample.broken2; Sample.vega ] ], Sample.the_site), [],
     [ LogError "file in catalog does not exist, skipping";
       LogError "not a valid ObservingBlock, removing from schedule" ])
  /\ schedtel_cli Sample.the_world (Sample.sched_args (CatPath "night.cat") None) []
     = (Py.Raised (Py.NameError "lon"), [],
        [ LogError "file in catalog does not exist, skipping";
          LogError "not a valid ObservingBlock, removing from schedule" ]).
Proof.
  assert (H : front_end Sample.the_world (Sample.sched_args (CatPath "night.cat") None) []
  = (Py.Next ([ list_group [ Sample.vega; Sample.m31 ];
                list_group [ Sample.broken2; Sample.vega ] ], Sample.the_site), [],
     [ LogError "file in catalog does not exist, skipping";
       LogError "not a valid ObservingBlock, removing from schedule" ])) by (vm_compute; reflexivity).
  split; [exact H |].
  exact (proj1 (schedtel_raises_name_error Sample.the_world _ _ _ _ _ _ H)).
Defined.


Section Validation.
Variable w : world.

Lemma remove_first_lookup (l : list item) i b :
  NoDup l -> l !! i = Some b -> Py.remove_first b l = delete i l.
Proof.
  revert i. induction l as [| x l IH]; intros i Hnd Hi; [discriminate |].
  apply NoDup_cons in Hnd. destruct Hnd as [Hx Hnd].
  destruct i as [| i]; cbn in *.
  - inversion Hi; subst. destruct (decide (b = b)); [reflexivity | contradiction].
  - destruct (decide (x = b)) as [-> | Hne].
    + exfalso. apply Hx. eapply list_elem_of_lookup_2. exact Hi.
    + f_equal. apply IH; assumption.
Qed.

Lemma take_delete_same (l : list item) i : i < length l -> take i (delete i l) = take i l.
Proof.
  intros Hi. rewrite delete_take_drop. apply take_app_length'.
  rewrite length_take. lia.
Qed.

Lemma validate_from_S fuel g i :
  validate_from w (S fuel) g i =
  match items g !! i with
  | None => Py.ret g
  | Some b =>
      match validate_ob w b with
      | Py.Success _ => validate_from w fuel g (S i)
      | Py.Failure _ =>
          Py.emit (LogError "not a valid ObservingBlock, removing from schedule") ;;
          if is_tuple g then Py.raise (Py.AttributeError "remove")
          else validate_from w fuel (list_group (Py.remove_first b (items g))) (S i)
      end
  end.
Proof. reflexivity. Qed.

Lemma validate_from_prefix fuel :
  forall (g : group) (i : nat) (st : table) (g' : group) (st' : table) tr,
    is_tuple g = false -> NoDup (items g) ->
    validate_from w fuel g i st = (Py.Next g', st', tr) ->
    take i (items g') = take i (items g).
Proof.
  induction fuel as [| fuel IH]; intros g i st g' st' tr Ht Hnd Hrun; cbn [validate_from] in Hrun.
  - inversion Hrun; subst. reflexivity.
  - destruct (items g !! i) as [b |] eqn:Hb.
    2:{ inversion Hrun; subst. reflexivity. }
    destruct (validate_ob w b) as [b' | e].
    + apply IH in Hrun; [| assumption | assumption].
      apply (f_equal (take i)) in Hrun. rewrite !take_take in Hrun.
      replace (i `min` S i) with i in Hrun by lia. exact Hrun.
    + apply bind_emit_run in Hrun. destruct Hrun as (tr' & Hrun & _).
      rewrite Ht in Hrun.
      apply IH in Hrun; [| reflexivity |].
      * cbn [items list_group] in Hrun.
        rewrite (remove_first_lookup _ i b Hnd Hb) in Hrun.
        apply (f_equal (take i)) in Hrun. rewrite !take_take in Hrun.
        replace (i `min` S i) with i in Hrun by lia.
        rewrite Hrun. apply take_delete_same. eapply lookup_lt_Some. exact Hb.
      * cbn [items list_group]. rewrite (remove_first_lookup _ i b Hnd Hb).
        eapply sublist_NoDup; [exact Hnd | apply sublist_delete].
Qed.

Lemma second_invalid_block_survives b1 b2 rest e st g st' tr :
  validate_ob w b1 = Py.Failure e ->
  NoDup (b1 :: b2 :: rest) ->
  validate_group w (list_group (b1 :: b2 :: rest)) st = (Py.Next g, st', tr) ->
  exists rest', items g = b2 :: rest'.
Proof.
  intros Hb1 Hnd Hrun. unfold validate_group in Hrun.
  cbn [items list_group length] in Hrun. rewrite validate_from_S in Hrun.
  cbn [items list_group lookup list_lookup] in Hrun.
  rewrite Hb1 in Hrun.
  apply bind_emit_run in Hrun. destruct Hrun as (tr' & Hrun & _).
  cbn [is_tuple list_group items Py.remove_first] in Hrun.
  destruct (decide (b1 = b1)) as [_ | Hne]; [| contradiction].
  apply validate_from_prefix in Hrun.
  - cbn [items list_group take] in Hrun.
    destruct (items g) as [| x rest']; [discriminate |].
    cbn in Hrun. inversion Hrun; subst. eauto.
  - reflexivity.
  - cbn. apply NoDup_cons in Hnd. apply Hnd.
Qed.

Lemma length_remove_first (b : item) l : length (Py.remove_first b l) <= length l.
Proof.
  induction l as [| x l IH]; cbn; [lia |].
  destruct (decide (x = b)); cbn; lia.
Qed.

(** The bound on the number of steps is never what ends the loop. *)
Lemma validate_from_fuel fuel :
  forall g i, length (items g) <= fuel + i ->
              validate_from w (S fuel) g i = validate_from w fuel g i.
Proof.
  induction fuel as [| fuel IH]; intros g i Hlen.
  - cbn [validate_from]. rewrite lookup_ge_None_2 by lia. reflexivity.
  - rewrite (validate_from_S (S fuel) g i), (validate_from_S fuel g i).
    destruct (items g !! i) as [b |]; [| reflexivity].
    destruct (validate_ob w b); [apply IH; lia |].
    destruct (is_tuple g); [reflexivity |].
    rewrite IH; [reflexivity |].
    cbn [items list_group]. pose proof (length_remove_first b (items g)). lia.
Qed.
End Validation.

(** C5, at the failing input: the catalog [night.cat] lists [a.sch],
    a missing file and [b.sch]; [b.sch] holds two blocks that fail
    validation followed by a valid one.  The missing file is skipped and
    the first bad block removed, but the second bad block is still in
    the batch that goes on to scheduling. *)
Lemma validation_keeps_an_invalid_block :
  Py.outcome_of
    (front_end Sample.the_world (Sample.sched_args (CatPath "night.cat") None) [])
  = Py.Next ([ list_group [ Sample.vega; Sample.m31 ];
               list_group [ Sample.broken2; Sample.vega ] ], Sample.the_site)
  /\ validate_ob Sample.the_world Sample.broken2 = Py.Failure Py.ValueError.
Proof. split; vm_compute; reflexivity. Qed.

(** A tuple has no [remove]: one bad block in a tuple ends the run. *)
Example tuple_group_aborts :
  validate_group Sample.the_world
    {| is_tuple := true; items := [ Sample.vega; Sample.broken1 ] |} []
  = (Py.Raised (Py.AttributeError "remove"), [],
     [ LogError "not a valid ObservingBlock, removing from schedule" ]).
Proof. vm_compute. reflexivity. Qed.

(** A group without a bad block is left as it is. *)
Example valid_group_unchanged :
  Py.outcome_of (validate_group Sample.the_world
                   (list_group [ Sample.vega; Sample.m31 ]) [])
  = Py.Next (list_group [ Sample.vega; Sample.m31 ]).
Proof. vm_compute. reflexivity. Qed.

(** *** The exported table *)

Lemma to_table_observed s :
  to_table false false s = (fun p => block_row p.1 p.2) <$> observed s.
Proof.
  unfold to_table, observed. induction (slots s) as [| sl l IH]; [reflexivity |].
  cbn [omap list_omap fmap list_fmap]. unfold slot_row at 1.
  destruct (slot_content sl); cbn; rewrite IH; reflexivity.
Qed.

Lemma observed_in s sl b :
  (sl, b) ∈ observed s -> sl ∈ slots s /\ slot_content sl = Observing b.
Proof.
  unfold observed. rewrite list_elem_of_omap. intros (sl' & Hin & H).
  destruct (slot_content sl') eqn:Hc; try discriminate.
  inversion H; subst. auto.
Qed.

(** C7, as amended: the exported table has one row per observing
    block, in allocation order, with the block's target and exactly the
    start and end of its slot; every row comes from such a slot. *)
Theorem table_lists_the_observing_blocks :
  forall (s : schedule),
    row_allocation <$> to_table false false s
      = (fun p => (ob_target p.2, slot_start p.1, slot_end p.1)) <$> observed s
    /\ Forall (fun r => exists sl b, sl ∈ slots s /\ slot_content sl = Observing b
                                     /\ r = block_row sl b)
         (to_table false false s).
Proof.
  intros s. rewrite to_table_observed. split.
  - rewrite <- list_fmap_compose. reflexivity.
  - apply Forall_fmap. apply Forall_forall. intros [sl b] Hin.
    apply observed_in in Hin. destruct Hin as [Hin Hc].
    exists sl, b. auto.
Qed.

(** C7, counterexample: two nights that cover the same window, one
    with a transition between the two observations and one with free
    time there, export the same table. *)
Lemma tables_of_two_nights_coincide :
  to_table false false Sample.night_with_transition
    = to_table false false Sample.night_with_gap
  /\ slots Sample.night_with_transition <> slots Sample.night_with_gap
  /\ covers_window Sample.night_with_transition
  /\ covers_window Sample.night_with_gap.
Proof.
  split; [vm_compute; reflexivity |].
  split; [intros H; inversion H |].
  split; vm_compute; auto.
Qed.

Lemma full_table_keeps_every_span s :
  row_span <$> to_table true true s = slot_span <$> slots s.
Proof.
  unfold to_table. induction (slots s) as [| sl l IH]; [reflexivity |].
  cbn [omap list_omap fmap list_fmap]. unfold slot_row at 1.
  destruct (slot_content sl); cbn; rewrite IH; reflexivity.
Qed.


(** *** The catalog *)

Section Catalog.
Variable w : world.

Lemma read_catalog_file_run blocks f (st : table) :
  exists tr,
    read_catalog_file w blocks f st
    = (Py.Next (match catalog_line w f with
                | Some g => blocks ++ [g]
                | None => blocks
                end), st, tr)
    /\ Forall is_log tr
    /\ length tr = match catalog_line w f with Some _ => 0 | None => 1 end.
Proof.
  unfold read_catalog_file, catalog_line.
  destruct (isfile w f); cbn [negb].
  - destruct (sch_read w f) as [g | e].
    + exists []. repeat split; constructor.
    + eexists. split; [reflexivity |]. split; [repeat constructor | reflexivity].
  - eexists. split; [reflexivity |]. split; [repeat constructor | reflexivity].
Qed.

Lemma read_catalog_files files : forall acc (st : table),
  exists tr,
    Py.for_fold files acc (read_catalog_file w) st
    = (Py.Next (acc ++ omap (catalog_line w) files), st, tr)
    /\ Forall is_log tr
    /\ length tr + length (omap (catalog_line w) files) = length files.
Proof.
  induction files as [| f files IH]; intros acc st.
  - exists []. cbn. rewrite app_nil_r. repeat split; constructor.
  - cbn [Py.for_fold].
    destruct (read_catalog_file_run acc f st) as (t1 & Hrun & Hlog1 & Hlen1).
    rewrite (bind_next _ _ _ _ _ _ Hrun).
    destruct (IH (match catalog_line w f with Some g => acc ++ [g] | None => acc end) st)
      as (t2 & Hrest & Hlog2 & Hlen2).
    rewrite Hrest. cbn [Py.outcome_of Py.state_of Py.trace_of fst snd].
    exists (t1 ++ t2). split; [| split].
    + cbn [omap list_omap]. destruct (catalog_line w f) as [g |].
      * rewrite <- app_assoc. reflexivity.
      * reflexivity.
    + apply Forall_app. auto.
    + rewrite length_app. cbn [omap list_omap length].
      destruct (catalog_line w f); cbn [length] in *; lia.
Qed.

(** X13: reading a [.cat] catalog keeps, in catalog order, the blocks
    of exactly those listed files that exist and that [sch.read]
    accepts; every other line is logged and skipped, one error each,
    and the ingest completes. *)
Theorem cat_file_keeps_the_readable_files :
  forall (p : string) (files : list string) (st : table),
    isfile w p = true ->
    endswith p ".cat" = true ->
    read_lines w p = Py.Success files ->
    exists tr,
      ingest w (CatPath p) st = (Py.Next (omap (catalog_line w) files), st, tr)
      /\ Forall is_log tr
      /\ length tr + length (omap (catalog_line w) files) = length files.
Proof.
  intros p files st Hfile Hcat Hlines.
  unfold ingest. cbn [Py.ret]. rewrite bind_ret_l. rewrite Hfile, Hcat, Hlines.
  cbn [Py.lift]. rewrite bind_ret_l.
  destruct (read_catalog_files files [] st) as (tr & Hrun & Hlog & Hlen).
  exists tr. rewrite Hrun. auto.
Qed.

End Catalog.

Lemma for_each_non_blocks (l : list item) (st : table) :
  Py.for_each l
    (fun b => if is_observing_block b then Py.ret tt
              else Py.emit (LogError "object is not an astroplan.ObservingBlock, skipping")
       : M unit) st
  = (Py.Next tt, st,
     (fun _ => LogError "object is not an astroplan.ObservingBlock, skipping")
       <$> filter (fun b => is_observing_block b = false) l).
Proof.
  induction l as [| b l IH]; [reflexivity |].
  cbn [Py.for_each]. unfold Py.bind at 1.
  destruct (is_observing_block b) eqn:Hb.
  - cbn [Py.ret]. rewrite IH. rewrite filter_cons_False by (rewrite Hb; discriminate).
    reflexivity.
  - cbn [Py.emit]. rewrite IH. rewrite filter_cons_True by exact Hb. reflexivity.
Qed.

(** X14: a sub-sequence of a catalog list is appended as it is: each
    element that is not an [ObservingBlock] is reported as skipped, one
    error each, but stays in the group. *)
Theorem sublist_is_kept_with_its_non_blocks :
  forall (blocks : list group) (g : group) (st : table),
    read_catalog_entry blocks (EGroup g) st
    = (Py.Next (blocks ++ [g]), st,
       (fun _ => LogError "object is not an astroplan.ObservingBlock, skipping")
         <$> filter (fun b => is_observing_block b = false) (items g)).
Proof.
  intros blocks g st. unfold read_catalog_entry.
  rewrite (bind_next _ _ _ _ _ _ (for_each_non_blocks (items g) st)).
  cbn. rewrite app_nil_r. reflexivity.
Qed.


(** *** Logging options and early exits *)

Lemma configure_logging_run a (st : table) :
  configure_logging a st
  = (if level_chosen a then Py.Next tt else Py.Raised (Py.UnboundLocalError "level"),
     st, []).
Proof.
  unfold configure_logging, level_chosen.
  destruct (quiet a); [reflexivity |]. cbn [orb].
  destruct (verbose a =? 0)%Z eqn:H0.
  { apply Z.eqb_eq in H0. rewrite H0. reflexivity. }
  destruct (verbose a =? 1)%Z eqn:H1.
  { apply Z.eqb_eq in H1. rewrite H1. reflexivity. }
  destruct (2 <=? verbose a)%Z eqn:H2.
  { apply Z.leb_le in H2. destruct (0 <=? verbose a)%Z eqn:H3; [reflexivity |].
    apply Z.leb_gt in H3. lia. }
  apply Z.leb_gt in H2. apply Z.eqb_neq in H0, H1.
  destruct (0 <=? verbose a)%Z eqn:H3; [| reflexivity].
  apply Z.leb_le in H3. lia.
Qed.

(** X16: [schedtel_cli] picks a logging level exactly when [quiet] is
    set or [verbose] is not negative; otherwise its first statement to
    use [level] raises [UnboundLocalError] and the call ends there. *)
Theorem negative_verbosity_raises :
  forall (a : args) (st : table),
    (configure_logging a st = (Py.Raised (Py.UnboundLocalError "level"), st, [])
     <-> quiet a = false /\ (verbose a < 0)%Z)
    /\ (configure_logging a st = (Py.Next tt, st, [])
        <-> quiet a = true \/ (0 <= verbose a)%Z)
    /\ (quiet a = false /\ (verbose a < 0)%Z ->
        forall w, schedtel_cli w a st
                  = (Py.Raised (Py.UnboundLocalError "level"), st, [])).
Proof.
  intros a st. rewrite configure_logging_run. unfold level_chosen.
  assert (Hneg : quiet a = false /\ (verbose a < 0)%Z ->
                 quiet a || (0 <=? verbose a)%Z = false).
  { intros [Hq Hv]. rewrite Hq. cbn. apply Z.leb_gt. exact Hv. }
  split; [| split].
  - split.
    + destruct (quiet a); cbn; [discriminate |].
      destruct (0 <=? verbose a)%Z eqn:H; [discriminate |].
      intros _. split; [reflexivity | apply Z.leb_gt; exact H].
    + intros H. rewrite (Hneg H). reflexivity.
  - split.
    + destruct (quiet a); cbn; [auto |].
      destruct (0 <=? verbose a)%Z eqn:H; [| discriminate].
      intros _. right. apply Z.leb_le. exact H.
    + intros [Hq | Hv].
      * rewrite Hq. reflexivity.
      * apply Z.leb_le in Hv. rewrite Hv, orb_true_r. reflexivity.
  - intros H w. unfold schedtel_cli, front_end.
    apply bind_raised. apply bind_raised.
    rewrite configure_logging_run. unfold level_chosen. rewrite (Hneg H). reflexivity.
Qed.

(** X15: when the catalog path is not a file, or is a [.sch] file
    that [sch.read] rejects, [schedtel_cli] logs one error and returns
    [None], with the table untouched. *)
Theorem bad_catalog_returns_none :
  forall (w : world) (a : args) (p : string) (st : table),
    catalog a = CatPath p ->
    level_chosen a = true ->
    isfile w p = false
    \/ (isfile w p = true /\ endswith p ".cat" = false /\ endswith p ".sch" = true
        /\ exists e, sch_read w p = Py.Failure e) ->
    exists msg, schedtel_cli w a st = (Py.Returned RNone, st, [LogError msg]).
Proof.
  intros w a p st Hcat Hlevel Hbad.
  assert (Hingest : exists msg, ingest w (CatPath p) st = (Py.Returned RNone, st, [LogError msg])).
  { unfold ingest. cbn [Py.ret]. rewrite bind_ret_l.
    destruct Hbad as [Hfile | (Hfile & Hc & Hs & e & Hread)]; rewrite Hfile.
    - eexists. reflexivity.
    - rewrite Hc, Hs, Hread. eexists. reflexivity. }
  destruct Hingest as [msg Hingest]. exists msg.
  unfold schedtel_cli, front_end. rewrite Hcat.
  unfold Py.bind at 1. unfold Py.bind at 1.
  rewrite configure_logging_run, Hlevel.
  unfold Py.bind at 1. rewrite Hingest. reflexivity.
Qed.


(** *** Validation *)

Section Removal.
Variable w : world.

Lemma remove_first_sublist (b : item) l : Py.remove_first b l `sublist_of` l.
Proof.
  induction l as [| x l IH]; cbn; [constructor |].
  destruct (decide (x = b)).
  - apply sublist_cons. reflexivity.
  - apply sublist_skip. exact IH.
Qed.

Lemma length_remove_first_elem (b : item) l :
  b ∈ l -> S (length (Py.remove_first b l)) = length l.
Proof.
  induction l as [| x l IH]; intros Hin; [inversion Hin |].
  cbn. destruct (decide (x = b)) as [-> | Hne]; [reflexivity |].
  cbn. f_equal. apply IH. apply elem_of_cons in Hin.
  destruct Hin as [-> | Hin]; [contradiction | exact Hin].
Qed.

Lemma validate_from_removes fuel :
  forall (g : group) (i : nat) (st : table) (g' : group) (st' : table) tr,
    validate_from w fuel g i st = (Py.Next g', st', tr) ->
    items g' `sublist_of` items g
    /\ length (items g') + length tr = length (items g)
    /\ st' = st.
Proof.
  induction fuel as [| fuel IH]; intros g i st g' st' tr Hrun.
  - inversion Hrun; subst. split; [reflexivity | split; [cbn; lia | reflexivity]].
  - rewrite validate_from_S in Hrun.
    destruct (items g !! i) as [b |] eqn:Hb.
    2:{ inversion Hrun; subst. split; [reflexivity | split; [cbn; lia | reflexivity]]. }
    destruct (validate_ob w b) as [b' | e].
    + apply IH in Hrun. exact Hrun.
    + apply bind_emit_run in Hrun. destruct Hrun as (tr' & Hrun & ->).
      destruct (is_tuple g); [discriminate Hrun |].
      apply IH in Hrun. cbn [items list_group] in Hrun.
      destruct Hrun as (Hsub & Hlen & ->).
      split; [| split; [| reflexivity]].
      * etransitivity; [exact Hsub | apply remove_first_sublist].
      * pose proof (length_remove_first_elem b (items g)
                      (list_elem_of_lookup_2 _ _ _ Hb)). cbn [length]. lia.
Qed.

Lemma block_count_cons g l : block_count (g :: l) = length (items g) + block_count l.
Proof. reflexivity. Qed.

Lemma validate_blocks_fold blocks :
  forall acc (st : table) r st' tr,
    Py.for_fold blocks acc
      (fun validated g => g' <- validate_group w g ;; Py.ret (validated ++ [g'])) st
    = (Py.Next r, st', tr) ->
    exists bs',
      r = acc ++ bs'
      /\ Forall2 (fun g g' => items g' `sublist_of` items g) blocks bs'
      /\ block_count bs' + length tr = block_count blocks
      /\ st' = st.
Proof.
  induction blocks as [| g blocks IH]; intros acc st r st' tr Hrun.
  - inversion Hrun; subst. exists []. rewrite app_nil_r.
    split; [reflexivity | split; [constructor | split; reflexivity]].
  - cbn [Py.for_fold] in Hrun.
    apply bind_next_inv in Hrun. destruct Hrun as (acc' & s1 & t1 & t2 & Hg & Hrest & ->).
    apply bind_next_inv in Hg. destruct Hg as (g' & s2 & t3 & t4 & Hg & Hret & ->).
    inversion Hret; subst. clear Hret.
    apply validate_from_removes in Hg. destruct Hg as (Hsub & Hlen & ->).
    apply IH in Hrest. destruct Hrest as (bs' & -> & Hall & Hcount & ->).
    exists (g' :: bs'). rewrite <- app_assoc.
    split; [reflexivity |]. split; [constructor; assumption |].
    split; [| reflexivity].
    rewrite !block_count_cons, !length_app. cbn [length]. lia.
Qed.

(** X17: validation only removes.  When it completes, the batch has
    as many groups as before, each group holds a sub-sequence of the
    blocks it held, in the same order, one error was logged per block
    removed, and the table is untouched. *)
Theorem validation_only_removes :
  forall (blocks bs' : list group) (st st' : table) (tr : list event),
    validate_blocks w blocks st = (Py.Next bs', st', tr) ->
    Forall2 (fun g g' => items g' `sublist_of` items g) blocks bs'
    /\ block_count bs' + length tr = block_count blocks
    /\ st' = st.
Proof.
  intros blocks bs' st st' tr Hrun. unfold validate_blocks in Hrun.
  apply validate_blocks_fold in Hrun. destruct Hrun as (bs & -> & H).
  exact H.
Qed.

Lemma validate_from_valid fuel :
  forall (g : group) (i : nat) (st : table),
    Forall (passes w) (items g) ->
    validate_from w fuel g i st = (Py.Next g, st, []).
Proof.
  induction fuel as [| fuel IH]; intros g i st Hall; [reflexivity |].
  rewrite validate_from_S.
  destruct (items g !! i) as [b |] eqn:Hb; [| reflexivity].
  rewrite Forall_forall in Hall.
  destruct (Hall b (list_elem_of_lookup_2 _ _ _ Hb)) as [b' ->].
  apply IH. rewrite Forall_forall. exact Hall.
Qed.

Lemma validate_blocks_valid blocks :
  forall acc (st : table),
    Forall (fun g => Forall (passes w) (items g)) blocks ->
    Py.for_fold blocks acc
      (fun validated g => g' <- validate_group w g ;; Py.ret (validated ++ [g'])) st
    = (Py.Next (acc ++ blocks), st, []).
Proof.
  induction blocks as [| g blocks IH]; intros acc st Hall.
  - cbn. rewrite app_nil_r. reflexivity.
  - inversion Hall as [| ? ? Hg Hrest]; subst.
    cbn [Py.for_fold]. unfold validate_group.
    rewrite (bind_assoc _ _ _ st).
    rewrite (bind_next _ _ _ _ _ _ (validate_from_valid _ g 0 st Hg)).
    rewrite bind_ret_l, (IH _ _ Hrest). cbn. rewrite <- app_assoc. reflexivity.
Qed.

(** X18: a batch in which every block passes [validate_ob] leaves
    validation as it entered it, with nothing logged: what
    [validate_ob] returns is not stored. *)
Theorem valid_blocks_pass_unchanged :
  forall (blocks : list group) (st : table),
    Forall (fun g => Forall (passes w) (items g)) blocks ->
    validate_blocks w blocks st = (Py.Next blocks, st, []).
Proof.
  intros blocks st Hall. unfold validate_blocks.
  rewrite (validate_blocks_valid blocks [] st Hall). reflexivity.
Qed.

Lemma validate_from_tuple fuel :
  forall (g : group) (i : nat) (st : table),
    is_tuple g = true ->
    Exists (fails w) (drop i (items g)) ->
    length (items g) <= fuel + i ->
    validate_from w fuel g i st
    = (Py.Raised (Py.AttributeError "remove"), st,
       [LogError "not a valid ObservingBlock, removing from schedule"]).
Proof.
  induction fuel as [| fuel IH]; intros g i st Ht Hex Hlen.
  - rewrite drop_ge in Hex by (cbn in Hlen; lia). inversion Hex.
  - rewrite validate_from_S.
    destruct (items g !! i) as [b |] eqn:Hb.
    2:{ rewrite drop_ge in Hex by (apply lookup_ge_None; exact Hb). inversion Hex. }
    rewrite (drop_S _ _ _ Hb) in Hex. apply Exists_cons in Hex.
    destruct (validate_ob w b) as [b' | e] eqn:Hv.
    + destruct Hex as [[e He] | Hex]; [unfold fails in *; congruence |].
      apply IH; [exact Ht | exact Hex | lia].
    + rewrite Ht. reflexivity.
Qed.

(** X19: a group that is a tuple and holds a block that fails
    [validate_ob] ends the run with [AttributeError] for [remove],
    after the one error logged for the first such block. *)
Theorem tuple_with_invalid_block_raises :
  forall (g : group) (st : table),
    is_tuple g = true ->
    Exists (fails w) (items g) ->
    validate_group w g st
    = (Py.Raised (Py.AttributeError "remove"), st,
       [LogError "not a valid ObservingBlock, removing from schedule"]).
Proof.
  intros g st Ht Hex. unfold validate_group.
  apply validate_from_tuple; [exact Ht | exact Hex | lia].
Qed.

Lemma validate_from_skip (g : group) :
  forall k fuel i,
    (forall j, i <= j < i + k -> exists b, items g !! j = Some b /\ passes w b) ->
    validate_from w (k + fuel) g i = validate_from w fuel g (i + k).
Proof.
  induction k as [| k IH]; intros fuel i Hall.
  - rewrite Nat.add_0_r. reflexivity.
  - cbn [Nat.add]. rewrite validate_from_S.
    destruct (Hall i ltac:(lia)) as (b & -> & [b' ->]).
    rewrite IH.
    + f_equal. lia.
    + intros j Hj. apply Hall. lia.
Qed.

(** X20: in a list group of distinct blocks whose first failing block
    [b1] comes right before [b2], validation removes [b1] and then
    steps over [b2]: whenever it completes, [b2] is still in the group,
    right after the blocks that preceded [b1], whether or not [b2] is
    valid. *)
Theorem block_after_a_removed_one_is_skipped :
  forall (pre : list item) (b1 b2 : item) (rest : list item)
         (st st' : table) (g : group) (tr : list event),
    Forall (passes w) pre ->
    fails w b1 ->
    NoDup (pre ++ b1 :: b2 :: rest) ->
    validate_group w (list_group (pre ++ b1 :: b2 :: rest)) st = (Py.Next g, st', tr) ->
    exists rest', items g = pre ++ b2 :: rest'.
Proof.
  intros pre b1 b2 rest st st' g tr Hpre [e Hb1] Hnd Hrun.
  unfold validate_group in Hrun. cbn [items list_group] in Hrun.
  rewrite length_app in Hrun. cbn [length] in Hrun.
  rewrite (validate_from_skip _ (length pre) (S (S (length rest))) 0) in Hrun.
  2:{ intros j Hj. cbn [items list_group].
      rewrite lookup_app_l by lia.
      destruct (pre !! j) as [b |] eqn:Hb.
      - exists b. split; [reflexivity |]. rewrite Forall_forall in Hpre.
        apply Hpre. eapply list_elem_of_lookup_2. exact Hb.
      - apply lookup_ge_None in Hb. lia. }
  cbn [Nat.add] in Hrun. rewrite validate_from_S in Hrun.
  cbn [items list_group] in Hrun.
  assert (Hlook : (pre ++ b1 :: b2 :: rest) !! length pre = Some b1).
  { rewrite lookup_app_r by lia. rewrite Nat.sub_diag. reflexivity. }
  rewrite Hlook, Hb1 in Hrun.
  apply bind_emit_run in Hrun. destruct Hrun as (tr' & Hrun & _).
  cbn [is_tuple list_group items] in Hrun.
  rewrite (remove_first_lookup _ _ _ Hnd Hlook) in Hrun.
  assert (Hdel : delete (length pre) (pre ++ b1 :: b2 :: rest) = pre ++ b2 :: rest).
  { clear. induction pre as [| x pre IH]; [reflexivity |]. cbn. f_equal. exact IH. }
  rewrite Hdel in Hrun.
  apply validate_from_prefix in Hrun.
  - cbn [items list_group] in Hrun.
    exists (drop (S (length pre)) (items g)).
    rewrite <- (take_drop (S (length pre)) (items g)) at 1. rewrite Hrun.
    replace (S (length pre)) with (length pre + 1) by lia.
    rewrite take_app_add. cbn [take]. rewrite <- app_assoc. reflexivity.
  - reflexivity.
  - cbn [items list_group]. rewrite <- Hdel.
    eapply sublist_NoDup; [exact Hnd | apply sublist_delete].
Qed.

End Removal.

(** X21: with [ignore_order] the batch becomes one list group that
    holds exactly the blocks of all groups, as many as there were. *)
Theorem ignore_order_merges_the_groups :
  forall (blocks : list group),
    exists g,
      flatten blocks = [g]
      /\ is_tuple g = false
      /\ (forall b, b ∈ items g <-> exists g0, g0 ∈ blocks /\ b ∈ items g0)
      /\ length (items g) = block_count blocks.
Proof.
  intros blocks. exists (list_group (concat (items <$> blocks))).
  split; [reflexivity |]. split; [reflexivity |]. split.
  - intros b. cbn [items list_group].
    induction blocks as [| g0 blocks IH]; cbn.
    + split; [intros H; inversion H | intros (g & H & _); inversion H].
    + rewrite elem_of_app, IH. split.
      * intros [Hb | (g & Hg & Hb)].
        -- exists g0. split; [left | exact Hb].
        -- exists g. split; [right; exact Hg | exact Hb].
      * intros (g & Hg & Hb). apply elem_of_cons in Hg. destruct Hg as [-> | Hg].
        -- left. exact Hb.
        -- right. exists g. auto.
  - cbn [items list_group]. unfold block_count.
    induction blocks as [| g0 blocks IH]; [reflexivity |].
    cbn. rewrite length_app, IH. reflexivity.
Qed.


(** *** The scheduler and the scheduling loop *)

(** X22: no scheduler is ever built: with the default scheduler the
    construction raises [NameError] for [time_resolution], with a
    custom one it raises [NameError] for [importlib], which the module
    does not import, before the class file is opened. *)
Theorem no_scheduler_is_built :
  forall (w : world) (a : args) (obs : site) (st : table),
    make_scheduler w a obs st
    = (Py.Raised (Py.NameError (if String.eqb (scheduler a).1 ""
                                then "time_resolution" else "importlib")), st, [])
    /\ Py.bound (local_names ++ module_names ++ Py.builtins) "importlib" = false.
Proof.
  intros w a obs st. split; [| reflexivity].
  unfold make_scheduler. destruct (String.eqb (scheduler a).1 ""); reflexivity.
Qed.

(** X23: the scheduling loop raises [TypeError] at its first group,
    before the scheduler is called; over no group it returns the
    schedule as it is. *)
Theorem scheduling_loop_stops_at_first_group :
  forall (h : handler) (g : group) (blocks : list group) (s : schedule) (st : table),
    schedule_blocks h (g :: blocks) s st = (Py.Raised Py.TypeError, st, [])
    /\ schedule_blocks h [] s st = (Py.Next s, st, []).
Proof. intros h g blocks s st. split; reflexivity. Qed.

(** *** The ephemeris update *)

Section Update.
Variable w : world.

Lemma update_row_fixed i (st : list row) r :
  st !! i = Some r -> moving r = Py.Success false ->
  update_row w i st = (Py.Next tt, st, []).
Proof.
  intros Hr Hm. unfold update_row, get_row, is_moving.
  rewrite bind_assoc, bind_get. unfold Py.index. rewrite Hr. cbn [Py.lift].
  rewrite bind_ret_l, Hm. cbn [Py.lift]. rewrite bind_ret_l. reflexivity.
Qed.

Lemma for_each_fixed (t : list row) :
  Forall (fun r => moving r = Py.Success false) t ->
  forall l, Forall (fun i => i < length t) l ->
            Py.for_each l (update_row w) t = (Py.Next tt, t, []).
Proof.
  intros Hall l. induction l as [| i l IH]; intros Hl; [reflexivity |].
  inversion Hl as [| ? ? Hi Hrest]; subst.
  cbn [Py.for_each].
  destruct (lookup_lt_is_Some_2 t i Hi) as [r Hr].
  rewrite Forall_forall in Hall.
  rewrite (bind_next _ _ _ _ _ _
             (update_row_fixed i t r Hr (Hall r (list_elem_of_lookup_2 _ _ _ Hr)))).
  rewrite (IH Hrest). reflexivity.
Qed.

(** X24: a table in which every row has both proper motions equal to
    zero goes through the ephemeris update unchanged, and no service is
    called. *)
Theorem fixed_targets_are_left_alone :
  forall (t : table),
    Forall (fun r => moving r = Py.Success false) t ->
    update_ephemerides w t = (Py.Next tt, t, []).
Proof.
  intros t Hall. unfold update_ephemerides. rewrite bind_get.
  apply for_each_fixed; [exact Hall |].
  apply Forall_forall. intros i Hi. apply elem_of_seq in Hi. lia.
Qed.

Lemma exported_row_has_no_name (s : schedule) i r :
  (to_table false false s : list row) !! i = Some r ->
  row_get r "name" = Py.Failure (Py.KeyError "name").
Proof.
  rewrite to_table_observed. rewrite list_lookup_fmap.
  destruct (observed s !! i) as [[sl b] |]; [| discriminate].
  cbn. intros H. inversion H; subst. reflexivity.
Qed.

(** X26: the table made by [to_table] has no [name] column, so for
    every schedule the update of a row with a non-zero proper motion
    raises [KeyError] for [name], before any service is called and with
    the table unchanged. *)
Theorem exported_moving_target_raises_key_error :
  forall (s : schedule) (i : nat) (r : row),
    (to_table false false s : list row) !! i = Some r ->
    moving r = Py.Success true ->
    update_row w i (to_table false false s)
    = (Py.Raised (Py.KeyError "name"), to_table false false s, []).
Proof.
  intros s i r Hr Hm.
  pose proof (exported_row_has_no_name s i r Hr) as Hname.
  unfold update_row, get_row, is_moving.
  rewrite bind_assoc, bind_get. unfold Py.index. rewrite Hr. cbn [Py.lift].
  rewrite bind_ret_l, Hm. cbn [Py.lift]. rewrite bind_ret_l.
  assert (H1 : update_from_mpc w i (to_table false false s)
               = (Py.Raised (Py.KeyError "name"), to_table false false s, [])).
  { unfold update_from_mpc, get_row.
    rewrite bind_assoc, bind_get. unfold Py.index. rewrite Hr. cbn [Py.lift].
    rewrite bind_ret_l, Hname. reflexivity. }
  assert (H2 : forall e, update_from_get_body w i e (to_table false false s)
               = (Py.Raised (Py.KeyError "name"), to_table false false s, [])).
  { intros e. unfold update_from_get_body, get_row, format_warning.
    rewrite bind_assoc, bind_get. unfold Py.index. rewrite Hr. cbn [Py.lift].
    rewrite bind_ret_l, Hname. reflexivity. }
  assert (H3 : forall e, keep_old_ephemerides i e (to_table false false s)
               = (Py.Raised (Py.KeyError "name"), to_table false false s, [])).
  { intros e. unfold keep_old_ephemerides, get_row, format_warning.
    rewrite bind_assoc, bind_get. unfold Py.index. rewrite Hr. cbn [Py.lift].
    rewrite bind_ret_l, Hname. reflexivity. }
  unfold Py.try_except. rewrite H1, H2, H3. reflexivity.
Qed.

(** *** Writing the table *)

(** X27: when no file name is given, or [telrun] is set whatever
    file name is given, the name is derived from the start of the
    first row: [telrun_<isot>.ecsv]; on an empty table this raises
    [IndexError]. *)
Theorem derived_file_name :
  forall (a : args) (t : table),
    filename a = None \/ telrun a = true ->
    output_filename w a t
    = (match t with
       | [] => Py.Raised Py.IndexError
       | first :: _ => Py.Next ("telrun_" +:+ isot w (start_utc first) +:+ ".ecsv")
       end, t, []).
Proof.
  intros a t H. unfold output_filename.
  assert (Hgen : (t0 <- Py.get;; first <- Py.lift (Py.index t0 0);;
                  Py.ret ("telrun_" +:+ isot w (start_utc first) +:+ ".ecsv")
                  : M string) t
                 = (match t with
                    | [] => Py.Raised Py.IndexError
                    | first :: _ =>
                        Py.Next ("telrun_" +:+ isot w (start_utc first) +:+ ".ecsv")
                    end, t, [])).
  { rewrite bind_get. destruct t; reflexivity. }
  destruct (filename a) as [f |]; destruct (telrun a); try exact Hgen.
  destruct H; discriminate.
Qed.

(** X28: where the table is written.  Without [telrun], the file
    name is appended to the working directory; with [telrun] and
    [$TELRUN_EXECUTE] set, it is appended to that value as it is when
    that is a directory, and otherwise to the working directory after a
    warning. *)
Theorem write_table_destination :
  forall (a : args) (t : table) (name : string),
    output_filename w a t = (Py.Next name, t, []) ->
    (telrun a = false ->
     Py.trace_of (write_table w a t) = [WriteTable ((getcwd w +:+ "/") +:+ name) t])
    /\ (forall p, telrun a = true -> environ w "TELRUN_EXECUTE" = Some p ->
        Py.trace_of (write_table w a t)
        = if isdir w p then [WriteTable (p +:+ name) t]
          else [LogWarning "path does not exist, writing to current working directory";
                WriteTable ((getcwd w +:+ "/") +:+ name) t]).
Proof.
  intros a t name Hname. split.
  - intros Ht. unfold write_table, output_path.
    rewrite (bind_next _ _ _ _ _ _ Hname). rewrite Ht.
    rewrite bind_ret_l, bind_get. reflexivity.
  - intros p Ht Henv. unfold write_table, output_path.
    rewrite (bind_next _ _ _ _ _ _ Hname). rewrite Ht, Henv.
    rewrite (bind_assoc _ _ _ t), bind_ret_l.
    destruct (isdir w p); cbn [negb].
    + rewrite bind_ret_l, bind_get. reflexivity.
    + rewrite (bind_assoc _ _ _ t). unfold Py.bind at 1. cbn [Py.emit].
      rewrite bind_ret_l, bind_get. reflexivity.
Qed.

(** *** Plots *)

(** X29: [plot_schedule_gantt] raises [NameError] for [table] on
    every input, and [plot_schedule_sky] raises [NameError] for
    [schedule_table] without arguments and [TypeError] with any; so
    [schedtel_cli] with [plot] 1 or 3 raises after the table was
    written, with [plot] 2 returns the table and the axes of
    [plot_schedule_airmass], and otherwise returns the table. *)
Theorem gantt_and_sky_plots_raise :
  forall (a : args) (s : schedule) (t : table),
    plot_schedule_gantt w s t = (Py.Raised (Py.NameError "table"), t, [])
    /\ plot_schedule_sky 0 t = (Py.Raised (Py.NameError "schedule_table"), t, [])
    /\ (forall n, plot_schedule_sky (S n) t = (Py.Raised Py.TypeError, t, []))
    /\ plot_and_return w a s t
       = (match plot a with
          | Some 1%Z => Py.Raised (Py.NameError "table")
          | Some 2%Z =>
              match plot_schedule_airmass w s with
              | Py.Success ax => Py.Returned (RTablePlot t ax)
              | Py.Failure e => Py.Raised e
              end
          | Some 3%Z => Py.Raised Py.TypeError
          | _ => Py.Returned (RTable t)
          end, t, []).
Proof.
  intros a s t.
  split; [reflexivity |]. split; [reflexivity |]. split; [reflexivity |].
  unfold plot_and_return. rewrite bind_get.
  destruct (plot a) as [[| [[] | [] |] |] |]; try reflexivity.
  destruct (plot_schedule_airmass w s); reflexivity.
Qed.

End Update.

(** X13, witness: the sample catalog [night.cat]. *)
Lemma cat_file_keeps_the_readable_files_witness :
  isfile Sample.the_world "night.cat" = true
  /\ endswith "night.cat" ".cat" = true
  /\ read_lines Sample.the_world "night.cat"
     = Py.Success [ "a.sch"; "missing.sch"; "b.sch" ]
  /\ exists tr,
       ingest Sample.the_world (CatPath "night.cat") []
       = (Py.Next (omap (catalog_line Sample.the_world) [ "a.sch"; "missing.sch"; "b.sch" ]),
          [], tr)
       /\ Forall is_log tr
       /\ length tr + length (omap (catalog_line Sample.the_world)
                                [ "a.sch"; "missing.sch"; "b.sch" ]) = 3.
Proof.
  assert (H1 : isfile Sample.the_world "night.cat" = true) by reflexivity.
  assert (H2 : endswith "night.cat" ".cat" = true) by reflexivity.
  assert (H3 : read_lines Sample.the_world "night.cat"
               = Py.Success [ "a.sch"; "missing.sch"; "b.sch" ]) by reflexivity.
  split; [exact H1 |]. split; [exact H2 |]. split; [exact H3 |].
  exact (cat_file_keeps_the_readable_files Sample.the_world "night.cat" _ [] H1 H2 H3).
Defined.

(** X15, witness: a catalog path that names no file. *)
Lemma bad_catalog_returns_none_witness :
  level_chosen (Sample.sched_args (CatPath "nowhere.sch") None) = true
  /\ isfile Sample.the_world "nowhere.sch" = false
  /\ exists msg,
       schedtel_cli Sample.the_world (Sample.sched_args (CatPath "nowhere.sch") None) []
       = (Py.Returned RNone, [], [ LogError msg ]).
Proof.
  assert (H1 : level_chosen (Sample.sched_args (CatPath "nowhere.sch") None) = true)
    by reflexivity.
  assert (H2 : isfile Sample.the_world "nowhere.sch" = false) by reflexivity.
  split; [exact H1 |]. split; [exact H2 |].
  exact (bad_catalog_returns_none Sample.the_world
           (Sample.sched_args (CatPath "nowhere.sch") None) "nowhere.sch" [] eq_refl H1
           (or_introl H2)).
Defined.

(** X17, witness: two bad blocks followed by a valid one. *)
Lemma validation_only_removes_witness :
  validate_blocks Sample.the_world
    [ list_group [ Sample.broken1; Sample.broken2; Sample.vega ] ] []
  = (Py.Next [ list_group [ Sample.broken2; Sample.vega ] ], [],
     [ LogError "not a valid ObservingBlock, removing from schedule" ])
  /\ block_count [ list_group [ Sample.broken2; Sample.vega ] ] + 1
     = block_count [ list_group [ Sample.broken1; Sample.broken2; Sample.vega ] ].
Proof.
  assert (H : validate_blocks Sample.the_world
                [ list_group [ Sample.broken1; Sample.broken2; Sample.vega ] ] []
              = (Py.Next [ list_group [ Sample.broken2; Sample.vega ] ], [],
                 [ LogError "not a valid ObservingBlock, removing from schedule" ]))
    by (vm_compute; reflexivity).
  split; [exact H |].
  exact (proj1 (proj2 (validation_only_removes Sample.the_world _ _ _ _ _ H))).
Defined.

(** X18, witness: the two valid sample blocks. *)
Lemma valid_blocks_pass_unchanged_witness :
  Forall (fun g => Forall (passes Sample.the_world) (items g))
    [ list_group [ Sample.vega; Sample.m31 ] ]
  /\ validate_blocks Sample.the_world [ list_group [ Sample.vega; Sample.m31 ] ] []
     = (Py.Next [ list_group [ Sample.vega; Sample.m31 ] ], [], []).
Proof.
  assert (H : Forall (fun g => Forall (passes Sample.the_world) (items g))
                [ list_group [ Sample.vega; Sample.m31 ] ]).
  { repeat constructor; eexists; reflexivity. }
  split; [exact H |].
  exact (valid_blocks_pass_unchanged Sample.the_world _ [] H).
Defined.

(** X19, witness: a tuple of a valid and a bad block. *)
Lemma tuple_with_invalid_block_raises_witness :
  Exists (fails Sample.the_world) [ Sample.vega; Sample.broken1 ]
  /\ validate_group Sample.the_world
       {| is_tuple := true; items := [ Sample.vega; Sample.broken1 ] |} []
     = (Py.Raised (Py.AttributeError "remove"), [],
        [ LogError "not a valid ObservingBlock, removing from schedule" ]).
Proof.
  assert (H : Exists (fails Sample.the_world) [ Sample.vega; Sample.broken1 ]).
  { constructor 2. constructor 1. exists Py.ValueError. reflexivity. }
  split; [exact H |].
  exact (tuple_with_invalid_block_raises Sample.the_world
           {| is_tuple := true; items := [ Sample.vega; Sample.broken1 ] |} []
           eq_refl H).
Defined.

Lemma sample_blocks_differ :
  NoDup [ Sample.vega; Sample.broken1; Sample.broken2; Sample.m31 ].
Proof.
  assert (Hid : forall i j : item,
             match i, j with
             | IBlock a, IBlock b => ob_id a <> ob_id b
             | _, _ => False
             end -> i <> j).
  { intros [a | n] [b | m] H Heq; try contradiction. inversion Heq; subst. contradiction. }
  repeat (apply NoDup_cons; split;
          [ rewrite ?not_elem_of_cons; repeat split;
            try (apply Hid; cbn; discriminate); apply not_elem_of_nil |]).
  apply NoDup_nil_2.
Qed.

(** X20, witness: a valid block, two bad ones, a valid one. *)
Lemma block_after_a_removed_one_is_skipped_witness :
  Forall (passes Sample.the_world) [ Sample.vega ]
  /\ fails Sample.the_world Sample.broken1
  /\ exists g st' tr,
       validate_group Sample.the_world
         (list_group ([ Sample.vega ] ++ Sample.broken1 :: Sample.broken2 :: [ Sample.m31 ])) []
       = (Py.Next g, st', tr)
       /\ exists rest', items g = [ Sample.vega ] ++ Sample.broken2 :: rest'.
Proof.
  assert (H1 : Forall (passes Sample.the_world) [ Sample.vega ]).
  { repeat constructor. eexists. reflexivity. }
  assert (H2 : fails Sample.the_world Sample.broken1) by (eexists; reflexivity).
  split; [exact H1 |]. split; [exact H2 |].
  destruct (validate_group Sample.the_world
              (list_group ([ Sample.vega ] ++ Sample.broken1 :: Sample.broken2 :: [ Sample.m31 ]))
              []) as [[o st'] tr] eqn:H.
  assert (Ho : exists g, o = Py.Next g).
  { apply (f_equal Py.outcome_of) in H. cbn [Py.outcome_of fst] in H. rewrite <- H.
    vm_compute. eexists. reflexivity. }
  destruct Ho as [g ->].
  exists g, st', tr. split; [reflexivity |].
  exact (block_after_a_removed_one_is_skipped Sample.the_world _ _ _ _ _ _ _ _
           H1 H2 sample_blocks_differ H).
Defined.

(** X24, witness: the table of a night with two fixed targets. *)
Lemma fixed_targets_are_left_alone_witness :
  Forall (fun r => moving r = Py.Success false)
    (to_table false false Sample.night_with_gap)
  /\ update_ephemerides Sample.the_world (to_table false false Sample.night_with_gap)
     = (Py.Next tt, to_table false false Sample.night_with_gap, []).
Proof.
  assert (H : Forall (fun r => moving r = Py.Success false)
                (to_table false false Sample.night_with_gap)).
  { repeat constructor. }
  split; [exact H |].
  exact (fixed_targets_are_left_alone Sample.the_world _ H).
Defined.

(** X26, witness: a night with one moving target. *)
Lemma exported_moving_target_raises_key_error_witness :
  moving (block_row (Sample.slot_of 0 600 (Observing (Sample.block 5 "ceres" 600 3)))
            (Sample.block 5 "ceres" 600 3)) = Py.Success true
  /\ update_row Sample.mpc_world 0
       (to_table false false
          {| start_time := 0; end_time := day;
             slots := [ Sample.slot_of 0 600 (Observing (Sample.block 5 "ceres" 600 3)) ] |})
     = (Py.Raised (Py.KeyError "name"),
        to_table false false
          {| start_time := 0; end_time := day;
             slots := [ Sample.slot_of 0 600 (Observing (Sample.block 5 "ceres" 600 3)) ] |},
        []).
Proof.
  assert (Hm : moving (block_row (Sample.slot_of 0 600
                                    (Observing (Sample.block 5 "ceres" 600 3)))
                         (Sample.block 5 "ceres" 600 3)) = Py.Success true)
    by (vm_compute; reflexivity).
  split; [exact Hm |].
  exact (exported_moving_target_raises_key_error Sample.mpc_world
           {| start_time := 0; end_time := day;
              slots := [ Sample.slot_of 0 600 (Observing (Sample.block 5 "ceres" 600 3)) ] |}
           0 _ eq_refl Hm).
Defined.

(** X27, witness: the sample call, which gives no file name. *)
Lemma derived_file_name_witness :
  filename (Sample.sched_args CatNone None) = None
  /\ output_filename Sample.the_world (Sample.sched_args CatNone None) []
     = (Py.Raised Py.IndexError, [], [])
  /\ output_filename Sample.the_world (Sample.sched_args CatNone None) [ Sample.ceres ]
     = (Py.Next "telrun_2024-03-09T18:00:00.000.ecsv", [ Sample.ceres ], []).
Proof.
  assert (H : filename (Sample.sched_args CatNone None) = None) by reflexivity.
  split; [exact H |]. split.
  - exact (derived_file_name Sample.the_world _ [] (or_introl H)).
  - exact (derived_file_name Sample.the_world _ [ Sample.ceres ] (or_introl H)).
Defined.

(** X28, witness: the sample call on a one-row table. *)
Lemma write_table_destination_witness :
  output_filename Sample.the_world (Sample.sched_args CatNone None) [ Sample.ceres ]
  = (Py.Next "telrun_2024-03-09T18:00:00.000.ecsv", [ Sample.ceres ], [])
  /\ Py.trace_of (write_table Sample.the_world (Sample.sched_args CatNone None)
                    [ Sample.ceres ])
     = [ WriteTable "/obs/telrun_2024-03-09T18:00:00.000.ecsv" [ Sample.ceres ] ].
Proof.
  assert (H : output_filename Sample.the_world (Sample.sched_args CatNone None)
                [ Sample.ceres ]
              = (Py.Next "telrun_2024-03-09T18:00:00.000.ecsv", [ Sample.ceres ], []))
    by reflexivity.
  split; [exact H |].
  exact (proj1 (write_table_destination Sample.the_world _ _ _ H) eq_refl).
Defined.


End SchedtelFacts.


Module CoreFacts.
Import Core.
Import Scheduler.
Local Open Scope Z_scope.

(** *** The ranking of the Queue *)

Lemma bound_before_asym x y :
  Queue.bound_before x y = true -> Queue.bound_before y x = false.
Proof.
  destruct x as [a |], y as [b |]; cbn; try reflexivity; try discriminate.
  intros H. apply Z.ltb_lt in H. apply Z.ltb_ge. lia.
Qed.

Lemma bound_before_neg_trans x y z :
  Queue.bound_before z x = true -> Queue.bound_before y x = false ->
  Queue.bound_before z y = true.
Proof.
  destruct x as [a |], y as [b |], z as [c |]; cbn; try reflexivity; try discriminate.
  intros H1 H2. apply Z.ltb_lt in H1. apply Z.ltb_ge in H2. apply Z.ltb_lt. lia.
Qed.

Lemma ranks_before_asym r a b :
  Queue.ranks_before r a b = true -> Queue.ranks_before r b a = false.
Proof.
  unfold Queue.ranks_before. rewrite <- (Qcompare_antisym (r a) (r b)).
  destruct (r a ?= r b)%Q; cbn; try discriminate; try reflexivity.
  apply bound_before_asym.
Qed.

Lemma ranks_before_neg_trans r x y z :
  Queue.ranks_before r z x = true -> Queue.ranks_before r y x = false ->
  Queue.ranks_before r z y = true.
Proof.
  unfold Queue.ranks_before.
  destruct (Qcompare_spec (r z) (r x)) as [Hzx | Hzx | Hzx]; try discriminate;
  destruct (Qcompare_spec (r y) (r x)) as [Hyx | Hyx | Hyx]; try discriminate;
  destruct (Qcompare_spec (r z) (r y)) as [Hzy | Hzy | Hzy]; try reflexivity;
  try (exfalso; lra); try (intros; discriminate).
  apply bound_before_neg_trans.
Qed.

Lemma inserted_before_cons x pending a b :
  inserted_before pending a b -> inserted_before (x :: pending) a b.
Proof.
  intros (i & j & Hi & Hj & Hlt). exists (S i), (S j). cbn. repeat split; [exact Hi | exact Hj | lia].
Qed.

Lemma inserted_before_head x pending b :
  b ∈ pending -> inserted_before (x :: pending) x b.
Proof.
  intros Hb. apply list_elem_of_lookup in Hb. destruct Hb as [j Hj].
  exists 0%nat, (S j). cbn. repeat split; [exact Hj | lia].
Qed.


Lemma precedes_cons r x pending a b :
  precedes r pending a b -> precedes r (x :: pending) a b.
Proof.
  intros [H | (H1 & H2 & H3)]; [left; exact H | right].
  repeat split; [exact H1 | exact H2 | apply inserted_before_cons; exact H3].
Qed.



Lemma insert_perm r x l : Queue.insert r x l ≡ₚ x :: l.
Proof.
  induction l as [| y l IH]; cbn; [reflexivity |].
  destruct (Queue.ranks_before r y x); [| reflexivity].
  rewrite IH. apply perm_swap.
Qed.

Lemma insert_sorted r x rest l :
  StronglySorted (precedes r (x :: rest)) l ->
  Forall (fun y => y ∈ rest) l ->
  StronglySorted (precedes r (x :: rest)) (Queue.insert r x l).
Proof.
  intros Hs Hin. induction Hs as [| y l Hs IH Hy]; cbn.
  - repeat constructor.
  - inversion Hin as [| ? ? Hyin Hlin]; subst.
    destruct (Queue.ranks_before r y x) eqn:Hyx.
    + constructor; [exact (IH Hlin) |].
      rewrite insert_perm. constructor; [left; exact Hyx | exact Hy].
    + assert (Hx : forall z, z ∈ rest -> Queue.ranks_before r z x = false ->
                        precedes r (x :: rest) x z).
      { intros z Hz Hzx. destruct (Queue.ranks_before r x z) eqn:Hxz; [left; exact Hxz |].
        right. repeat split; [exact Hxz | exact Hzx |]. apply inserted_before_head. exact Hz. }
      constructor; [constructor; assumption |].
      constructor; [exact (Hx y Hyin Hyx) |].
      rewrite Forall_forall in Hy, Hlin. apply Forall_forall. intros z Hz.
      apply Hx; [exact (Hlin z Hz) |].
      destruct (Queue.ranks_before r z x) eqn:Hzx; [| reflexivity].
      exfalso. pose proof (ranks_before_neg_trans r x y z Hzx Hyx) as Hzy.
      destruct (Hy z Hz) as [H | (H1 & H2 & _)].
      * apply ranks_before_asym in H. congruence.
      * congruence.
Qed.

Lemma strongly_sorted_mono {A} (R R' : A -> A -> Prop) l :
  (forall a b, R a b -> R' a b) -> StronglySorted R l -> StronglySorted R' l.
Proof.
  intros H Hs. induction Hs as [| a l Hs IH Ha]; constructor; [exact IH |].
  eapply Forall_impl; [exact Ha | intros b; apply H].
Qed.

(** The Queue's [snapshot] meets its contract. *)
Lemma queue_snapshot_contract : snapshot_contract Queue.snapshot.
Proof.
  intros r pending _. induction pending as [| x rest IH]; cbn.
  - split; [reflexivity | constructor].
  - destruct IH as [Hp Hs]. split.
    + rewrite insert_perm, Hp. reflexivity.
    + apply insert_sorted.
      * eapply strongly_sorted_mono; [| exact Hs]. intros a b. apply precedes_cons.
      * apply Forall_forall. intros y Hy. rewrite <- Hp. exact Hy.
Qed.

(** *** The choice of the Optimizer *)

Lemma probe_times_lookup from upto step (k : nat) t :
  probe_times from upto step !! k = Some t
  <-> (k < Z.to_nat ((upto - from) / step + 1))%nat /\ t = from + Z.of_nat k * step.
Proof.
  unfold probe_times. rewrite list_lookup_fmap. split.
  - intros H. destruct (seq 0 _ !! k) as [j |] eqn:Hj; [| discriminate].
    apply lookup_seq in Hj. destruct Hj as [-> Hlt]. cbn in H. inversion H. split; [lia | reflexivity].
  - intros [Hlt ->]. rewrite (lookup_seq_lt _ _ _ Hlt). reflexivity.
Qed.

Lemma probe_count from upto step (k : nat) :
  0 < step ->
  (k < Z.to_nat ((upto - from) / step + 1))%nat <-> from + Z.of_nat k * step <= upto.
Proof.
  intros Hstep. split.
  - intros H.
    assert (Hk : Z.of_nat k <= (upto - from) / step) by lia.
    pose proof (Z.mul_div_le (upto - from) step Hstep). nia.
  - intros H.
    assert (Hk : Z.of_nat k <= (upto - from) / step).
    { apply Z.div_le_lower_bound; [exact Hstep | lia]. }
    lia.
Qed.

Lemma first_choice_some f ts b t :
  Optimizer.first_choice f ts = Some (b, t) ->
  exists k : nat,
    ts !! k = Some t /\ f t = Some b
    /\ forall (j : nat) t', (j < k)%nat -> ts !! j = Some t' -> f t' = None.
Proof.
  induction ts as [| t0 ts IH]; cbn; [discriminate |].
  destruct (f t0) as [b0 |] eqn:Hf.
  - intros H. inversion H; subst. exists 0%nat. repeat split; [exact Hf |].
    intros j t' Hj. lia.
  - intros H. destruct (IH H) as (k & Hk & Hb & Hbefore).
    exists (S k). repeat split; [exact Hk | exact Hb |].
    intros [| j] t' Hj Ht'; cbn in Ht'.
    + inversion Ht'; subst. exact Hf.
    + apply (Hbefore j); [lia | exact Ht'].
Qed.

Lemma first_choice_none f ts :
  Optimizer.first_choice f ts = None -> forall t, t ∈ ts -> f t = None.
Proof.
  induction ts as [| t0 ts IH]; cbn; intros H t Ht.
  - apply elem_of_nil in Ht. contradiction.
  - destruct (f t0) as [b0 |] eqn:Hf; [destruct (Optimizer.first_choice f ts); discriminate |].
    apply elem_of_cons in Ht. destruct Ht as [-> | Ht]; [exact Hf | exact (IH H t Ht)].
Qed.

Lemma best_of_none score l : Optimizer.best_of score l = None -> l = [].
Proof.
  destruct l as [| b l]; [reflexivity |]. cbn.
  destruct (Optimizer.best_of score l) as [b' |]; [| discriminate].
  destruct (score b ?= score b')%Q; discriminate.
Qed.

Lemma best_of_some score l b : Optimizer.best_of score l = Some b -> best_in score l b.
Proof.
  revert b. induction l as [| x l IH]; cbn; intros b H; [discriminate |].
  destruct (Optimizer.best_of score l) as [b' |] eqn:Hbest.
  - destruct (IH b' eq_refl) as (pre & post & -> & Hpre & Hpost).
    destruct (Qcompare_spec (score x) (score b')) as [Heq | Hlt | Hgt]; inversion H; subst.
    + exists [], (pre ++ b' :: post). repeat split; [constructor |].
      apply Forall_app. split; [| constructor].
      * eapply Forall_impl; [exact Hpre |]. cbn. intros y Hy. lra.
      * lra.
      * eapply Forall_impl; [exact Hpost |]. cbn. intros y Hy. lra.
    + exists (x :: pre), post. repeat split; [constructor; assumption | exact Hpost].
    + exists [], (pre ++ b' :: post). repeat split; [constructor |].
      apply Forall_app. split; [| constructor].
      * eapply Forall_impl; [exact Hpre |]. cbn. intros y Hy. lra.
      * lra.
      * eapply Forall_impl; [exact Hpost |]. cbn. intros y Hy. lra.
  - inversion H; subst. apply best_of_none in Hbest. subst l.
    exists [], []. repeat split; constructor.
Qed.


Lemma best_in_elem_of score l b : best_in score l b -> b ∈ l.
Proof.
  intros (pre & post & -> & _). apply elem_of_app. right. left.
Qed.

Lemma transition_cost_nonneg svc last b : 0 <= transition_cost svc last b.
Proof. unfold transition_cost. destruct last; lia. Qed.

Lemma eligible_inside svc inp last t b :
  eligible svc inp last t b = true ->
  span_end svc last b t <= window_end inp.
Proof.
  unfold eligible. intros H. apply andb_true_iff in H. destruct H as [H _].
  apply Z.leb_le in H. exact H.
Qed.

Lemma placeable_elem_of svc inp candidates last t b :
  b ∈ placeable svc inp candidates last t
  <-> b ∈ candidates /\ eligible svc inp last t b = true.
Proof. unfold placeable. rewrite list_elem_of_filter. tauto. Qed.

Lemma placeable_after_window svc inp candidates last t :
  Forall (fun b => 0 < total_duration b) candidates ->
  window_end inp < t ->
  placeable svc inp candidates last t = [].
Proof.
  intros Hdur Hlate.
  destruct (placeable svc inp candidates last t) as [| b l] eqn:Hp; [reflexivity |].
  exfalso.
  assert (Hb : b ∈ placeable svc inp candidates last t) by (rewrite Hp; left).
  apply placeable_elem_of in Hb. destruct Hb as [Hin He].
  apply eligible_inside in He. unfold span_end in He.
  rewrite Forall_forall in Hdur. pose proof (Hdur b Hin).
  pose proof (transition_cost_nonneg svc last b). lia.
Qed.

(** The default Optimizer meets its contract. *)
Lemma optimizer_select_next_contract svc :
  optimizer_contract svc (Optimizer.select_next svc).
Proof.
  intros inp candidates cursor_time last Htick Hdur.
  unfold Optimizer.select_next.
  destruct (Optimizer.first_choice _ _) as [[b t] |] eqn:Hc.
  - apply first_choice_some in Hc. destruct Hc as (k & Hk & Hb & Hbefore).
    apply probe_times_lookup in Hk. destruct Hk as [Hlt ->].
    exists k. repeat split.
    + intros j Hj.
      assert (Hjt : probe_times cursor_time (window_end inp) (tick inp) !! j
                    = Some (cursor_time + Z.of_nat j * tick inp)).
      { apply probe_times_lookup. split; [lia | reflexivity]. }
      specialize (Hbefore j _ Hj Hjt). unfold Optimizer.select_at in Hbefore.
      apply best_of_none in Hbefore. exact Hbefore.
    + apply best_of_some. exact Hb.
  - intros k.
    destruct (decide (cursor_time + Z.of_nat k * tick inp <= window_end inp)) as [Hin | Hout].
    + assert (Hk : probe_times cursor_time (window_end inp) (tick inp) !! k
                   = Some (cursor_time + Z.of_nat k * tick inp)).
      { apply probe_times_lookup. split; [| reflexivity].
        apply probe_count; assumption. }
      pose proof (first_choice_none _ _ Hc _ (list_elem_of_lookup_2 _ _ _ Hk)) as Hnone.
      unfold Optimizer.select_at in Hnone. apply best_of_none in Hnone. exact Hnone.
    + apply placeable_after_window; [exact Hdur | lia].
Qed.


(** *** Schedules *)

Lemma chain_app a b c s1 s2 : chain a b s1 -> chain b c s2 -> chain a c (s1 ++ s2).
Proof.
  revert a. induction s1 as [| e s1 IH]; cbn; intros a H1 H2.
  - subst. exact H2.
  - destruct H1 as [He H1]. split; [exact He | exact (IH _ H1 H2)].
Qed.

Lemma chain_span a b s : chain a b s -> Forall proper s -> a <= b.
Proof.
  revert a. induction s as [| e s IH]; cbn; intros a H Hp.
  - lia.
  - destruct H as [He H]. inversion Hp as [| ? ? Hpe Hps]; subst.
    specialize (IH _ H Hps). unfold proper in Hpe. lia.
Qed.

Lemma chain_no_overlap a b s : chain a b s -> no_overlap s.
Proof.
  revert a. induction s as [| e s IH]; intros a H i e1 e2 H1 H2.
  - discriminate.
  - destruct H as [_ H]. destruct i as [| i]; cbn in H1, H2.
    + inversion H1; subst. destruct s as [| e' s]; [discriminate |].
      cbn in H2. inversion H2; subst. destruct H as [H _]. lia.
    + exact (IH _ H i e1 e2 H1 H2).
Qed.

Lemma chain_covers a b s : chain a b s -> Forall proper s -> covers s a b.
Proof.
  revert a. induction s as [| e s IH]; intros a H Hp t.
  - cbn in H. subst. split; [lia |]. intros (e & He & _). apply elem_of_nil in He. contradiction.
  - destruct H as [He H]. inversion Hp as [| ? ? Hpe Hps]; subst.
    pose proof (chain_span _ _ _ H Hps) as Hspan. unfold proper in Hpe.
    specialize (IH _ H Hps t). split.
    + intros Ht. destruct (decide (t < entry_end e)) as [Hlt | Hge].
      * exists e. split; [left | lia].
      * destruct (proj1 IH ltac:(lia)) as (e' & He' & Ht').
        exists e'. split; [right; exact He' | exact Ht'].
    + intros (e' & He' & Ht'). apply elem_of_cons in He'. destruct He' as [-> | He'].
      * lia.
      * pose proof (proj2 IH (ex_intro _ e' (conj He' Ht'))). lia.
Qed.

Lemma gap_chain a b : a <= b -> chain a b (gap a b) /\ Forall proper (gap a b).
Proof.
  intros H. unfold gap. destruct (a <? b) eqn:Hab.
  - apply Z.ltb_lt in Hab. split; [cbn; auto |].
    constructor; [exact Hab | constructor].
  - apply Z.ltb_ge in Hab. split; [cbn; lia | constructor].
Qed.

Lemma transition_chain svc last b t :
  chain t (t + transition_cost svc last b) (transition svc last b t)
  /\ Forall proper (transition svc last b t).
Proof.
  unfold transition. destruct last as [l |].
  - destruct (0 <? transition_cost svc (Some l) b) eqn:Hc.
    + apply Z.ltb_lt in Hc. split; [cbn; auto |].
      constructor; [unfold proper; cbn [entry_start entry_end]; lia | constructor].
    + apply Z.ltb_ge in Hc. pose proof (transition_cost_nonneg svc (Some l) b).
      split; [cbn [chain]; lia | constructor].
  - cbn. split; [lia | constructor].
Qed.

Lemma gap_not_scheduled a b e blk : e ∈ gap a b -> what e = Scheduled blk -> False.
Proof.
  unfold gap. destruct (a <? b); intros He Hw.
  - apply list_elem_of_singleton in He. subst e. discriminate.
  - apply elem_of_nil in He. exact He.
Qed.

Lemma transition_not_scheduled svc last b t e blk :
  e ∈ transition svc last b t -> what e = Scheduled blk -> False.
Proof.
  unfold transition. destruct last as [l |]; [destruct (0 <? _) |]; intros He Hw.
  - apply list_elem_of_singleton in He. subst e. discriminate.
  - apply elem_of_nil in He. exact He.
  - apply elem_of_nil in He. exact He.
Qed.

(** *** The site-wide conditions *)






(** *** The Running loop, for a Queue and an Optimizer that meet their
    contracts *)

Section Compliant.
Variable svc : services.
Variable prioritizer : context -> block -> Q.
Variable snapshot : (block -> Q) -> Queue.t -> list block.
Variable select_next :
  run_input -> list block -> time -> option block -> option (block * time).
Hypothesis snapshot_ok : snapshot_contract snapshot.
Hypothesis select_ok : optimizer_contract svc select_next.

Notation prioritized := (prioritized prioritizer).
Notation ranked := (ranked prioritizer snapshot).
Notation candidates := (candidates svc prioritizer snapshot).
Notation place := (place svc prioritizer).
Notation iterate := (iterate svc prioritizer snapshot select_next).

Lemma prioritized_ids st : block_id <$> prioritized st = block_id <$> pending st.
Proof.
  unfold Scheduler.prioritized. rewrite <- list_fmap_compose. apply list_fmap_ext.
  intros i b _. reflexivity.
Qed.

Lemma prioritized_durations st :
  Forall (fun b => 0 < total_duration b) (pending st) ->
  Forall (fun b => 0 < total_duration b) (prioritized st).
Proof.
  intros H. unfold Scheduler.prioritized. apply Forall_fmap.
  eapply Forall_impl; [exact H |]. intros b Hb. exact Hb.
Qed.

Lemma ranked_perm st :
  NoDup (block_id <$> pending st) -> ranked st ≡ₚ prioritized st.
Proof.
  intros Hnd. unfold Scheduler.ranked. apply snapshot_ok. rewrite prioritized_ids. exact Hnd.
Qed.

Lemma candidates_elem_of inp st b :
  b ∈ candidates inp st
  <-> b ∈ ranked st /\ passes_global svc (global_conditions inp) b (cursor st) = true.
Proof. unfold Scheduler.candidates. rewrite list_elem_of_filter. tauto. Qed.

Lemma candidates_durations inp st :
  NoDup (block_id <$> pending st) ->
  Forall (fun b => 0 < total_duration b) (pending st) ->
  Forall (fun b => 0 < total_duration b) (candidates inp st).
Proof.
  intros Hnd Hdur. apply Forall_forall. intros b Hb.
  apply candidates_elem_of in Hb. destruct Hb as [Hb _].
  rewrite (ranked_perm st Hnd) in Hb.
  pose proof (prioritized_durations st Hdur) as H. rewrite Forall_forall in H. exact (H b Hb).
Qed.

(** What the choice of the Optimizer is: a candidate, at a time from
    the cursor on, whose span ends inside the window. *)
Lemma chosen inp st b t :
  0 < tick inp ->
  NoDup (block_id <$> pending st) ->
  Forall (fun b => 0 < total_duration b) (pending st) ->
  select_next inp (candidates inp st) (cursor st) (last_block st) = Some (b, t) ->
  b ∈ candidates inp st /\ cursor st <= t
  /\ span_end svc (last_block st) b t <= window_end inp
  /\ 0 < total_duration b.
Proof.
  intros Htick Hnd Hdur Hsel.
  pose proof (candidates_durations inp st Hnd Hdur) as Hcd.
  pose proof (select_ok inp (candidates inp st) (cursor st) (last_block st) Htick Hcd) as H.
  rewrite Hsel in H. destruct H as (k & -> & _ & Hbest).
  apply best_in_elem_of, placeable_elem_of in Hbest. destruct Hbest as [Hin He].
  split; [exact Hin |]. split; [nia |]. split; [exact (eligible_inside _ _ _ _ _ He) |].
  rewrite Forall_forall in Hcd. exact (Hcd b Hin).
Qed.

Lemma remove_length (q : Queue.t) b :
  b ∈ q -> (length (Queue.remove q (block_id b)) < length q)%nat.
Proof.
  intros Hb. unfold Queue.remove.
  induction q as [| x q IH]; [apply elem_of_nil in Hb; contradiction |].
  rewrite filter_cons. apply elem_of_cons in Hb.
  destruct (decide (block_id x <> block_id b)) as [Hne | Heq].
  - destruct Hb as [-> | Hb]; [contradiction |]. cbn. specialize (IH Hb). lia.
  - cbn. pose proof (length_filter (fun b0 => block_id b0 <> block_id b) q). lia.
Qed.

Lemma place_invariant inp st b t :
  0 < tick inp ->
  invariant svc inp st ->
  select_next inp (candidates inp st) (cursor st) (last_block st) = Some (b, t) ->
  invariant svc inp (place st b t)
  /\ (length (pending (place st b t)) < length (pending st))%nat.
Proof.
  intros Htick (Hcur & Hchain & Hproper & Hnd & Hdur & Hic & Hsched) Hsel.
  destruct (chosen inp st b t Htick Hnd Hdur Hsel) as (Hin & Hle & Hend & Hpos).
  pose proof (transition_cost_nonneg svc (last_block st) b) as Hcost.
  unfold span_end in Hend.
  destruct (gap_chain (cursor st) t Hle) as [Hgc Hgp].
  destruct (transition_chain svc (last_block st) b t) as [Htc Htp].
  assert (Hnew : forall e, e ∈ placed st -> e ∈ placed (place st b t)).
  { intros e He. cbn. apply elem_of_app. left. exact He. }
  assert (Hmono : forall c, iteration_cursor inp (placed st) c ->
                            iteration_cursor inp (placed (place st b t)) c).
  { intros c [-> | (e & blk & He & Hw & Hc)]; [left; reflexivity | right].
    exists e, blk. split; [exact (Hnew e He) | split; assumption]. }
  split; [| cbn; rewrite <- (length_fmap (fun b0 =>
              with_priority b0 (prioritizer {| ctx_cursor := cursor st;
                                               ctx_placed := placed st |} b0)) (pending st));
            apply remove_length;
            apply candidates_elem_of in Hin; destruct Hin as [Hin _];
            rewrite (ranked_perm st Hnd) in Hin; exact Hin ].
  unfold invariant. cbn [cursor placed pending place]. repeat split.
  - lia.
  - lia.
  - apply (chain_app _ (cursor st)); [exact Hchain |].
    apply (chain_app _ t); [exact Hgc |].
    apply (chain_app _ (t + transition_cost svc (last_block st) b)); [exact Htc |].
    cbn. auto.
  - rewrite !Forall_app. repeat split; try assumption.
    constructor; [unfold proper; cbn [entry_start entry_end]; lia | constructor].
  - unfold Queue.remove.
    apply NoDup_fmap_2_strong.
    + intros x y Hx Hy Hxy.
      apply list_elem_of_filter in Hx, Hy. destruct Hx as [_ Hx], Hy as [_ Hy].
      assert (Hndp : NoDup (block_id <$> prioritized st)) by (rewrite prioritized_ids; exact Hnd).
      apply list_elem_of_lookup in Hx, Hy. destruct Hx as [i Hi], Hy as [j Hj].
      assert (i = j).
      { eapply NoDup_lookup; [exact Hndp | |].
        - rewrite list_lookup_fmap, Hi. reflexivity.
        - rewrite list_lookup_fmap, Hj. cbn. f_equal. symmetry. exact Hxy. }
      subst j. congruence.
    + apply NoDup_filter. eapply NoDup_fmap_1. rewrite prioritized_ids. exact Hnd.
  - unfold Queue.remove. apply Forall_forall. intros x Hx.
    apply list_elem_of_filter in Hx. destruct Hx as [_ Hx].
    pose proof (prioritized_durations st Hdur) as H. rewrite Forall_forall in H.
    exact (H x Hx).
  - right.
    exists {| what := Scheduled b;
              entry_start := t + transition_cost svc (last_block st) b;
              entry_end := t + transition_cost svc (last_block st) b + total_duration b |}, b.
    split; [| split; reflexivity].
    rewrite !elem_of_app. right. right. right. left.
  - intros e blk He Hw. rewrite !elem_of_app in He.
    destruct He as [He | [He | [He | He]]].
    + destruct (Hsched e blk He Hw) as (c & Hc & Hce & Hpass).
      exists c. split; [exact (Hmono c Hc) | split; assumption].
    + exfalso. exact (gap_not_scheduled _ _ _ _ He Hw).
    + exfalso. exact (transition_not_scheduled _ _ _ _ _ _ He Hw).
    + apply list_elem_of_singleton in He. subst e. cbn in Hw. inversion Hw; subst blk.
      exists (cursor st). split; [exact (Hmono _ Hic) |]. split; [cbn; lia |].
      apply candidates_elem_of in Hin. exact (proj2 Hin).
Qed.

(** The loop ends within its budget, Completed. *)
Lemma iterate_completes inp :
  0 < tick inp ->
  forall budget st,
    invariant svc inp st ->
    (length (pending st) < budget)%nat ->
    exists s, iterate inp budget st = Completed s /\ well_formed svc inp s.
Proof.
  intros Htick budget. induction budget as [| budget IH]; intros st Hinv Hlen; [lia |].
  cbn [Scheduler.iterate].
  destruct (select_next inp (candidates inp st) (cursor st) (last_block st))
    as [[b t] |] eqn:Hsel.
  - destruct (place_invariant inp st b t Htick Hinv Hsel) as [Hinv' Hlen'].
    apply IH; [exact Hinv' | lia].
  - eexists. split; [reflexivity |].
    destruct Hinv as (Hcur & Hchain & Hproper & _ & _ & _ & Hsched).
    destruct (gap_chain (cursor st) (window_end inp) (proj2 Hcur)) as [Hgc Hgp].
    split; [exact (chain_app _ _ _ _ _ Hchain Hgc) |].
    split; [apply Forall_app; split; assumption |].
    intros e blk He Hw. apply elem_of_app in He. destruct He as [He | He].
    + destruct (Hsched e blk He Hw) as (c & Hc & Hce & Hpass).
      exists c. split; [| split; assumption].
      destruct Hc as [-> | (e' & b' & He' & Hw' & Hc')]; [left; reflexivity | right].
      exists e', b'. split; [apply elem_of_app; left; exact He' | split; assumption].
    + exfalso. exact (gap_not_scheduled _ _ _ _ He Hw).
Qed.

Lemma structural_error_none inp :
  structural_error inp = None ->
  window_start inp < window_end inp /\ 0 < tick inp
  /\ NoDup (block_id <$> queue inp)
  /\ Forall (fun b => 0 < total_duration b) (queue inp).
Proof.
  unfold structural_error. destruct (queue inp) as [| b q] eqn:Hq; [discriminate |].
  destruct (window_end inp <=? window_start inp) eqn:Hw; [discriminate |].
  destruct (tick inp <=? 0) eqn:Ht; [discriminate |].
  destruct (bool_decide (NoDup (block_id <$> b :: q))) eqn:Hn; [| discriminate].
  cbn [negb].
  destruct (list_find _ (b :: q)) as [[i x] |] eqn:Hf; [discriminate |].
  intros _. apply Z.leb_gt in Hw, Ht. apply bool_decide_eq_true in Hn.
  repeat split; try assumption.
  apply list_find_None in Hf. eapply Forall_impl; [exact Hf |]. cbn. intros; lia.
Qed.

Lemma start_invariant inp :
  structural_error inp = None -> invariant svc inp (start inp).
Proof.
  intros H. apply structural_error_none in H. destruct H as (Hw & _ & Hnd & Hdur).
  unfold invariant, start. cbn. repeat split; try assumption; try lia.
  - constructor.
  - left. reflexivity.
  - intros e b He. apply elem_of_nil in He. contradiction.
Qed.

(** A run that is not stopped by a structural error is Completed. *)
Lemma run_completes inp :
  structural_error inp = None ->
  exists s, run svc prioritizer snapshot select_next inp = Completed s /\ well_formed svc inp s.
Proof.
  intros H. unfold run. rewrite H.
  pose proof (structural_error_none inp H) as (_ & Htick & _ & _).
  apply iterate_completes; [exact Htick | exact (start_invariant inp H) |].
  cbn. lia.
Qed.

Lemma run_completed inp s :
  run svc prioritizer snapshot select_next inp = Completed s ->
  structural_error inp = None /\ well_formed svc inp s.
Proof.
  intros H. destruct (structural_error inp) as [why |] eqn:He.
  - unfold run in H. rewrite He in H. discriminate.
  - split; [reflexivity |]. destruct (run_completes inp He) as (s' & Hs' & Hwf).
    rewrite H in Hs'. inversion Hs'; subst. exact Hwf.
Qed.

End Compliant.



(** *** Two runs *)



(** C1: every Schedule that a scheduling run completes with covers the
    window: each entry -- scheduled Block, TransitionField or
    UnallocatedBlock -- starts before it ends, consecutive entries do
    not overlap, and the spans of the entries are the window: every
    instant from [window_start] to [window_end] lies in an entry, and
    no entry reaches outside. *)
Theorem schedule_covers_the_window :
  forall (svc : services) (prioritizer : context -> block -> Q)
         (inp : run_input) (s : list entry),
    schedule_run svc prioritizer inp = Completed s ->
    Forall proper s
    /\ no_overlap s
    /\ covers s (window_start inp) (window_end inp).
Proof.
  intros svc prioritizer inp s H.
  destruct (run_completed svc prioritizer Queue.snapshot (Optimizer.select_next svc)
              queue_snapshot_contract (optimizer_select_next_contract svc) inp s H)
    as (_ & Hchain & Hproper & _).
  split; [exact Hproper |]. split.
  - exact (chain_no_overlap _ _ _ Hchain).
  - exact (chain_covers _ _ _ Hchain Hproper).
Qed.




(** *** A second Queue *)





(** *** The scenarios of the design *)

(** Section 8, first scenario: A at [[00:00, 01:00]], then B at
    [[01:00, 02:00]], then an UnallocatedBlock [[02:00, 04:00]]. *)
Example scenario_two_requests :
  schedule_run (Sample.sky_with (12 # 10)%Q 0) Sample.keep_priority Sample.two_requests
  = Completed
      [ {| what := Scheduled (Sample.request 1 "a" 10 0 7200);
           entry_start := 0; entry_end := 3600 |};
        {| what := Scheduled (Sample.request 2 "b" 5 0 14400);
           entry_start := 3600; entry_end := 7200 |};
        {| what := UnallocatedBlock; entry_start := 7200; entry_end := 14400 |} ].
Proof. vm_compute. reflexivity. Qed.

(** Section 8, second scenario: the airmass is above 2 at every tick,
    and the Schedule is one UnallocatedBlock over the whole window. *)
Example scenario_airmass :
  schedule_run (Sample.sky_with 3 0) Sample.keep_priority Sample.airmass_request
  = Completed [ {| what := UnallocatedBlock; entry_start := 0; entry_end := 14400 |} ].
Proof. vm_compute. reflexivity. Qed.

(** An empty Queue is a structural error. *)
Example empty_queue_aborts :
  schedule_run Sample.sky Sample.keep_priority
    {| queue := []; window_start := 0; window_end := 14400; tick := 60;
       global_conditions := [] |}
  = Aborted [] EmptyQueue.
Proof. reflexivity. Qed.

Lemma sample_night_runs :
  schedule_run Sample.sky Sample.keep_priority Sample.night = Completed Sample.timetable.
Proof. vm_compute. reflexivity. Qed.

(** C1, witness: the sample night -- an observation, idle time, a
    transition, an observation, idle time. *)
Lemma schedule_covers_the_window_witness :
  schedule_run Sample.sky Sample.keep_priority Sample.night = Completed Sample.timetable
  /\ Forall proper Sample.timetable
  /\ no_overlap Sample.timetable
  /\ covers Sample.timetable 0 14400.
Proof.
  split; [exact sample_night_runs |].
  exact (schedule_covers_the_window Sample.sky Sample.keep_priority Sample.night
           Sample.timetable sample_night_runs).
Defined.



End CoreFacts.
